(** * South Korea Law MCP: ingestion and indexing pipeline

    A shallow embedding of the scripts that fetch, parse, store and index
    Korean legislation (scripts/lib/fetcher.ts, scripts/lib/parser.ts,
    scripts/ingest.ts, scripts/build-db.ts, scripts/check-updates.ts),
    followed by the properties established about them. *)

From Stdlib Require Import ZArith NArith Lia Bool List Ascii String DecimalString.
From stdpp Require Import gmap list.
Import ListNotations.

Set Warnings "-register-all".
Local Open Scope N_scope.

(** ** JavaScript strings and values *)

Module Js.

(** A JavaScript string is a sequence of UTF-16 code units; [length],
    [slice], the regular expressions without the [u] flag and [trim] all
    work on code units. *)
Definition char := N.
Definition jsstring := list char.

(** Source literals are written in UTF-8 and decoded to code units (every
    character used by the scripts lies in the Basic Multilingual Plane). *)
Fixpoint utf8_decode (bs : list N) : jsstring :=
  match bs with
  | [] => []
  | b0 :: r0 =>
      if b0 <? 128 then b0 :: utf8_decode r0
      else if b0 <? 224 then
        match r0 with
        | b1 :: r1 =>
            N.lor (N.shiftl (N.land b0 31) 6) (N.land b1 63) :: utf8_decode r1
        | [] => []
        end
      else
        match r0 with
        | b1 :: b2 :: r2 =>
            N.lor (N.shiftl (N.land b0 15) 12)
                  (N.lor (N.shiftl (N.land b1 63) 6) (N.land b2 63))
              :: utf8_decode r2
        | _ => []
        end
  end.

Definition js (s : string) : jsstring :=
  utf8_decode (List.map N_of_ascii (list_ascii_of_string s)).

(** [a === b] on strings. *)
Fixpoint str_eqb (a b : jsstring) : bool :=
  match a, b with
  | [], [] => true
  | x :: a', y :: b' => (x =? y) && str_eqb a' b'
  | _, _ => false
  end.

(** [s.length] *)
Definition strlen (s : jsstring) : Z := Z.of_nat (length s).

(** [a.length] for an array. *)
Definition arrlen {A} (a : list A) : Z := Z.of_nat (length a).

(** The characters matched by [\s]; [String.prototype.trim] removes the
    same set (WhiteSpace and LineTerminator). *)
Definition is_ws (c : char) : bool :=
  ((9 <=? c) && (c <=? 13)) || (c =? 32) || (c =? 160) || (c =? 5760)
  || ((8192 <=? c) && (c <=? 8202)) || (c =? 8232) || (c =? 8233)
  || (c =? 8239) || (c =? 8287) || (c =? 12288) || (c =? 65279).

Definition space : char := 32.
Definition newline : char := 10.

Fixpoint dropWhile {A} (p : A -> bool) (l : list A) : list A :=
  match l with
  | [] => []
  | x :: l' => if p x then dropWhile p l' else l
  end.

Definition trimStart (s : jsstring) : jsstring := dropWhile is_ws s.
Definition trimEnd (s : jsstring) : jsstring := rev (dropWhile is_ws (rev s)).

(** [s.trim()] *)
Definition trim (s : jsstring) : jsstring := trimEnd (trimStart s).

(** [s.replace(/\s+/g, ' ')]: every maximal run of whitespace becomes one
    space.  [in_run] tells that the previous character belonged to a run
    that has already been replaced. *)
Fixpoint collapse_from (in_run : bool) (s : jsstring) : jsstring :=
  match s with
  | [] => []
  | c :: s' =>
      if is_ws c then
        if in_run then collapse_from true s' else space :: collapse_from true s'
      else c :: collapse_from false s'
  end.

Definition collapse_ws (s : jsstring) : jsstring := collapse_from false s.

(** [s.replace(/[...]/g, '')] for a character class given as a predicate. *)
Definition remove_chars (cls : char -> bool) (s : jsstring) : jsstring :=
  List.filter (fun c => negb (cls c)) s.

Definition is_digit (c : char) : bool := (48 <=? c) && (c <=? 57).

(** [s.slice(a, b)] and [s.substring(a, b)] for [0 <= a <= b]. *)
Definition slice (a b : nat) (s : jsstring) : jsstring := take (b - a) (drop a s).

Fixpoint startsWith (p s : jsstring) : bool :=
  match p, s with
  | [], _ => true
  | _ :: _, [] => false
  | a :: p', b :: s' => (a =? b) && startsWith p' s'
  end.

(** [s.includes(p)], also [/p/.test(s)] for a literal pattern. *)
Fixpoint includes (p s : jsstring) : bool :=
  startsWith p s || match s with [] => false | _ :: s' => includes p s' end.

(** A string is truthy when it is not empty. *)
Definition nonempty (s : jsstring) : bool :=
  match s with [] => false | _ => true end.

(** Shapes of strings used to describe normalised text. *)
Definition ws_only_spaces (s : jsstring) : Prop :=
  forall c, In c s -> is_ws c = true -> c = space.

Definition no_ws_pair (s : jsstring) : Prop :=
  forall pre c1 c2 post,
    s = pre ++ c1 :: c2 :: post -> is_ws c1 = true -> is_ws c2 = true -> False.

(** A recursive reading of [no_ws_pair], convenient for induction. *)
Fixpoint sparse (s : jsstring) : Prop :=
  match s with
  | c1 :: ((c2 :: _) as t) =>
      (is_ws c1 = true -> is_ws c2 = true -> False) /\ sparse t
  | _ => True
  end.

Definition no_ws_at_ends (s : jsstring) : Prop :=
  (forall c, head s = Some c -> is_ws c = false)
  /\ (forall c, last s = Some c -> is_ws c = false).

(** [a || b] on strings. *)
Definition str_or (a b : jsstring) : jsstring := if nonempty a then a else b.

(** [String(n)] for an integral number of magnitude below [2^53], the
    range in which every integer is a number of its own and is printed in
    plain decimal; larger numbers are outside the model. *)
Definition num_to_string (n : Z) : jsstring :=
  js (DecimalString.NilZero.string_of_int (Z.to_int n)).

(** [parseInt(s, 10)]: leading whitespace, an optional sign, then the
    longest run of decimal digits; [None] stands for [NaN].  The value is
    the exact integer, which is what [parseInt] returns for a run of up to
    15 digits (no rounding below [2^53]). *)
Fixpoint digits_value (acc : Z) (s : jsstring) : Z :=
  match s with
  | [] => acc
  | c :: s' =>
      if is_digit c then digits_value (10 * acc + Z.of_N (c - 48))%Z s' else acc
  end.

Definition parse_digits (s : jsstring) : option Z :=
  match s with
  | c :: _ => if is_digit c then Some (digits_value 0 s) else None
  | [] => None
  end.

Definition parseInt10 (s : jsstring) : option Z :=
  match trimStart s with
  | c :: rest =>
      if c =? 45 then Z.opp <$> parse_digits rest
      else if c =? 43 then parse_digits rest
      else parse_digits (c :: rest)
  | [] => None
  end.

(** Values as they come out of [XMLParser.parse] and [JSON.parse].  An
    object is the list of its own properties in [Object.keys] order;
    numbers are the integral ones of magnitude below [2^53].  No value is
    a function. *)
Inductive JsVal :=
| JUndef
| JNull
| JBool (b : bool)
| JNum (n : Z)
| JStr (s : jsstring)
| JArr (items : list JsVal)
| JObj (fields : list (jsstring * JsVal)).

Definition truthy (v : JsVal) : bool :=
  match v with
  | JUndef | JNull => false
  | JBool b => b
  | JNum n => negb (n =? 0)%Z
  | JStr s => nonempty s
  | JArr _ | JObj _ => true
  end.

Definition nullish (v : JsVal) : bool :=
  match v with JUndef | JNull => true | _ => false end.

(** [a ?? b] *)
Definition coalesce (a b : JsVal) : JsVal := if nullish a then b else a.

Fixpoint assoc {V} (k : jsstring) (fields : list (jsstring * V)) : option V :=
  match fields with
  | [] => None
  | (k', v) :: rest => if str_eqb k k' then Some v else assoc k rest
  end.

(** [map.set(k, v)] on a [Map] kept as the list of its entries in
    insertion order: an existing key keeps its place. *)
Fixpoint mapSet {V} (k : jsstring) (v : V) (m : list (jsstring * V))
  : list (jsstring * V) :=
  match m with
  | [] => [(k, v)]
  | (k', x) :: rest =>
      if str_eqb k k' then (k', v) :: rest else (k', x) :: mapSet k v rest
  end.

Fixpoint endsWith_rev (p s : jsstring) : bool :=
  match p, s with
  | [], _ => true
  | _ :: _, [] => false
  | a :: p', b :: s' => (a =? b) && endsWith_rev p' s'
  end.

(** [s.endsWith(p)] *)
Definition endsWith (p s : jsstring) : bool := endsWith_rev (rev p) (rev s).

(** [v[k]] for the property names the scripts use (none of them is an
    index, [length] or a prototype member); every receiver has been checked
    to be neither [null] nor [undefined] before. *)
Definition member (v : JsVal) (k : string) : JsVal :=
  match v with
  | JObj fields => default JUndef (assoc (js k) fields)
  | _ => JUndef
  end.

(** [Array.isArray(x) ? x : [x].filter(Boolean)] *)
Definition asList (x : JsVal) : list JsVal :=
  match x with
  | JArr items => items
  | _ => if truthy x then [x] else []
  end.

Fixpoint join (sep : jsstring) (parts : list jsstring) : jsstring :=
  match parts with
  | [] => []
  | [p] => p
  | p :: rest => p ++ sep ++ join sep rest
  end.

(** [String(v)] raises a TypeError ("Cannot convert object to primitive
    value") when it reaches an object whose own property [toString] hides
    the inherited method: the property is not callable, and the inherited
    [valueOf] returns the object itself.  An array is joined element by
    element, [null] and [undefined] giving the empty string. *)
Fixpoint convertible (v : JsVal) : bool :=
  match v with
  | JObj fields =>
      match assoc (js "toString") fields with
      | Some _ => false
      | None => true
      end
  | JArr items =>
      forallb (fun x => if nullish x then true else convertible x) items
  | _ => true
  end.

(** [String(v)] for a value that [convertible] accepts. *)
Fixpoint toString (v : JsVal) : jsstring :=
  match v with
  | JUndef => js "undefined"
  | JNull => js "null"
  | JBool true => js "true"
  | JBool false => js "false"
  | JNum n => num_to_string n
  | JStr s => s
  | JArr items =>
      join (js ",")
        (List.map (fun x => if nullish x then [] else toString x) items)
  | JObj _ => js "[object Object]"
  end.

(** Exceptions. *)
Inductive Exn :=
| Error (msg : jsstring)
| TypeError (msg : jsstring)
| RangeError (msg : jsstring)
| SqliteError (code : jsstring).

Definition cannotConvert : Exn :=
  TypeError (js "Cannot convert object to primitive value").

Inductive Result (A : Type) :=
| Ok (a : A)
| Throw (e : Exn).
Arguments Ok {A} a.
Arguments Throw {A} e.

End Js.

Declare Scope js_scope.
Delimit Scope js_scope with js.
Infix "??" := Js.coalesce (at level 60, right associativity) : js_scope.
Notation "v .[ k ]" := (Js.member v k) (at level 1, left associativity, format "v .[ k ]") : js_scope.

(** ** scripts/lib/parser.ts *)

Module Parser.
Import Js.
Local Open Scope js_scope.

(** The fast-xml-parser instance of the module: [parser.parse(xml)] yields
    a value or throws. *)
Class XMLParser := xml_parse : jsstring -> Result JsVal.

Record LawIndexEntry := {
  title : jsstring;
  lawId : jsstring;
  lawNumber : jsstring;
  promulgationDate : jsstring;
  enforcementDate : jsstring;
  lawType : jsstring;
  url : jsstring
}.

Record LawListResult := {
  entries : list LawIndexEntry;
  totalCount : option Z;
  hasNextPage : bool
}.

Record ParsedProvision := {
  provision_ref : jsstring;
  section : jsstring;
  prov_title : jsstring;
  content : jsstring
}.

Inductive DocType := statute | presidential_decree | ministerial_ordinance.

(** What [buildShortName] returns: a string or, for a title that names a
    member of [Object.prototype], that member (a function, or the
    prototype object itself). *)
Inductive ShortName :=
| ShortText (s : jsstring)
| InheritedFunction (name : jsstring)
| PrototypeObject.
Inductive Status := in_force | amended | repealed | not_yet_in_force.

Record ParsedLaw := {
  id : jsstring;
  type : DocType;
  law_title : jsstring;
  title_en : jsstring;
  short_name : ShortName;
  law_number : jsstring;
  status : Status;
  issued_date : jsstring;
  in_force_date : jsstring;
  law_url : jsstring;
  provisions : list ParsedProvision
}.

(** *** Internal helpers *)

(** [extractText(node)]: the value it returns.  The one step that can
    raise is [String(obj['#text'])]; [textRaises] below tells when a call
    reaches such a step. *)
Fixpoint extractText (node : JsVal) : option jsstring :=
  match node with
  | JStr s => Some s
  | JNum n => Some (num_to_string n)
  | JObj fields =>
      match assoc (js "#text") fields with
      | Some t => Some (toString t)
      | None =>
          (fix keys (fs : list (jsstring * JsVal)) : option jsstring :=
             match fs with
             | [] => None
             | (key, child) :: fs' =>
                 if startsWith (js "@_") key then keys fs'
                 else
                   match extractText child with
                   | Some val => if nonempty val then Some val else keys fs'
                   | None => keys fs'
                   end
             end) fields
      end
  | JArr items =>
      (fix elems (xs : list JsVal) : option jsstring :=
         match xs with
         | [] => None
         | child :: xs' =>
             match extractText child with
             | Some val => if nonempty val then Some val else elems xs'
             | None => elems xs'
             end
         end) items
  | JUndef | JNull | JBool _ => None
  end.

(** [extractText(node)] raises: the walk, in the order of [extractText],
    comes to a [#text] member that [String] cannot convert before it has
    found a text to return. *)
Fixpoint textRaises (node : JsVal) : bool :=
  match node with
  | JObj fields =>
      match assoc (js "#text") fields with
      | Some t => negb (convertible t)
      | None =>
          (fix keys (fs : list (jsstring * JsVal)) : bool :=
             match fs with
             | [] => false
             | (key, child) :: fs' =>
                 if startsWith (js "@_") key then keys fs'
                 else if textRaises child then true
                 else
                   match extractText child with
                   | Some val => if nonempty val then false else keys fs'
                   | None => keys fs'
                   end
             end) fields
      end
  | JArr items =>
      (fix elems (xs : list JsVal) : bool :=
         match xs with
         | [] => false
         | child :: xs' =>
             if textRaises child then true
             else
               match extractText child with
               | Some val => if nonempty val then false else elems xs'
               | None => elems xs'
               end
         end) items
  | _ => false
  end.

(** [extractText(node) ?? dflt] *)
Definition textOr (dflt : jsstring) (node : JsVal) : jsstring :=
  default dflt (extractText node).

Definition inferDocumentType (lawType : jsstring) : DocType :=
  if includes (js "대통령령") lawType then presidential_decree
  else if includes (js "부령") lawType || includes (js "총리령") lawType
  then ministerial_ordinance
  else statute.

(** Common abbreviations for Korean laws (own keys of the table). *)
Definition abbrevs : list (jsstring * jsstring) :=
  [ (js "개인정보 보호법", js "PIPA");
    (js "정보통신망 이용촉진 및 정보보호 등에 관한 법률", js "Network Act");
    (js "신용정보의 이용 및 보호에 관한 법률", js "Credit Information Act");
    (js "전자정부법", js "E-Government Act");
    (js "지능정보화 기본법", js "Intelligent Informatization Act") ].

(** The table is a plain object, so [abbrevs[title]] also finds what the
    object inherits from [Object.prototype]: eleven functions and, under
    [__proto__], the prototype object itself. *)
Definition inheritedFunctions : list jsstring :=
  [ js "constructor"; js "__defineGetter__"; js "__defineSetter__";
    js "hasOwnProperty"; js "__lookupGetter__"; js "__lookupSetter__";
    js "isPrototypeOf"; js "propertyIsEnumerable"; js "toString";
    js "valueOf"; js "toLocaleString" ].

Definition buildShortName (title : jsstring) : ShortName :=
  match List.find (fun kv => str_eqb title (fst kv)) abbrevs with
  | Some kv => ShortText (snd kv)
  | None =>
      if existsb (str_eqb title) inheritedFunctions then InheritedFunction title
      else if str_eqb title (js "__proto__") then PrototypeObject
      else ShortText (trim (slice 0 30 title))
  end.

Definition formatDate (dateStr : jsstring) : jsstring :=
  if negb (nonempty dateStr) || (strlen dateStr <? 8)%Z then dateStr
  else
    let clean := remove_chars (fun c => negb (is_digit c)) dateStr in
    if (strlen clean =? 8)%Z then
      slice 0 4 clean ++ js "-" ++ slice 4 6 clean ++ js "-" ++ slice 6 8 clean
    else dateStr.

Definition lawUrl (lawId : jsstring) : jsstring :=
  js "https://www.law.go.kr/LSW/lsInfoP.do?lsiSeq=" ++ lawId.

(** *** Law list parsing *)

Definition pageSize : Z := 100.

(** One turn of the loop over [entryList]; [entries] is the array being
    filled. *)
Definition pushEntry (entries : list LawIndexEntry) (entry : JsVal)
  : list LawIndexEntry :=
  if negb (truthy entry) then entries
  else
    let title := textOr [] (entry.["법령명한글"] ?? entry.["lawNameKorean"] ?? entry.["법령명"]) in
    let lawId := textOr [] (entry.["법령일련번호"] ?? entry.["lawId"] ?? entry.["MST"] ?? entry.["법령ID"]) in
    let lawNumber := textOr [] (entry.["법령번호"] ?? entry.["lawNumber"] ?? entry.["공포번호"]) in
    let promulgationDate := textOr [] (entry.["공포일자"] ?? entry.["promulgationDate"]) in
    let enforcementDate := textOr [] (entry.["시행일자"] ?? entry.["enforcementDate"]) in
    let lawType := textOr (js "statute") (entry.["법령종류"] ?? entry.["lawType"] ?? JStr []) in
    if negb (nonempty title) then entries
    else
      entries ++
      [ {| title := trim (collapse_ws title);
           lawId := lawId;
           lawNumber := lawNumber;
           promulgationDate := promulgationDate;
           enforcementDate := enforcementDate;
           lawType := lawType;
           url := lawUrl lawId |} ].

(** The turn of the loop for [entry] raises: one of its six calls of
    [extractText] does (all six come before the test of the title). *)
Definition entryRaises (entry : JsVal) : bool :=
  truthy entry
  && existsb textRaises
       [ entry.["법령명한글"] ?? entry.["lawNameKorean"] ?? entry.["법령명"];
         entry.["법령일련번호"] ?? entry.["lawId"] ?? entry.["MST"] ?? entry.["법령ID"];
         entry.["법령번호"] ?? entry.["lawNumber"] ?? entry.["공포번호"];
         entry.["공포일자"] ?? entry.["promulgationDate"];
         entry.["시행일자"] ?? entry.["enforcementDate"];
         entry.["법령종류"] ?? entry.["lawType"] ?? JStr [] ].

(** [parseLawList] raises after [parser.parse(xml)] has returned: the
    count cannot be converted by [String], or a turn of the loop raises. *)
Definition listRaises (parsed : JsVal) : bool :=
  let root := parsed.["LawSearch"] ?? parsed in
  negb (convertible (root.["totalCnt"] ?? root.["전체건수"] ?? JStr (js "0")))
  || existsb entryRaises (asList (root.["law"] ?? root.["법령"] ?? JArr [])).

(** The part of [parseLawList] after [parser.parse(xml)] has returned, for
    a document on which nothing raises. *)
Definition lawListOf (parsed : JsVal) : LawListResult :=
  let root := parsed.["LawSearch"] ?? parsed in
  let totalCount :=
    parseInt10 (toString (root.["totalCnt"] ?? root.["전체건수"] ?? JStr (js "0"))) in
  let rawEntries := root.["law"] ?? root.["법령"] ?? JArr [] in
  let entryList := asList rawEntries in
  let entries := fold_left pushEntry entryList [] in
  let hasNextPage :=
    (pageSize <=? arrlen entries)%Z
    && match totalCount with
       | Some total => (arrlen entries <? total)%Z
       | None => false
       end in
  {| entries := entries; totalCount := totalCount; hasNextPage := hasNextPage |}.

Definition nullReceiver : Exn :=
  TypeError (js "Cannot read properties of undefined").

Definition parseLawList `{XMLParser} (xml : jsstring) : Result LawListResult :=
  match xml_parse xml with
  | Throw e => Throw e
  | Ok parsed =>
      if nullish parsed then Throw nullReceiver
      else if listRaises parsed then Throw cannotConvert
      else Ok (lawListOf parsed)
  end.

(** *** Individual law parsing *)

Definition is_article_marker (c : char) : bool :=
  List.existsb (N.eqb c) (js "제조").

Definition appendItem (fullContent : jsstring) (item : JsVal) : jsstring :=
  if negb (truthy item) then fullContent
  else
    let itemContent := textOr [] (item.["호내용"] ?? item.["itemContent"] ?? item) in
    if nonempty (trim itemContent)
    then fullContent ++ [newline; space; space] ++ itemContent
    else fullContent.

Definition appendParagraph (fullContent : jsstring) (para : JsVal) : jsstring :=
  if negb (truthy para) then fullContent
  else
    let paraContent := textOr [] (para.["항내용"] ?? para.["paragraphContent"] ?? para) in
    let fullContent :=
      if nonempty (trim paraContent)
      then fullContent ++ [newline] ++ paraContent
      else fullContent in
    let items := para.["호"] ?? JArr [] in
    fold_left appendItem (asList items) fullContent.

(** The text assembled for one article before it is stored. *)
Definition articleFullContent (article : JsVal) : jsstring :=
  let articleContent := textOr [] (article.["조문내용"] ?? article.["articleContent"]) in
  let paragraphs := article.["항"] ?? JArr [] in
  fold_left appendParagraph (asList paragraphs) articleContent.

(** One turn of the loop over [articleList]. *)
Definition pushArticle (provisions : list ParsedProvision) (article : JsVal)
  : list ParsedProvision :=
  if negb (truthy article) then provisions
  else
    let articleNumber := textOr [] (article.["조문번호"] ?? article.["articleNumber"]) in
    let articleTitle := textOr [] (article.["조문제목"] ?? article.["articleTitle"]) in
    let articleContent := textOr [] (article.["조문내용"] ?? article.["articleContent"]) in
    if negb (nonempty articleNumber) && negb (nonempty articleContent) then provisions
    else
      let cleanNumber := trim (remove_chars is_article_marker articleNumber) in
      let provisionRef := js "art-" ++ cleanNumber in
      let fullContent := articleFullContent article in
      if nonempty (trim fullContent)
      then
        provisions ++
        [ {| provision_ref := provisionRef;
             section := js "제" ++ cleanNumber ++ js "조";
             prov_title := articleTitle;
             content := trim (collapse_ws fullContent) |} ]
      else provisions.

Definition lawRoot (parsed : JsVal) : JsVal :=
  parsed.["법령"] ?? parsed.["law"] ?? parsed.

Definition articleListOf (root : JsVal) : list JsVal :=
  let articles := root.["조문"] ?? root.["조문단위"] ?? root.["articles"] ?? JArr [] in
  asList articles.

(** The turns of the loops raise: a truthy item, paragraph or article
    raises when one of its calls of [extractText] does; the paragraphs of
    an article are reached only past the test of its number and content. *)
Definition itemRaises (item : JsVal) : bool :=
  truthy item && textRaises (item.["호내용"] ?? item.["itemContent"] ?? item).

Definition paragraphRaises (para : JsVal) : bool :=
  truthy para
  && (textRaises (para.["항내용"] ?? para.["paragraphContent"] ?? para)
      || existsb itemRaises (asList (para.["호"] ?? JArr []))).

Definition articleRaises (article : JsVal) : bool :=
  truthy article
  && (existsb textRaises
        [ article.["조문번호"] ?? article.["articleNumber"];
          article.["조문제목"] ?? article.["articleTitle"];
          article.["조문내용"] ?? article.["articleContent"] ]
      || ((nonempty (textOr [] (article.["조문번호"] ?? article.["articleNumber"]))
           || nonempty (textOr [] (article.["조문내용"] ?? article.["articleContent"])))
          && existsb paragraphRaises (asList (article.["항"] ?? JArr [])))).

(** [parseLawXml] raises after [parser.parse(xml)] has returned. *)
Definition lawRaises (parsed : JsVal) : bool :=
  let root := lawRoot parsed in
  existsb textRaises
    [ root.["법령명_한글"] ?? root.["법령명한글"] ?? root.["lawNameKorean"] ?? root.["법령명"];
      root.["법령명_영문"] ?? root.["법령명영문"] ?? root.["lawNameEnglish"];
      root.["법령번호"] ?? root.["lawNumber"] ?? root.["공포번호"];
      root.["공포일자"] ?? root.["promulgationDate"];
      root.["시행일자"] ?? root.["enforcementDate"];
      root.["법령종류"] ?? root.["lawType"] ]
  || existsb articleRaises (articleListOf root).

(** The part of [parseLawXml] after [parser.parse(xml)] has returned, for
    a document on which nothing raises. *)
Definition lawOf (parsed : JsVal) (lawId : jsstring) : ParsedLaw :=
  let root := lawRoot parsed in
  let title := textOr [] (root.["법령명_한글"] ?? root.["법령명한글"] ?? root.["lawNameKorean"] ?? root.["법령명"]) in
  let titleEn := textOr [] (root.["법령명_영문"] ?? root.["법령명영문"] ?? root.["lawNameEnglish"]) in
  let lawNumber := textOr [] (root.["법령번호"] ?? root.["lawNumber"] ?? root.["공포번호"]) in
  let promulgationDate := textOr [] (root.["공포일자"] ?? root.["promulgationDate"]) in
  let enforcementDate := textOr [] (root.["시행일자"] ?? root.["enforcementDate"]) in
  let lawType := textOr [] (root.["법령종류"] ?? root.["lawType"]) in
  let type := inferDocumentType lawType in
  let shortName := buildShortName title in
  let articleList := articleListOf root in
  let provisions := fold_left pushArticle articleList [] in
  {| id := js "act-" ++ str_or lawNumber lawId;
     type := type;
     law_title := title;
     title_en := titleEn;
     short_name := shortName;
     law_number := lawNumber;
     status := in_force;
     issued_date := formatDate promulgationDate;
     in_force_date := formatDate enforcementDate;
     law_url := lawUrl lawId;
     provisions := provisions |}.

Definition parseLawXml `{XMLParser} (xml lawId : jsstring) : Result ParsedLaw :=
  match xml_parse xml with
  | Throw e => Throw e
  | Ok parsed =>
      if nullish parsed then Throw nullReceiver
      else if lawRaises parsed then Throw cannotConvert
      else Ok (lawOf parsed lawId)
  end.

End Parser.

(** ** Seed files and the rows of the SQLite store (scripts/build-db.ts) *)

Module Store.
Import Js.

Record ProvisionSeed := {
  provision_ref : jsstring;
  chapter : option jsstring;
  section : jsstring;
  title : option jsstring;
  content : jsstring;
  content_en : option jsstring;
  metadata : option JsVal
}.

(** The [short_name] of a seed file: a string or, in a seed written for a
    law whose short name was the prototype object, the empty object that
    [JSON.stringify] writes for it. *)
Inductive SeedName :=
| NameText (s : jsstring)
| NameObject.

Record DocumentSeed := {
  id : jsstring;
  type : Parser.DocType;
  doc_title : jsstring;
  title_en : option jsstring;
  short_name : option SeedName;
  law_number : option jsstring;
  status : Parser.Status;
  issued_date : option jsstring;
  in_force_date : option jsstring;
  url : option jsstring;
  description : option jsstring;
  language : option jsstring;
  provisions : option (list ProvisionSeed)
}.

(** What [JSON.parse] reads back from a seed written with
    [JSON.stringify(law)]; a member whose value is a function is left out
    by [JSON.stringify]. *)
Definition provisionToSeed (p : Parser.ParsedProvision) : ProvisionSeed :=
  {| provision_ref := Parser.provision_ref p;
     chapter := None;
     section := Parser.section p;
     title := Some (Parser.prov_title p);
     content := Parser.content p;
     content_en := None;
     metadata := None |}.

Definition lawToSeed (law : Parser.ParsedLaw) : DocumentSeed :=
  {| id := Parser.id law;
     type := Parser.type law;
     doc_title := Parser.law_title law;
     title_en := Some (Parser.title_en law);
     short_name :=
       match Parser.short_name law with
       | Parser.ShortText s => Some (NameText s)
       | Parser.InheritedFunction _ => None
       | Parser.PrototypeObject => Some NameObject
       end;
     law_number := Some (Parser.law_number law);
     status := Parser.status law;
     issued_date := Some (Parser.issued_date law);
     in_force_date := Some (Parser.in_force_date law);
     url := Some (Parser.law_url law);
     description := None;
     language := None;
     provisions := Some (List.map provisionToSeed (Parser.provisions law)) |}.

(** A file of the seed directory: JSON of the seed shape, or text that
    [JSON.parse] rejects. *)
Inductive SeedFile :=
| SeedJson (seed : DocumentSeed)
| Malformed (raw : jsstring).

(** The cached discovery index. *)
Inductive IndexFile :=
| IndexJson (laws : list Parser.LawIndexEntry)
| MalformedIndex (raw : jsstring).

(** Rows of the tables created by [SCHEMA].  The full-text table
    [provisions_fts] is kept equal to [legal_provisions] by its triggers
    and has no state of its own; columns filled by a time default are
    left out. *)
Record DocumentRow := {
  d_id : jsstring;
  d_type : Parser.DocType;
  d_title : jsstring;
  d_title_en : option jsstring;
  d_short_name : option jsstring;
  d_law_number : option jsstring;
  d_status : Parser.Status;
  d_issued_date : option jsstring;
  d_in_force_date : option jsstring;
  d_url : option jsstring;
  d_description : option jsstring;
  d_language : jsstring
}.

Record ProvisionRow := {
  p_document_id : jsstring;
  p_provision_ref : jsstring;
  p_chapter : option jsstring;
  p_section : jsstring;
  p_title : option jsstring;
  p_content : jsstring;
  p_content_en : option jsstring;
  p_language : jsstring;
  p_metadata : option JsVal
}.

Record EuDocumentRow := {
  e_id : jsstring;
  e_type : jsstring;
  e_year : Z;
  e_number : Z;
  e_community : jsstring;
  e_title : jsstring;
  e_short_name : jsstring;
  e_url_eur_lex : jsstring;
  e_description : jsstring
}.

Record EuReferenceRow := {
  r_source_type : jsstring;
  r_source_id : jsstring;
  r_document_id : jsstring;
  r_provision_id : option Z;
  r_eu_document_id : jsstring;
  r_eu_article : option jsstring;
  r_reference_type : jsstring;
  r_reference_context : jsstring;
  r_full_citation : jsstring;
  r_is_primary_implementation : Z;
  r_implementation_status : jsstring;
  r_last_verified : Z
}.

Inductive MetaValue :=
| MetaText (v : jsstring)
| MetaTime (ms : Z).

Inductive JournalMode := WAL | DELETE.

Record Db := {
  legal_documents : list DocumentRow;
  legal_provisions : list ProvisionRow;
  eu_documents : list EuDocumentRow;
  eu_references : list EuReferenceRow;
  db_metadata : list (jsstring * MetaValue);
  journal_mode : JournalMode;
  closed : bool
}.

End Store.

(** ** The process and its surroundings *)

Module Sys.
Import Js.

(** A request is the URL it is sent to: a base and the query parameters
    that [URLSearchParams] appends to it (none when the script writes the
    whole URL itself). *)
Record Request := {
  base : jsstring;
  params : list (jsstring * jsstring)
}.

(** [params.toString()]: every name and value is encoded in UTF-8 and then
    byte by byte: letters, digits and [*-._] stay, a space becomes [+] and
    any other byte becomes [%XX]; a lone surrogate is encoded as U+FFFD. *)
Fixpoint codePoints (s : jsstring) : list N :=
  match s with
  | [] => []
  | c :: rest =>
      if (55296 <=? c) && (c <=? 56319) then
        match rest with
        | low :: rest' =>
            if (56320 <=? low) && (low <=? 57343)
            then (65536 + (c - 55296) * 1024 + (low - 56320)) :: codePoints rest'
            else 65533 :: codePoints rest
        | [] => [65533]
        end
      else if (56320 <=? c) && (c <=? 57343) then 65533 :: codePoints rest
      else c :: codePoints rest
  end.

Definition utf8 (cp : N) : list N :=
  if cp <? 128 then [cp]
  else if cp <? 2048 then [192 + cp / 64; 128 + cp mod 64]
  else if cp <? 65536
  then [224 + cp / 4096; 128 + (cp / 64) mod 64; 128 + cp mod 64]
  else [240 + cp / 262144; 128 + (cp / 4096) mod 64;
        128 + (cp / 64) mod 64; 128 + cp mod 64].

Definition hexDigit (n : N) : char := if n <? 10 then 48 + n else 55 + n.

Definition formByte (b : N) : jsstring :=
  if b =? 32 then [43]
  else if ((48 <=? b) && (b <=? 57)) || ((65 <=? b) && (b <=? 90))
          || ((97 <=? b) && (b <=? 122))
          || (b =? 42) || (b =? 45) || (b =? 46) || (b =? 95)
  then [b]
  else [37; hexDigit (b / 16); hexDigit (b mod 16)].

Definition formEncode (s : jsstring) : jsstring :=
  flat_map formByte (flat_map utf8 (codePoints s)).

Definition searchParams (params : list (jsstring * jsstring)) : jsstring :=
  join (js "&")
    (List.map (fun kv => formEncode (fst kv) ++ js "=" ++ formEncode (snd kv)) params).

(** The text of the URL. *)
Definition urlOf (req : Request) : jsstring :=
  match params req with
  | [] => base req
  | ps => base req ++ js "?" ++ searchParams ps
  end.

Record Response := {
  resp_status : Z;
  resp_body : jsstring;
  resp_content_type : option jsstring
}.

(** [fetch] rejects, or resolves with a response. *)
Inductive NetReply :=
| NetFail (e : Exn)
| Reply (r : Response).

Inductive Event :=
| Fetched (req : Request)
| Slept (ms : Z).

(** The state threaded through the scripts.  [upstream n req] is the
    answer to [req] when [n] requests were sent before it; [trace] lists
    requests and timer delays in the order they happened.  A timer of
    [ms] milliseconds advances [now] by [ms]; other steps take no time.
    Console output is not recorded. *)
Record World := {
  now : Z;
  lastRequestTime : Z;
  upstream : nat -> Request -> NetReply;
  sent : nat;
  trace : list Event;
  apiKey : option jsstring;
  seedDir : option (gmap jsstring Store.SeedFile);
  indexFile : option Store.IndexFile;
  database : option Store.Db
}.

Definition M (A : Type) : Type := World -> Result A * World.

Definition ret {A} (a : A) : M A := fun w => (Ok a, w).

Definition bind {A B} (c : M A) (k : A -> M B) : M B :=
  fun w =>
    match c w with
    | (Ok a, w') => k a w'
    | (Throw e, w') => (Throw e, w')
    end.

Definition throw {A} (e : Exn) : M A := fun w => (Throw e, w).

(** [try { body } catch (error) { handler }] *)
Definition try_catch {A} (body : M A) (handler : Exn -> M A) : M A :=
  fun w =>
    match body w with
    | (Ok a, w') => (Ok a, w')
    | (Throw e, w') => handler e w'
    end.

Definition lift {A} (r : Result A) : M A := fun w => (r, w).

Definition gets {A} (f : World -> A) : M A := fun w => (Ok (f w), w).

Definition modify (f : World -> World) : M unit := fun w => (Ok tt, f w).

Definition set_clock (t : Z) (ev : list Event) (w : World) : World :=
  {| now := t; lastRequestTime := lastRequestTime w; upstream := upstream w;
     sent := sent w; trace := trace w ++ ev; apiKey := apiKey w;
     seedDir := seedDir w; indexFile := indexFile w; database := database w |}.

Definition set_lastRequestTime (t : Z) (w : World) : World :=
  {| now := now w; lastRequestTime := t; upstream := upstream w;
     sent := sent w; trace := trace w; apiKey := apiKey w;
     seedDir := seedDir w; indexFile := indexFile w; database := database w |}.

Definition count_request (req : Request) (w : World) : World :=
  {| now := now w; lastRequestTime := lastRequestTime w; upstream := upstream w;
     sent := S (sent w); trace := trace w ++ [Fetched req]; apiKey := apiKey w;
     seedDir := seedDir w; indexFile := indexFile w; database := database w |}.

Definition set_seedDir (d : option (gmap jsstring Store.SeedFile)) (w : World) : World :=
  {| now := now w; lastRequestTime := lastRequestTime w; upstream := upstream w;
     sent := sent w; trace := trace w; apiKey := apiKey w;
     seedDir := d; indexFile := indexFile w; database := database w |}.

Definition set_indexFile (f : option Store.IndexFile) (w : World) : World :=
  {| now := now w; lastRequestTime := lastRequestTime w; upstream := upstream w;
     sent := sent w; trace := trace w; apiKey := apiKey w;
     seedDir := seedDir w; indexFile := f; database := database w |}.

Definition set_database (d : option Store.Db) (w : World) : World :=
  {| now := now w; lastRequestTime := lastRequestTime w; upstream := upstream w;
     sent := sent w; trace := trace w; apiKey := apiKey w;
     seedDir := seedDir w; indexFile := indexFile w; database := d |}.

(** Two states with the same files. *)
Definition sameFiles (w w' : World) : Prop :=
  seedDir w' = seedDir w /\ indexFile w' = indexFile w /\ database w' = database w.

(** The seed stored under [name], if any. *)
Definition seedAt (w : World) (name : jsstring) : option Store.SeedFile :=
  seedDir w ≫= (fun dir => dir !! name).

(** [await new Promise(resolve => setTimeout(resolve, ms))] *)
Definition sleep (ms : Z) : M unit :=
  modify (fun w => set_clock (now w + Z.max 0 ms) [Slept ms] w).

(** [await fetch(url, ...)] *)
Definition fetch (req : Request) : M Response :=
  fun w =>
    match upstream w (sent w) req with
    | NetFail e => (Throw e, count_request req w)
    | Reply r => (Ok r, count_request req w)
    end.

End Sys.

Declare Scope sys_scope.
Delimit Scope sys_scope with sys.
Notation "x <- c ;; k" := (Sys.bind c (fun x => k))
  (at level 100, c at next level, right associativity) : sys_scope.
Notation "c ;;; k" := (Sys.bind c (fun _ => k))
  (at level 100, right associativity) : sys_scope.

(** ** scripts/lib/fetcher.ts *)

Module Fetcher.
Import Js Sys.
Local Open Scope Z_scope.
Local Open Scope sys_scope.

Definition MIN_DELAY_MS : Z := 500.

Definition rateLimit : M unit :=
  now_ <- gets now ;;
  last <- gets lastRequestTime ;;
  let elapsed := now_ - last in
  (if elapsed <? MIN_DELAY_MS then sleep (MIN_DELAY_MS - elapsed) else ret tt) ;;;
  t <- gets now ;;
  modify (set_lastRequestTime t).

Record FetchResult := {
  status : Z;
  body : jsstring;
  contentType : jsstring
}.

Definition resultOf (response : Response) : FetchResult :=
  {| status := resp_status response;
     body := resp_body response;
     contentType := default [] (resp_content_type response) |}.

(** [new Error(`Failed to fetch ${url} after ${maxRetries} retries`)] *)
Definition exhausted (url : jsstring) (maxRetries : Z) : Exn :=
  Error (js "Failed to fetch " ++ url ++ js " after "
         ++ num_to_string maxRetries ++ js " retries").

(** The [for] loop of [fetchWithRateLimit], entered with the current value
    of [attempt]; [turns] is the number of values of [attempt] that still
    satisfy [attempt <= maxRetries].  [maxRetries] is an integer, as in
    every call of the scripts (they all leave it at its default). *)
Fixpoint attemptLoop (turns : nat) (req : Request) (maxRetries attempt : Z)
  : M FetchResult :=
  match turns with
  | O => throw (exhausted (urlOf req) maxRetries)
  | S turns' =>
      response <- fetch req ;;
      if (resp_status response =? 429) || (500 <=? resp_status response)
      then
        if attempt <? maxRetries
        then
          let backoff := 2 ^ (attempt + 1) * 1000 in
          sleep backoff ;;;
          attemptLoop turns' req maxRetries (attempt + 1)
        else ret (resultOf response)
      else ret (resultOf response)
  end.

Definition fetchWithRateLimit (req : Request) (maxRetries : Z) : M FetchResult :=
  rateLimit ;;;
  attemptLoop (Z.to_nat (maxRetries + 1)) req maxRetries 0.

Definition defaultRetries : Z := 3.

Definition fetchLawList (page : Z) (query : option jsstring) : M FetchResult :=
  key <- gets apiKey ;;
  let apiKey := default [] key in
  let params :=
    [ (js "OC", apiKey); (js "target", js "law"); (js "type", js "XML");
      (js "display", js "100"); (js "page", num_to_string page) ] in
  let params :=
    match query with
    | Some q => if nonempty q then params ++ [(js "query", q)] else params
    | None => params
    end in
  fetchWithRateLimit
    {| base := js "https://www.law.go.kr/DRF/lawSearch.do"; params := params |}
    defaultRetries.

Definition fetchLawDetail (lawId : jsstring) : M FetchResult :=
  key <- gets apiKey ;;
  let apiKey := default [] key in
  fetchWithRateLimit
    {| base := js "https://www.law.go.kr/DRF/lawService.do";
       params := [ (js "OC", apiKey); (js "target", js "law");
                   (js "type", js "XML"); (js "ID", lawId) ] |}
    defaultRetries.

(** What the loop leaves in the trace when every answer calls for a retry:
    [n] backed-off retries after the request of turn [attempt]. *)
Fixpoint retryTrace (req : Request) (n : nat) (attempt : Z) : list Event :=
  match n with
  | O => [Fetched req]
  | S n' =>
      Fetched req :: Slept (2 ^ (attempt + 1) * 1000)
        :: retryTrace req n' (attempt + 1)
  end.

Definition delaysOf (events : list Event) : list Z :=
  flat_map (fun ev => match ev with Slept ms => [ms] | Fetched _ => [] end) events.

Definition requestsOf (events : list Event) : list Request :=
  flat_map (fun ev => match ev with Fetched req => [req] | Slept _ => [] end) events.

(** The upstream answers [req] with 429 or 5xx whenever it is asked. *)
Definition alwaysFailing (w : World) (req : Request) : Prop :=
  forall n, exists r,
    upstream w n req = Reply r /\ (resp_status r = 429 \/ 500 <= resp_status r).

End Fetcher.

(** ** scripts/ingest.ts *)

Module Ingest.
Import Js Sys Parser.
Local Open Scope Z_scope.
Local Open Scope sys_scope.

Definition KEY_LAW_QUERIES : list jsstring :=
  [ js "개인정보 보호법"; js "정보통신망"; js "신용정보"; js "전자정부법";
    js "지능정보화 기본법"; js "정보보호"; js "사이버"; js "대한민국헌법" ].

(** The [while (hasMore)] loop for one query; it is left at the latest when
    [page] exceeds 10, so ten turns are enough. *)
Fixpoint paginate `{XMLParser} (turns : nat) (query : jsstring) (page : Z)
    (allEntries : list LawIndexEntry) : M (list LawIndexEntry) :=
  match turns with
  | O => ret allEntries
  | S turns' =>
      result <- Fetcher.fetchLawList page (Some query) ;;
      if negb (Fetcher.status result =? 200) then ret allEntries
      else
        listResult <- lift (parseLawList (Fetcher.body result)) ;;
        let allEntries := allEntries ++ entries listResult in
        let hasMore := hasNextPage listResult in
        let page := page + 1 in
        if 10 <? page then ret allEntries
        else if hasMore then paginate turns' query page allEntries
        else ret allEntries
  end.

Fixpoint forEachM {A S} (body : A -> S -> M S) (l : list A) (st : S) : M S :=
  match l with
  | [] => ret st
  | x :: l' => st' <- body x st ;; forEachM body l' st'
  end.

(** Deduplicate by [lawId]; the state is [(seen, deduped)]. *)
Definition dedupStep (st : gset jsstring * list LawIndexEntry) (entry : LawIndexEntry)
  : gset jsstring * list LawIndexEntry :=
  let '(seen, deduped) := st in
  if negb (bool_decide (lawId entry ∈ seen)) && nonempty (lawId entry)
  then ({[ lawId entry ]} ∪ seen, deduped ++ [entry])
  else st.

Definition discoverLaws `{XMLParser} : M (list LawIndexEntry) :=
  allEntries <- forEachM (fun query all => paginate 10 query 1 all) KEY_LAW_QUERIES [] ;;
  let deduped := snd (fold_left dedupStep allEntries (∅, [])) in
  modify (set_indexFile (Some (Store.IndexJson deduped))) ;;;
  ret deduped.

Record Counters := {
  processed : Z;
  skipped : Z;
  failed : Z;
  totalProvisions : Z
}.

Definition countSkipped (c : Counters) : Counters :=
  {| processed := processed c + 1; skipped := skipped c + 1;
     failed := failed c; totalProvisions := totalProvisions c |}.

Definition countFailed (c : Counters) : Counters :=
  {| processed := processed c; skipped := skipped c;
     failed := failed c + 1; totalProvisions := totalProvisions c |}.

Definition addProvisions (n : Z) (c : Counters) : Counters :=
  {| processed := processed c; skipped := skipped c;
     failed := failed c; totalProvisions := totalProvisions c + n |}.

Definition countProcessed (c : Counters) : Counters :=
  {| processed := processed c + 1; skipped := skipped c;
     failed := failed c; totalProvisions := totalProvisions c |}.

(** The name of a law's seed inside [SEED_DIR] (law ids are plain serial
    numbers, on which [path.join] does nothing more than join). *)
Definition seedFile (law : LawIndexEntry) : jsstring := lawId law ++ js ".json".

Definition existsSync (name : jsstring) : M bool :=
  gets (fun w =>
    match seedDir w with
    | Some dir => bool_decide (is_Some (dir !! name))
    | None => false
    end).

(** [fs.mkdirSync(SEED_DIR, { recursive: true })] *)
Definition mkdirSeedDir : M unit :=
  modify (fun w => set_seedDir (Some (default ∅ (seedDir w))) w).

(** [fs.writeFileSync(seedFile, JSON.stringify(law, null, 2))] *)
Definition writeSeed (name : jsstring) (law : ParsedLaw) : M unit :=
  dir <- gets seedDir ;;
  match dir with
  | None => throw (Error (js "ENOENT: no such file or directory"))
  | Some dir =>
      modify (set_seedDir (Some (<[ name := Store.SeedJson (Store.lawToSeed law) ]> dir)))
  end.

Definition minimalSeed (law : LawIndexEntry) : ParsedLaw :=
  {| id := js "act-" ++ str_or (lawNumber law) (lawId law);
     type := statute;
     law_title := title law;
     title_en := [];
     short_name := ShortText [];
     law_number := lawNumber law;
     status := in_force;
     issued_date := promulgationDate law;
     in_force_date := enforcementDate law;
     law_url := url law;
     provisions := [] |}.

(** One turn of the loop of [fetchAndParseLaws]. *)
Definition processLaw `{XMLParser} (law : LawIndexEntry) (c : Counters) : M Counters :=
  cached <- existsSync (seedFile law) ;;
  if cached then ret (countSkipped c)
  else
    c <- try_catch
           (result <- Fetcher.fetchLawDetail (lawId law) ;;
            if negb (Fetcher.status result =? 200) then
              if Fetcher.status result =? 404 then
                writeSeed (seedFile law) (minimalSeed law) ;;;
                ret (countFailed c)
              else ret (countFailed c)
            else
              parsed <- lift (parseLawXml (Fetcher.body result) (lawId law)) ;;
              writeSeed (seedFile law) parsed ;;;
              ret (addProvisions (arrlen (provisions parsed)) c))
           (fun error => ret (countFailed c)) ;;
    ret (countProcessed c).

(** [limit ? laws.slice(0, limit) : laws] *)
Definition toProcess (laws : list LawIndexEntry) (limit : option Z)
  : list LawIndexEntry :=
  match limit with
  | None => laws
  | Some n =>
      if n =? 0 then laws
      else if 0 <? n then take (Z.to_nat n) laws
      else take (length laws - Z.to_nat (- n)) laws
  end.

Definition noCounts : Counters :=
  {| processed := 0; skipped := 0; failed := 0; totalProvisions := 0 |}.

Definition fetchAndParseLaws `{XMLParser} (laws : list LawIndexEntry) (limit : option Z)
  : M Counters :=
  mkdirSeedDir ;;;
  forEachM processLaw (toProcess laws limit) noCounts.

(** [main], with the exit status of the process: 1 when the run throws. *)
Definition main `{XMLParser} (limit : option Z) (skipDiscovery : bool) : World -> Z * World :=
  fun w =>
    let run :=
      laws <- (cache <- gets indexFile ;;
               match skipDiscovery, cache with
               | true, Some (Store.IndexJson laws) => ret laws
               | true, Some (Store.MalformedIndex _) =>
                   throw (Error (js "Unexpected token in JSON"))
               | _, _ => discoverLaws
               end) ;;
      fetchAndParseLaws laws limit in
    match run w with
    | (Ok _, w') => (0, w')
    | (Throw _, w') => (1, w')
    end.

End Ingest.

(** ** scripts/build-db.ts *)

Module BuildDb.
Import Js Sys Store.
Local Open Scope Z_scope.
Local Open Scope sys_scope.

Definition normalizeWhitespace (text : jsstring) : jsstring :=
  trim (collapse_ws text).

Definition withRef (ref : jsstring) (title : option jsstring) (p : ProvisionSeed)
  : ProvisionSeed :=
  {| provision_ref := ref;
     chapter := chapter p;
     section := section p;
     title := title;
     content := content p;
     content_en := content_en p;
     metadata := metadata p |}.

(** One turn of the loop of [dedupeProvisions] over the map [byRef]. *)
Definition dedupeStep (byRef : list (jsstring * ProvisionSeed)) (provision : ProvisionSeed)
  : list (jsstring * ProvisionSeed) :=
  let ref := trim (provision_ref provision) in
  match assoc ref byRef with
  | None => mapSet ref (withRef ref (title provision) provision) byRef
  | Some existing =>
      let existingContent := normalizeWhitespace (content existing) in
      let incomingContent := normalizeWhitespace (content provision) in
      if strlen existingContent <? strlen incomingContent
      then
        mapSet ref
          (withRef ref
             (match title provision with
              | Some t => Some t
              | None => title existing
              end)
             provision)
          byRef
      else byRef
  end.

Definition dedupeProvisions (provisions : list ProvisionSeed) : list ProvisionSeed :=
  List.map snd (fold_left dedupeStep provisions []).

(** *** Statements *)

Definition constraint (name : string) : Exn :=
  SqliteError (js "SQLITE_CONSTRAINT_" ++ js name).

Definition set_documents (rows : list DocumentRow) (db : Db) : Db :=
  {| legal_documents := rows; legal_provisions := legal_provisions db;
     eu_documents := eu_documents db; eu_references := eu_references db;
     db_metadata := db_metadata db; journal_mode := journal_mode db;
     closed := closed db |}.

Definition set_provisions (rows : list ProvisionRow) (db : Db) : Db :=
  {| legal_documents := legal_documents db; legal_provisions := rows;
     eu_documents := eu_documents db; eu_references := eu_references db;
     db_metadata := db_metadata db; journal_mode := journal_mode db;
     closed := closed db |}.

Definition set_eu_documents (rows : list EuDocumentRow) (db : Db) : Db :=
  {| legal_documents := legal_documents db; legal_provisions := legal_provisions db;
     eu_documents := rows; eu_references := eu_references db;
     db_metadata := db_metadata db; journal_mode := journal_mode db;
     closed := closed db |}.

Definition set_eu_references (rows : list EuReferenceRow) (db : Db) : Db :=
  {| legal_documents := legal_documents db; legal_provisions := legal_provisions db;
     eu_documents := eu_documents db; eu_references := rows;
     db_metadata := db_metadata db; journal_mode := journal_mode db;
     closed := closed db |}.

Definition set_metadata (rows : list (jsstring * MetaValue)) (db : Db) : Db :=
  {| legal_documents := legal_documents db; legal_provisions := legal_provisions db;
     eu_documents := eu_documents db; eu_references := eu_references db;
     db_metadata := rows; journal_mode := journal_mode db;
     closed := closed db |}.

Definition set_journal (mode : JournalMode) (isClosed : bool) (db : Db) : Db :=
  {| legal_documents := legal_documents db; legal_provisions := legal_provisions db;
     eu_documents := eu_documents db; eu_references := eu_references db;
     db_metadata := db_metadata db; journal_mode := mode;
     closed := isClosed |}.

Definition hasDocument (docId : jsstring) (db : Db) : bool :=
  existsb (fun row => str_eqb (d_id row) docId) (legal_documents db).

(** [INSERT INTO legal_documents]: [id] is the primary key. *)
Definition insertDoc (row : DocumentRow) (db : Db) : Result Db :=
  if hasDocument (d_id row) db then Throw (constraint "PRIMARYKEY")
  else Ok (set_documents (legal_documents db ++ [row]) db).

(** [INSERT INTO legal_provisions]: [document_id] references
    [legal_documents], and [(document_id, provision_ref)] is unique. *)
Definition insertProvision (row : ProvisionRow) (db : Db) : Result Db :=
  if existsb (fun r => str_eqb (p_document_id r) (p_document_id row)
                       && str_eqb (p_provision_ref r) (p_provision_ref row))
       (legal_provisions db)
  then Throw (constraint "UNIQUE")
  else if negb (hasDocument (p_document_id row) db)
  then Throw (constraint "FOREIGNKEY")
  else Ok (set_provisions (legal_provisions db ++ [row]) db).

(** [INSERT OR IGNORE INTO eu_documents] *)
Definition insertEuDocument (row : EuDocumentRow) (db : Db) : Db :=
  if existsb (fun r => str_eqb (e_id r) (e_id row)) (eu_documents db) then db
  else set_eu_documents (eu_documents db ++ [row]) db.

(** [INSERT OR IGNORE INTO eu_references]: a row whose [eu_article] is
    [NULL] never collides on the unique index; the foreign keys are
    checked. *)
Definition insertEuReference (row : EuReferenceRow) (db : Db) : Result Db :=
  if match r_eu_article row with
     | Some art =>
         existsb (fun r => str_eqb (r_source_id r) (r_source_id row)
                           && str_eqb (r_eu_document_id r) (r_eu_document_id row)
                           && bool_decide (r_eu_article r = Some art))
           (eu_references db)
     | None => false
     end
  then Ok db
  else if negb (hasDocument (r_document_id row) db)
          || negb (existsb (fun r => str_eqb (e_id r) (r_eu_document_id row))
                     (eu_documents db))
  then Throw (constraint "FOREIGNKEY")
  else Ok (set_eu_references (eu_references db ++ [row]) db).

Definition insertMeta (key : jsstring) (value : MetaValue) (db : Db) : Result Db :=
  if existsb (fun kv => str_eqb (fst kv) key) (db_metadata db)
  then Throw (constraint "PRIMARYKEY")
  else Ok (set_metadata (db_metadata db ++ [(key, value)]) db).

(** [db.transaction(fn)()]: commit when [fn] returns, roll back and
    rethrow when it throws. *)
Definition transaction {A} (fn : Db -> Result (A * Db)) (db : Db) : Result A * Db :=
  match fn db with
  | Ok (a, db') => (Ok a, db')
  | Throw e => (Throw e, db)
  end.

Definition euDocument (id type : string) (year number : Z)
    (title short url description : string) : EuDocumentRow :=
  {| e_id := js id; e_type := js type; e_year := year; e_number := number;
     e_community := js "EU"; e_title := js title; e_short_name := js short;
     e_url_eur_lex := js url; e_description := js description |}.

Definition insertDefaultEuDocuments (db : Db) : Db :=
  let db := insertEuDocument
    (euDocument "regulation:2016/679" "regulation" 2016 679
       "General Data Protection Regulation (GDPR)" "GDPR"
       "https://eur-lex.europa.eu/eli/reg/2016/679/oj"
       "The EU General Data Protection Regulation - primary reference for PIPA alignment analysis") db in
  let db := insertEuDocument
    (euDocument "directive:2022/2555" "directive" 2022 2555
       "Directive on measures for a high common level of cybersecurity (NIS2)" "NIS2"
       "https://eur-lex.europa.eu/eli/dir/2022/2555/oj"
       "The EU NIS2 Directive - reference for Network Act cybersecurity provisions") db in
  insertEuDocument
    (euDocument "regulation:2024/1689" "regulation" 2024 1689
       "Regulation laying down harmonised rules on artificial intelligence (AI Act)" "AI Act"
       "https://eur-lex.europa.eu/eli/reg/2024/1689/oj"
       "The EU AI Act - reference for Framework Act on Intelligent Informatization") db.

Fixpoint runAll {A} (step : A -> Db -> Result Db) (l : list A) (db : Db) : Result Db :=
  match l with
  | [] => Ok db
  | x :: l' =>
      match step x db with
      | Ok db' => runAll step l' db'
      | Throw e => Throw e
      end
  end.

Definition writeMetadata (builtAt : Z) (db : Db) : Result unit * Db :=
  transaction
    (fun db =>
       match runAll (fun kv => insertMeta (fst kv) (snd kv))
               [ (js "tier", MetaText (js "free"));
                 (js "schema_version", MetaText (js "1"));
                 (js "built_at", MetaTime builtAt);
                 (js "builder", MetaText (js "build-db.ts"));
                 (js "jurisdiction", MetaText (js "KR"));
                 (js "source", MetaText (js "law.go.kr"));
                 (js "licence", MetaText (js "Korean Government Open Data")) ] db with
       | Ok db' => Ok (tt, db')
       | Throw e => Throw e
       end) db.

Definition finalizeDb (db : Db) : Db := set_journal DELETE true db.

Record Stats := {
  totalDocs : Z;
  totalProvisions : Z;
  totalEuDocuments : Z;
  totalEuReferences : Z;
  emptyDocs : Z
}.

Definition documentRow (seed : DocumentSeed) : DocumentRow :=
  {| d_id := id seed;
     d_type := type seed;
     d_title := doc_title seed;
     d_title_en := title_en seed;
     d_short_name :=
       match short_name seed with
       | Some (NameText s) => Some s
       | _ => None
       end;
     d_law_number := law_number seed;
     d_status := status seed;
     d_issued_date := issued_date seed;
     d_in_force_date := in_force_date seed;
     d_url := url seed;
     d_description := description seed;
     d_language := default (js "ko") (language seed) |}.

Definition provisionRow (seed : DocumentSeed) (prov : ProvisionSeed) : ProvisionRow :=
  {| p_document_id := id seed;
     p_provision_ref := provision_ref prov;
     p_chapter := chapter prov;
     p_section := section prov;
     p_title := title prov;
     p_content := content prov;
     p_content_en := content_en prov;
     p_language := js "ko";
     p_metadata := metadata prov |}.

Definition gdprReference (seed : DocumentSeed) (now : Z) : EuReferenceRow :=
  {| r_source_type := js "document";
     r_source_id := id seed;
     r_document_id := id seed;
     r_provision_id := None;
     r_eu_document_id := js "regulation:2016/679";
     r_eu_article := None;
     r_reference_type := js "references";
     r_reference_context :=
       js "PIPA is substantially aligned with GDPR. South Korea GDPR adequacy talks ongoing since 2022.";
     r_full_citation := js "Regulation (EU) 2016/679 (GDPR)";
     r_is_primary_implementation := 1;
     r_implementation_status := js "partial";
     r_last_verified := now |}.

Definition mentionsPipa (seed : DocumentSeed) : bool :=
  includes (js "개인정보 보호법") (doc_title seed)
  || match title_en seed with
     | Some en => includes (js "Personal Information Protection") en
     | None => false
     end.

(** [insertDoc.run(seed.id, ..., seed.short_name ?? null, ...)]: an
    argument that is a plain object is taken for a set of named
    parameters, of which the statement has none, so that one of the twelve
    parameters stays unbound and the call raises before it runs. *)
Definition tooFewValues : Exn :=
  RangeError (js "Too few parameter values were provided").

(** Every value of the seed can be bound as a positional parameter. *)
Definition bindable (seed : DocumentSeed) : bool :=
  match short_name seed with
  | Some NameObject => false
  | _ => true
  end.

Definition bindDoc (seed : DocumentSeed) (db : Db) : Result Db :=
  if bindable seed then insertDoc (documentRow seed) db else Throw tooFewValues.

(** The body of the loop over [seedFiles] inside the transaction. *)
Definition loadSeedFile (now : Z) (file : SeedFile) (st : Stats * Db)
  : Result (Stats * Db) :=
  let '(stats, db) := st in
  match file with
  | Malformed _ => Throw (Error (js "Unexpected token in JSON"))
  | SeedJson seed =>
      match bindDoc seed db with
      | Throw e => Throw e
      | Ok db =>
          let docs := totalDocs stats + 1 in
          match provisions seed with
          | None | Some [] =>
              Ok ({| totalDocs := docs; totalProvisions := totalProvisions stats;
                     totalEuDocuments := totalEuDocuments stats;
                     totalEuReferences := totalEuReferences stats;
                     emptyDocs := emptyDocs stats + 1 |}, db)
          | Some provs =>
              let deduped := dedupeProvisions provs in
              match runAll (fun prov => insertProvision (provisionRow seed prov)) deduped db with
              | Throw e => Throw e
              | Ok db =>
                  let provisionsNow := totalProvisions stats + arrlen deduped in
                  let '(refs, db) :=
                    if mentionsPipa seed then
                      match insertEuReference (gdprReference seed now) db with
                      | Ok db' => (totalEuReferences stats + 1, db')
                      | Throw _ => (totalEuReferences stats, db)
                      end
                    else (totalEuReferences stats, db) in
                  Ok ({| totalDocs := docs; totalProvisions := provisionsNow;
                         totalEuDocuments := totalEuDocuments stats;
                         totalEuReferences := refs;
                         emptyDocs := emptyDocs stats |}, db)
              end
          end
      end
  end.

Fixpoint loadSeedFiles (now : Z) (files : list SeedFile) (st : Stats * Db)
  : Result (Stats * Db) :=
  match files with
  | [] => Ok st
  | file :: rest =>
      match loadSeedFile now file st with
      | Ok st' => loadSeedFiles now rest st'
      | Throw e => Throw e
      end
  end.

Definition noStats : Stats :=
  {| totalDocs := 0; totalProvisions := 0; totalEuDocuments := 0;
     totalEuReferences := 0; emptyDocs := 0 |}.

(** [loadAll], the function run inside the transaction. *)
Definition loadAll (now : Z) (files : list SeedFile) (db : Db) : Result (Stats * Db) :=
  let db := insertDefaultEuDocuments db in
  let stats :=
    {| totalDocs := 0; totalProvisions := 0; totalEuDocuments := 3;
       totalEuReferences := 0; emptyDocs := 0 |} in
  loadSeedFiles now files (stats, db).

(** The database right after [db.exec(SCHEMA)]. *)
Definition freshDb : Db :=
  {| legal_documents := []; legal_provisions := []; eu_documents := [];
     eu_references := []; db_metadata := []; journal_mode := WAL;
     closed := false |}.

Definition isSeedName (f : jsstring) : bool :=
  endsWith (js ".json") f && negb (startsWith (js ".") f)
  && negb (startsWith (js "_") f).

(** [fs.readdirSync(SEED_DIR)] filtered to the seed files, each with its
    content (the order is the one the file system lists them in). *)
Definition seedFilesOf (dir : gmap jsstring SeedFile) : list SeedFile :=
  List.map snd (List.filter (fun kv => isSeedName (fst kv)) (map_to_list dir)).

(** [buildDatabase]: writes the database file as it goes, so that a
    failure leaves whatever had been committed. *)
Definition buildDatabase : M Stats :=
  modify (set_database (Some freshDb)) ;;;
  dir <- gets seedDir ;;
  t <- gets now ;;
  let finish (stats : Stats) (db : Db) : M Stats :=
    let '(r, db) := writeMetadata t db in
    match r with
    | Throw e => modify (set_database (Some db)) ;;; throw e
    | Ok _ => modify (set_database (Some (finalizeDb db))) ;;; ret stats
    end in
  match dir with
  | None => finish noStats (insertDefaultEuDocuments freshDb)
  | Some dir =>
      match seedFilesOf dir with
      | [] => finish noStats (insertDefaultEuDocuments freshDb)
      | files =>
          match transaction (loadAll t files) freshDb with
          | (Throw e, db) => modify (set_database (Some db)) ;;; throw e
          | (Ok stats, db) => finish stats db
          end
      end
  end.

End BuildDb.

(** ** scripts/check-updates.ts *)

Module CheckUpdates.
Import Js Sys Parser.
Local Open Scope Z_scope.
Local Open Scope sys_scope.

Definition KEY_QUERIES : list jsstring :=
  [ js "개인정보"; js "정보통신망"; js "신용정보"; js "전자정부"; js "지능정보화" ].

Record UpdateHit := {
  document_id : jsstring;
  hit_title : jsstring;
  remote_updated : jsstring
}.

Definition fetchRecentEntries `{XMLParser} : M (list LawIndexEntry) :=
  Ingest.forEachM
    (fun query entries =>
       result <- Fetcher.fetchLawList 1 (Some query) ;;
       if Fetcher.status result =? 200 then
         parsed <- lift (parseLawList (Fetcher.body result)) ;;
         ret (entries ++ Parser.entries parsed)
       else ret entries)
    KEY_QUERIES [].

Definition documentIdOf (entry : LawIndexEntry) : jsstring :=
  js "act-" ++ str_or (lawNumber entry) (lawId entry).

(** One turn of the loop over [recentEntries]. *)
Definition checkEntry (localDocs : gset jsstring) (newLaws : list UpdateHit)
    (entry : LawIndexEntry) : list UpdateHit :=
  let documentId : jsstring := js "act-" ++ str_or (lawNumber entry) (lawId entry) in
  if negb (bool_decide (documentId ∈ localDocs))
  then newLaws ++ [ {| document_id := documentId;
                       hit_title := title entry;
                       remote_updated := enforcementDate entry |} ]
  else newLaws.

Record Report := {
  newLaws : list UpdateHit;
  exitCode : Z
}.

(** The end of [main], from the comparison loop to the exit status. *)
Definition reportFor (localDocs : gset jsstring) (recentEntries : list LawIndexEntry)
  : Report :=
  let updatedLaws : list UpdateHit := [] in
  let newLaws := fold_left (checkEntry localDocs) recentEntries [] in
  if (0 <? arrlen updatedLaws) || (0 <? arrlen newLaws)
  then {| newLaws := newLaws; exitCode := 1 |}
  else {| newLaws := newLaws; exitCode := 0 |}.

(** [main]; [process.exit(n)] ends it with status [n], and returning
    normally ends the process with status 0. *)
Definition main `{XMLParser} : M Report :=
  store <- gets database ;;
  match store with
  | None => ret {| newLaws := []; exitCode := 2 |}
  | Some db =>
      let localDocs : gset jsstring :=
        list_to_set (List.map Store.d_id (Store.legal_documents db)) in
      cache <- gets indexFile ;;
      localIndex <- match cache with
                    | Some (Store.IndexJson laws) => ret laws
                    | Some (Store.MalformedIndex _) =>
                        throw (Error (js "Unexpected token in JSON"))
                    | None => ret []
                    end ;;
      let localIndexById :=
        fold_left (fun m entry => mapSet (documentIdOf entry) entry m) localIndex [] in
      recentEntries <- fetchRecentEntries ;;
      ret (reportFor localDocs recentEntries)
  end.

(** The hit pushed for an entry that is missing locally. *)
Definition hitOf (entry : LawIndexEntry) : UpdateHit :=
  {| document_id := documentIdOf entry;
     hit_title := title entry;
     remote_updated := enforcementDate entry |}.

(** The ids of the rows of [legal_documents]. *)
Definition storedIds (db : Store.Db) : list jsstring :=
  List.map Store.d_id (Store.legal_documents db).

(** [main().catch(... process.exit(2))] *)
Definition run `{XMLParser} (w : World) : Report * World :=
  match main w with
  | (Ok report, w') => (report, w')
  | (Throw _, w') => ({| newLaws := []; exitCode := 2 |}, w')
  end.

End CheckUpdates.

(** ** The text the parser assembles for an article, as a concatenation

    What the loops of [parseLawXml] append to [fullContent], piece by
    piece and with the parser's own fallbacks ([?? para], [?? item]) and
    tests; [articleFullContent_render] shows that the loops compute it. *)

Module Rendering.
Import Js Parser.
Local Open Scope js_scope.

Definition articleText (article : JsVal) : jsstring :=
  textOr [] (article.["조문내용"] ?? article.["articleContent"]).

Definition articleNumberText (article : JsVal) : jsstring :=
  textOr [] (article.["조문번호"] ?? article.["articleNumber"]).

Definition paragraphText (para : JsVal) : jsstring :=
  textOr [] (para.["항내용"] ?? para.["paragraphContent"] ?? para).

Definition itemText (item : JsVal) : jsstring :=
  textOr [] (item.["호내용"] ?? item.["itemContent"] ?? item).

Definition line (lead text : jsstring) : jsstring :=
  if nonempty (trim text) then lead ++ text else [].

Definition renderItem (item : JsVal) : jsstring :=
  if truthy item then line [newline; space; space] (itemText item) else [].

Definition renderParagraph (para : JsVal) : jsstring :=
  if truthy para
  then line [newline] (paragraphText para)
       ++ concat (List.map renderItem (asList (para.["호"] ?? JArr [])))
  else [].

Definition renderArticle (article : JsVal) : jsstring :=
  articleText article
  ++ concat (List.map renderParagraph (asList (article.["항"] ?? JArr []))).

(** The articles that give rise to a provision. *)
Definition keepsArticle (article : JsVal) : bool :=
  truthy article
  && (nonempty (articleNumberText article) || nonempty (articleText article))
  && nonempty (trim (renderArticle article)).

End Rendering.

(** ** The rendering the specification describes *)

(** "The article's own content is the provision's base content; each child
    paragraph's content is appended on a new line; each paragraph's child
    items are appended on their own indented line."  The content of a
    paragraph is its content element ([항내용]), that of an item its
    content element ([호내용]). *)
Module Flattened.
Import Js Parser.
Local Open Scope js_scope.

Definition articleContent (article : JsVal) : jsstring :=
  textOr [] (article.["조문내용"] ?? article.["articleContent"]).

Definition paragraphContent (para : JsVal) : jsstring :=
  textOr [] (para.["항내용"] ?? para.["paragraphContent"]).

Definition itemContent (item : JsVal) : jsstring :=
  textOr [] (item.["호내용"] ?? item.["itemContent"]).

Definition paragraphsOf (article : JsVal) : list JsVal :=
  asList (article.["항"] ?? JArr []).

Definition itemsOf (para : JsVal) : list JsVal :=
  asList (para.["호"] ?? JArr []).

Definition itemLine (item : JsVal) : jsstring :=
  [newline; space; space] ++ itemContent item.

Definition paragraphLines (para : JsVal) : jsstring :=
  [newline] ++ paragraphContent para ++ concat (List.map itemLine (itemsOf para)).

(** One line for the article, one per paragraph, one indented line per
    item. *)
Definition multiline (article : JsVal) : jsstring :=
  articleContent article ++ concat (List.map paragraphLines (paragraphsOf article)).

(** The articles the description applies to: every paragraph and every
    item is an element that carries its content element. *)
Definition hasContent (node : JsVal) (ko en : string) : bool :=
  negb (nullish (node.[ko] ?? node.[en])).

Definition structuredItem (item : JsVal) : bool :=
  hasContent item "호내용" "itemContent".

Definition structuredParagraph (para : JsVal) : bool :=
  hasContent para "항내용" "paragraphContent"
  && forallb structuredItem (itemsOf para).

Definition structured (article : JsVal) : bool :=
  forallb structuredParagraph (paragraphsOf article).

End Flattened.

(** ** Lines, for comparing the two renderings *)

Module Lines.
Import Js Parser.

(** The lines after the first, each with its lead: a newline, followed by
    two spaces for an item. *)
Definition lead (indented : bool) : jsstring :=
  if indented then [newline; space; space] else [newline].

Definition full (chunk : bool * jsstring) : jsstring :=
  lead (fst chunk) ++ snd chunk.

(** The same line as the parser appends it: not at all when it is
    blank. *)
Definition kept (chunk : bool * jsstring) : jsstring :=
  if nonempty (trim (snd chunk)) then lead (fst chunk) ++ snd chunk else [].

Definition chunksOf (para : JsVal) : list (bool * jsstring) :=
  (false, Flattened.paragraphContent para)
  :: List.map (fun item => (true, Flattened.itemContent item)) (Flattened.itemsOf para).

(** Whether [collapse_from] is inside a run of whitespace after [s]. *)
Fixpoint endState (in_run : bool) (s : jsstring) : bool :=
  match s with
  | [] => in_run
  | c :: s' => endState (is_ws c) s'
  end.

(** Two strings that differ by whitespace at their ends only. *)
Definition sameButTail (x y : jsstring) : Prop :=
  exists z wx wy,
    x = z ++ wx /\ y = z ++ wy
    /\ forallb is_ws wx = true /\ forallb is_ws wy = true.

End Lines.

(** ** Sample data used in examples *)

Module Samples.
Import Js Parser.
Local Open Scope string_scope.

(** A parser that answers every document with the same tree. *)
Definition fixedParser (tree : JsVal) : XMLParser := fun _ => Ok tree.

Definition obj (fields : list (string * JsVal)) : JsVal :=
  JObj (List.map (fun kv => (js (fst kv), snd kv)) fields).

Definition text (s : string) : JsVal := JStr (js s).

(** An article with one paragraph holding one item. *)
Definition article1 : JsVal :=
  obj [ ("조문번호", text "제1조");
        ("조문제목", text "목적");
        ("조문내용", text "A");
        ("항", JArr [ obj [ ("항내용", text "B");
                            ("호", JArr [ obj [ ("호내용", text "C") ] ]) ] ]) ].

(** An article whose only content is blank. *)
Definition blankArticle : JsVal :=
  obj [ ("조문번호", text "제2조"); ("조문내용", text "  ") ].

Definition lawDoc : JsVal :=
  obj [ ("법령명한글", text "개인정보 보호법");
        ("법령번호", text "10465");
        ("공포일자", text "20110329");
        ("조문단위", JArr [ article1; blankArticle ]) ].

(** A listing page that carries [n] entries and announces [total]. *)
Definition listingEntry : JsVal :=
  obj [ ("법령명한글", text "전자정부법"); ("법령일련번호", text "2001");
        ("법령번호", text "17980") ].

Definition listingPage (n : nat) (total : Z) : JsVal :=
  obj [ ("LawSearch",
         obj [ ("totalCnt", JNum total); ("law", JArr (repeat listingEntry n)) ]) ].

(** An upstream that answers every request with the given status. *)
Definition statusOnly (code : Z) : Sys.Response :=
  {| Sys.resp_status := code; Sys.resp_body := []; Sys.resp_content_type := None |}.

Definition world (upstream : nat -> Sys.Request -> Sys.NetReply) : Sys.World :=
  {| Sys.now := 1000; Sys.lastRequestTime := 0; Sys.upstream := upstream;
     Sys.sent := 0; Sys.trace := []; Sys.apiKey := None; Sys.seedDir := None;
     Sys.indexFile := None; Sys.database := None |}.

Definition emptySeedDir (w : Sys.World) : Sys.World :=
  Sys.set_seedDir (Some ∅) w.

Definition entry (name lawId lawNumber : string) : LawIndexEntry :=
  {| title := js name; lawId := js lawId; lawNumber := js lawNumber;
     promulgationDate := js "20110329"; enforcementDate := js "20110930";
     lawType := js "법률"; url := lawUrl (js lawId) |}.

Definition provision (ref : string) (title : option string) (content : string)
  : Store.ProvisionSeed :=
  {| Store.provision_ref := js ref; Store.chapter := None;
     Store.section := js "제1조"; Store.title := js <$> title;
     Store.content := js content; Store.content_en := None;
     Store.metadata := None |}.

Definition documentRow (id : string) : Store.DocumentRow :=
  {| Store.d_id := js id; Store.d_type := statute; Store.d_title := js "법";
     Store.d_title_en := None; Store.d_short_name := None;
     Store.d_law_number := None; Store.d_status := in_force;
     Store.d_issued_date := None; Store.d_in_force_date := None;
     Store.d_url := None; Store.d_description := None;
     Store.d_language := js "ko" |}.

(** A store that holds the documents [act-10465] and [act-17980]. *)
Definition storeXY : Store.Db :=
  {| Store.legal_documents := [ documentRow "act-10465"; documentRow "act-17980" ];
     Store.legal_provisions := []; Store.eu_documents := [];
     Store.eu_references := []; Store.db_metadata := [];
     Store.journal_mode := Store.DELETE; Store.closed := true |}.

(** A listing with two laws: [act-10465] and, without a law number, the
    one whose id is derived from its serial number, [act-3003]. *)
Definition listingXZ : JsVal :=
  obj [ ("LawSearch",
         obj [ ("totalCnt", JNum 2);
               ("law", JArr [ obj [ ("법령명한글", text "개인정보 보호법");
                                    ("법령일련번호", text "1001");
                                    ("법령번호", text "10465") ];
                              obj [ ("법령명한글", text "사이버보안법");
                                    ("법령일련번호", text "3003") ] ]) ]) ].

(** The first request is answered with a page, the later ones with 404. *)
Definition firstThen404 : nat -> Sys.Request -> Sys.NetReply :=
  fun n _ =>
    match n with
    | O => Sys.Reply {| Sys.resp_status := 200; Sys.resp_body := js "<xml/>";
                        Sys.resp_content_type := Some (js "application/xml") |}
    | S _ => Sys.Reply (statusOnly 404)
    end.

Definition someRequest : Sys.Request :=
  {| Sys.base := js "https://www.law.go.kr/DRF/lawService.do"; Sys.params := [] |}.

(** An article with one paragraph that has no content of its own, only
    two items. *)
Definition itemsOnlyArticle : JsVal :=
  obj [ ("조문번호", text "제3조");
        ("조문내용", text "A");
        ("항", JArr [ obj [ ("호", JArr [ obj [ ("호내용", text "X") ];
                                          obj [ ("호내용", text "Y") ] ]) ] ]) ].

(** A full page of 100 entries, the first of which has no title, out of
    250 laws. *)
Definition untitledPage : JsVal :=
  obj [ ("LawSearch",
         obj [ ("totalCnt", JNum 250);
               ("law", JArr (obj [ ("법령일련번호", text "2000") ]
                             :: repeat listingEntry 99)) ]) ].

End Samples.

(** ** The pagination flag, as the specification words it *)

Module Pagination.
Import Js Parser.
Local Open Scope Z_scope.
Local Open Scope js_scope.

(** The entries the page returned, before the parser drops any. *)
Definition returnedEntries (parsed : JsVal) : list JsVal :=
  let root := parsed.["LawSearch"] ?? parsed in
  asList (root.["law"] ?? root.["법령"] ?? JArr []).

(** The rule of the specification: [hasNextPage] is true iff the page
    returned at least one full page's worth of entries and the number of
    entries seen so far, [seenBefore] on earlier pages plus those of this
    page, is below [totalCount]. *)
Definition cumulativeRule (seenBefore : Z) (parsed : JsVal) (r : LawListResult)
  : Prop :=
  hasNextPage r = true <->
  (pageSize <= arrlen (returnedEntries parsed)
   /\ exists total, totalCount r = Some total
                    /\ seenBefore + arrlen (returnedEntries parsed) < total).

(** A returned entry that carries a title. *)
Definition titled (entry : JsVal) : bool :=
  truthy entry
  && nonempty (textOr [] (entry.["법령명한글"] ?? entry.["lawNameKorean"]
                          ?? entry.["법령명"])).

End Pagination.

(** ** Shapes of results *)

Module Shapes.
Import Js Parser.

(** The reference and the display label built from one article number. *)
Definition refShape (p : ParsedProvision) : Prop :=
  exists number,
    provision_ref p = js "art-" ++ number
    /\ section p = js "제" ++ number ++ js "조"
    /\ (forall c, In c number -> is_article_marker c = false)
    /\ no_ws_at_ends number.

(** An index entry as the listing parser builds it: a normalised title
    and the page address made from the serial number. *)
Definition entryShape (e : LawIndexEntry) : Prop :=
  url e = lawUrl (lawId e)
  /\ ws_only_spaces (title e)
  /\ no_ws_pair (title e)
  /\ no_ws_at_ends (title e).

(** The root of a listing and its raw entries, as [parseLawList] reads
    them. *)
Definition listingRoot (parsed : JsVal) : JsVal :=
  (parsed.["LawSearch"] ?? parsed)%js.

Definition rawEntries (parsed : JsVal) : JsVal :=
  ((listingRoot parsed).["law"] ?? (listingRoot parsed).["법령"] ?? JArr [])%js.

Definition rawTotal (parsed : JsVal) : JsVal :=
  ((listingRoot parsed).["totalCnt"] ?? (listingRoot parsed).["전체건수"])%js.

End Shapes.

(** ** The translation fetchers of scripts/lib/fetcher.ts *)

Module Klri.
Import Js Sys Fetcher.

Definition fetchKlriTranslation (lawName : jsstring) : M FetchResult :=
  fetchWithRateLimit
    {| base := js "https://elaw.klri.re.kr/eng_service/lawSearchList.do";
       params := [ (js "searchType", js "0"); (js "query", lawName) ] |}
    defaultRetries.

(** The URL is written out by the script, without any encoding. *)
Definition fetchKlriLawDetail (lawSeq : jsstring) : M FetchResult :=
  fetchWithRateLimit
    {| base := js "https://elaw.klri.re.kr/eng_service/lawView.do?hseq="
               ++ lawSeq ++ js "&lang=ENG";
       params := [] |}
    defaultRetries.

(** An answer that calls for a retry. *)
Definition transient (reply : NetReply) : Prop :=
  exists r, reply = Reply r /\ (resp_status r = 429 \/ 500 <= resp_status r)%Z.

(** A status that is returned at once. *)
Definition settled (r : Response) : Prop :=
  (resp_status r <> 429 /\ resp_status r < 500)%Z.

End Klri.

(** ** Progress of the content phase *)

Module Progress.
Import Js Ingest.
Local Open Scope Z_scope.

(** What [n] turns of the content phase do to the counters. *)
Definition counted (n : Z) (c c' : Counters) : Prop :=
  processed c' = processed c + n
  /\ skipped c <= skipped c' /\ failed c <= failed c'
  /\ totalProvisions c <= totalProvisions c'
  /\ skipped c' + failed c' <= skipped c + failed c + n.

End Progress.

(** ** The map kept by the deduplication *)

Module DedupShape.
Import Js Store BuildDb.
Local Open Scope Z_scope.

(** The length that decides between two provisions with the same ref. *)
Definition size (p : ProvisionSeed) : Z :=
  strlen (normalizeWhitespace (content p)).

(** [p] is represented in the map by a provision that is at least as
    long. *)
Definition covered (byRef : list (jsstring * ProvisionSeed)) (p : ProvisionSeed)
  : Prop :=
  exists q, assoc (trim (provision_ref p)) byRef = Some q /\ size p <= size q.

(** Every value of the map sits under its own trimmed ref and carries the
    text of one of the provisions [seen] so far. *)
Definition keyed (byRef : list (jsstring * ProvisionSeed)) (seen : list ProvisionSeed)
  : Prop :=
  forall k q,
    assoc k byRef = Some q ->
    provision_ref q = k
    /\ exists p, In p seen /\ trim (provision_ref p) = k
                 /\ content q = content p /\ section q = section p.

End DedupShape.

(** ** The rows a seed stands for *)

Module StoreShape.
Import Js Store BuildDb.

(** [seed.provisions], an absent list counting as empty. *)
Definition provisionsOf (seed : DocumentSeed) : list ProvisionSeed :=
  default [] (provisions seed).

(** The rows of [legal_provisions] that loading [seed] inserts. *)
Definition rowsOf (seed : DocumentSeed) : list ProvisionRow :=
  List.map (provisionRow seed) (dedupeProvisions (provisionsOf seed)).

(** Every provision row belongs to a stored document. *)
Definition fkClosed (db : Db) : Prop :=
  forall row, In row (legal_provisions db) ->
    In (p_document_id row) (List.map d_id (legal_documents db)).

Definition metadataKeys : list jsstring :=
  [ js "tier"; js "schema_version"; js "built_at"; js "builder";
    js "jurisdiction"; js "source"; js "licence" ].

Definition euDocumentIds : list jsstring :=
  [ js "regulation:2016/679"; js "directive:2022/2555"; js "regulation:2024/1689" ].

End StoreShape.

(** ** A seed directory with two laws *)

Module RebuildSamples.
Import Js Parser Store.
Local Open Scope string_scope.

Definition seed (id name : string) (provs : option (list ProvisionSeed)) : DocumentSeed :=
  {| id := js id; type := statute; doc_title := js name; title_en := None;
     short_name := None; law_number := None; status := in_force;
     issued_date := None; in_force_date := None; url := None;
     description := None; language := None; provisions := provs |}.

(** A law whose first article was captured twice. *)
Definition seedA : DocumentSeed :=
  seed "act-10465" "개인정보 보호법"
    (Some [ Samples.provision "art-1" None "목적";
            Samples.provision " art-1" (Some "목적") "이 법은 개인정보의 처리에 관한 사항을 정한다";
            Samples.provision "art-2" None "정의" ]).

Definition seedB : DocumentSeed := seed "act-17980" "전자정부법" None.

Definition seedWorld : Sys.World :=
  Sys.set_seedDir
    (Some (<[ js "act-10465.json" := SeedJson seedA ]>
           (<[ js "act-17980.json" := SeedJson seedB ]>
            (<[ js "_index.json" := Malformed (js "[]") ]> ∅))))
    (Samples.world (fun _ _ => Sys.Reply (Samples.statusOnly 404))).

(** A law whose title is the name of the accessor that every plain
    object inherits, as the upstream serves it and as the index lists
    it. *)
Definition protoDoc : JsVal :=
  Samples.obj [ ("법령명한글", Samples.text "__proto__");
                ("법령번호", Samples.text "20000");
                ("조문단위", JArr [ Samples.article1 ]) ].

Definition protoEntry : Parser.LawIndexEntry :=
  Samples.entry "__proto__" "4004" "20000".

End RebuildSamples.

(** * Properties *)

Import Js.
Local Open Scope js_scope.

(** ** Strings *)

Section StringFacts.

Lemma str_eqb_refl (a : jsstring) : str_eqb a a = true.
Proof.
  induction a as [|x a IH]; [reflexivity|].
  cbn [str_eqb]. rewrite N.eqb_refl, IH. reflexivity.
Qed.

Lemma str_eqb_eq (a b : jsstring) : str_eqb a b = true <-> a = b.
Proof.
  split; [|intros <-; apply str_eqb_refl].
  revert b. induction a as [|x a IH]; intros [|y b]; cbn [str_eqb];
    try discriminate; [reflexivity|].
  intros H. apply andb_true_iff in H as [Hx Hab].
  apply N.eqb_eq in Hx. apply IH in Hab. congruence.
Qed.

Lemma remove_non_digits (s : jsstring) :
  remove_chars (fun c => negb (is_digit c)) s = List.filter is_digit s.
Proof.
  unfold remove_chars. induction s as [|c s IH]; simpl; [reflexivity|].
  rewrite IH. destruct (is_digit c); reflexivity.
Qed.

Lemma filter_length_le {A} (p : A -> bool) (l : list A) :
  (length (List.filter p l) <= length l)%nat.
Proof.
  induction l as [|x l IH]; simpl; [lia|]. destruct (p x); simpl; lia.
Qed.

Lemma filter_all {A} (p : A -> bool) (l : list A) :
  forallb p l = true -> List.filter p l = l.
Proof.
  induction l as [|x l IH]; simpl; [reflexivity|].
  intros H. apply andb_true_iff in H as [Hx Hl]. rewrite Hx, IH; auto.
Qed.

Lemma dropWhile_split {A} (p : A -> bool) (l : list A) :
  exists pre, l = pre ++ dropWhile p l /\ forallb p pre = true.
Proof.
  induction l as [|x l [pre [Heq Hall]]]; simpl.
  - exists []. split; reflexivity.
  - destruct (p x) eqn:Hx.
    + exists (x :: pre). simpl. rewrite Hx, Hall. split; [congruence|reflexivity].
    + exists []. split; reflexivity.
Qed.

Lemma dropWhile_head {A} (p : A -> bool) (l : list A) (x : A) :
  head (dropWhile p l) = Some x -> p x = false.
Proof.
  induction l as [|y l IH]; simpl; [discriminate|].
  destruct (p y) eqn:Hy; [exact IH|]. simpl. intros [= <-]. exact Hy.
Qed.

Lemma dropWhile_all {A} (p : A -> bool) (l : list A) :
  forallb p l = true -> dropWhile p l = [].
Proof.
  induction l as [|y l IH]; simpl; [reflexivity|].
  intros H. apply andb_true_iff in H as [Hy Hl]. rewrite Hy. auto.
Qed.

Lemma trimEnd_split (s : jsstring) :
  exists post, s = trimEnd s ++ post /\ forallb is_ws post = true.
Proof.
  unfold trimEnd. destruct (dropWhile_split is_ws (rev s)) as [pre [Heq Hall]].
  exists (rev pre). split.
  - rewrite <- rev_app_distr, <- Heq, rev_involutive. reflexivity.
  - rewrite forallb_forall in *. intros c Hc. apply Hall, in_rev, Hc.
Qed.

(** [trim] cuts a block of whitespace off each end. *)
Lemma trim_split (s : jsstring) :
  exists pre post,
    s = pre ++ trim s ++ post
    /\ forallb is_ws pre = true /\ forallb is_ws post = true.
Proof.
  unfold trim, trimStart.
  destruct (dropWhile_split is_ws s) as [pre [Heq Hpre]].
  destruct (trimEnd_split (dropWhile is_ws s)) as [post [Heq' Hpost]].
  exists pre, post. repeat split; try assumption.
  rewrite <- Heq'. exact Heq.
Qed.

Lemma last_rev_head {A} (l : list A) : last l = head (rev l).
Proof.
  induction l as [|x l IH] using rev_ind; [reflexivity|].
  rewrite last_snoc, rev_app_distr. reflexivity.
Qed.

Lemma trimEnd_last (s : jsstring) (c : char) :
  last (trimEnd s) = Some c -> is_ws c = false.
Proof.
  unfold trimEnd. rewrite last_rev_head, rev_involutive. apply dropWhile_head.
Qed.

Lemma trimEnd_head (s : jsstring) (c : char) :
  head (trimEnd s) = Some c -> head s = Some c.
Proof.
  destruct (trimEnd_split s) as [post [Heq _]].
  destruct (trimEnd s) as [|x t]; [discriminate|].
  intros [= ->]. rewrite Heq. reflexivity.
Qed.

Lemma trim_no_ws_at_ends (s : jsstring) : no_ws_at_ends (trim s).
Proof.
  split; intros c Hc.
  - apply trimEnd_head in Hc. eapply dropWhile_head, Hc.
  - eapply trimEnd_last, Hc.
Qed.

Lemma trim_empty_iff (s : jsstring) :
  nonempty (trim s) = false <-> forallb is_ws s = true.
Proof.
  split.
  - intros Hn. destruct (trim_split s) as [pre [post [Heq [Hpre Hpost]]]].
    destruct (trim s); [|discriminate]. rewrite Heq. simpl.
    rewrite forallb_app, Hpre, Hpost. reflexivity.
  - intros Hall. unfold trim, trimStart. rewrite dropWhile_all by assumption.
    reflexivity.
Qed.

Lemma forallb_false_ex {A} (p : A -> bool) (l : list A) :
  forallb p l = false -> exists x, In x l /\ p x = false.
Proof.
  induction l as [|y l IH]; simpl; [discriminate|].
  destruct (p y) eqn:Hy; simpl.
  - intros H. destruct (IH H) as [x [Hin Hx]]. exists x. auto.
  - intros _. exists y. auto.
Qed.

Lemma trim_nonempty_iff (s : jsstring) :
  nonempty (trim s) = true <-> exists c, In c s /\ is_ws c = false.
Proof.
  split.
  - intros Hn. destruct (forallb is_ws s) eqn:Hall.
    + apply trim_empty_iff in Hall. congruence.
    + apply forallb_false_ex in Hall. exact Hall.
  - intros [c [Hin Hc]]. destruct (nonempty (trim s)) eqn:Hn; [reflexivity|].
    apply trim_empty_iff in Hn. rewrite forallb_forall in Hn.
    apply Hn in Hin. congruence.
Qed.

Lemma sparse_no_ws_pair (s : jsstring) : sparse s -> no_ws_pair s.
Proof.
  intros Hs pre. revert s Hs.
  induction pre as [|x pre IH]; intros s Hs c1 c2 post Heq H1 H2; subst s.
  - simpl in Hs. destruct Hs as [Hs _]. auto.
  - simpl in Hs. destruct (pre ++ c1 :: c2 :: post) as [|y t] eqn:Ht.
    + destruct pre; discriminate.
    + destruct Hs as [_ Hs]. rewrite <- Ht in Hs. eapply IH; eauto.
Qed.

Lemma collapse_from_sparse (b : bool) (s : jsstring) :
  sparse (collapse_from b s)
  /\ (b = true -> forall c, head (collapse_from b s) = Some c -> is_ws c = false).
Proof.
  revert b. induction s as [|c s IH]; intros b; simpl.
  - split; [exact I|discriminate].
  - destruct (is_ws c) eqn:Hc.
    + destruct b.
      * apply IH.
      * split; [|discriminate].
        destruct (IH true) as [Hsp Hhd].
        destruct (collapse_from true s) as [|d t] eqn:Hd; [exact I|].
        split; [|exact Hsp].
        intros _ Hd2. specialize (Hhd eq_refl d eq_refl). congruence.
    + destruct (IH false) as [Hsp _]. split.
      * destruct (collapse_from false s) as [|d t]; [exact I|].
        split; [congruence|exact Hsp].
      * intros _ d [= <-]. exact Hc.
Qed.

Lemma collapse_from_spaces (b : bool) (s : jsstring) :
  ws_only_spaces (collapse_from b s).
Proof.
  revert b. induction s as [|c s IH]; intros b d; simpl; [tauto|].
  destruct (is_ws c) eqn:Hc.
  - destruct b; [apply IH|]. intros [<-|Hin]; [reflexivity|]. eapply IH, Hin.
  - intros [<-|Hin]; [congruence|]. eapply IH, Hin.
Qed.

Lemma collapse_from_keeps (b : bool) (s : jsstring) (c : char) :
  In c s -> is_ws c = false -> In c (collapse_from b s).
Proof.
  revert b. induction s as [|d s IH]; intros b; simpl; [tauto|].
  intros [->|Hin] Hc.
  - rewrite Hc. left. reflexivity.
  - destruct (is_ws d); [destruct b|]; simpl; auto.
Qed.

(** The shape of [text.replace(/\s+/g, ' ').trim()]. *)
Lemma normalised_shape (s : jsstring) :
  let t := trim (collapse_ws s) in
  ws_only_spaces t /\ no_ws_pair t /\ no_ws_at_ends t.
Proof.
  intros t. subst t.
  destruct (trim_split (collapse_ws s)) as [pre [post [Heq _]]].
  repeat split.
  - intros c Hin. apply (collapse_from_spaces false s c).
    fold (collapse_ws s). rewrite Heq. apply in_or_app. right.
    apply in_or_app. left. exact Hin.
  - intros a c1 c2 b Hab.
    apply (sparse_no_ws_pair (collapse_ws s) (proj1 (collapse_from_sparse false s))
             (pre ++ a) c1 c2 (b ++ post)).
    rewrite Heq at 1. rewrite Hab. rewrite <- !app_assoc. reflexivity.
  - apply trim_no_ws_at_ends.
  - apply trim_no_ws_at_ends.
Qed.

Lemma normalised_nonempty (s : jsstring) :
  nonempty (trim s) = true -> nonempty (trim (collapse_ws s)) = true.
Proof.
  rewrite !trim_nonempty_iff. intros [c [Hin Hc]]. exists c. split; [|exact Hc].
  apply collapse_from_keeps; assumption.
Qed.

End StringFacts.

(** ** Flattening of articles *)

Section Flattening.
Import Parser Rendering.

Lemma fold_left_append {A} (f : jsstring -> A -> jsstring) (g : A -> jsstring) :
  (forall acc x, f acc x = acc ++ g x) ->
  forall l acc, fold_left f l acc = acc ++ concat (List.map g l).
Proof.
  intros Hf. induction l as [|x l IH]; intros acc; simpl.
  - rewrite app_nil_r. reflexivity.
  - rewrite IH, Hf, <- app_assoc. reflexivity.
Qed.

Lemma appendItem_render (acc : jsstring) (item : JsVal) :
  appendItem acc item = acc ++ renderItem item.
Proof.
  unfold appendItem, renderItem, line, itemText.
  destruct (truthy item); simpl; [|rewrite app_nil_r; reflexivity].
  destruct (nonempty _); [reflexivity|rewrite app_nil_r; reflexivity].
Qed.

Lemma appendParagraph_render (acc : jsstring) (para : JsVal) :
  appendParagraph acc para = acc ++ renderParagraph para.
Proof.
  unfold appendParagraph, renderParagraph, line, paragraphText.
  destruct (truthy para); simpl; [|rewrite app_nil_r; reflexivity].
  rewrite (fold_left_append appendItem renderItem appendItem_render).
  destruct (nonempty _); simpl; [|reflexivity].
  rewrite <- !app_assoc. reflexivity.
Qed.

(** The loop with its accumulator computes the rendering. *)
Lemma articleFullContent_render (article : JsVal) :
  articleFullContent article = renderArticle article.
Proof.
  unfold articleFullContent, renderArticle, articleText.
  apply (fold_left_append appendParagraph renderParagraph appendParagraph_render).
Qed.

Lemma pushArticle_cases (acc : list ParsedProvision) (article : JsVal) :
  (keepsArticle article = false /\ pushArticle acc article = acc)
  \/ (keepsArticle article = true /\
      exists p, pushArticle acc article = acc ++ [p]
                /\ content p = trim (collapse_ws (renderArticle article))).
Proof.
  unfold pushArticle, keepsArticle.
  rewrite articleFullContent_render.
  fold (articleNumberText article). fold (articleText article).
  destruct (truthy article); simpl; [|left; auto].
  destruct (nonempty (articleNumberText article)),
           (nonempty (articleText article)); simpl;
    try (destruct (nonempty (trim (renderArticle article)));
         [right; split; [reflexivity|eexists; split; reflexivity]|left; auto]).
  left; auto.
Qed.

Lemma pushArticle_fold (l : list JsVal) (acc : list ParsedProvision) :
  exists ps,
    fold_left pushArticle l acc = acc ++ ps
    /\ Forall2 (fun a p => content p = trim (collapse_ws (renderArticle a)))
         (List.filter keepsArticle l) ps.
Proof.
  revert acc. induction l as [|a l IH]; intros acc; simpl.
  - exists []. rewrite app_nil_r. split; [reflexivity|constructor].
  - destruct (pushArticle_cases acc a) as [[Hk Heq]|[Hk [p [Heq Hp]]]];
      rewrite Hk, Heq.
    + apply IH.
    + destruct (IH (acc ++ [p])) as [ps [Hfold Hall]].
      exists (p :: ps). split.
      * rewrite Hfold, <- app_assoc. reflexivity.
      * constructor; assumption.
Qed.

Lemma Forall2_in_right {A B} (R : A -> B -> Prop) (l : list A) (l' : list B) :
  Forall2 R l l' -> forall y, In y l' -> exists x, In x l /\ R x y.
Proof.
  induction 1 as [|x y l l' Hxy _ IH]; intros z; simpl; [tauto|].
  intros [<-|Hin].
  - exists x. auto.
  - destruct (IH z Hin) as [x' [Hx' Hr]]. exists x'. auto.
Qed.

Lemma parseLawXml_inv `{XMLParser} (xml lawId : jsstring) (law : ParsedLaw) :
  parseLawXml xml lawId = Ok law ->
  exists parsed, xml_parse xml = Ok parsed /\ law = lawOf parsed lawId.
Proof.
  unfold parseLawXml. destruct (xml_parse xml) as [parsed|e]; [|discriminate].
  destruct (nullish parsed); [discriminate|].
  destruct (lawRaises parsed); [discriminate|].
  intros [= <-]. exists parsed. auto.
Qed.

Lemma lawOf_provisions_rendered (parsed : JsVal) (lawId : jsstring) :
  Forall2 (fun a p => content p = trim (collapse_ws (renderArticle a)))
    (List.filter keepsArticle (articleListOf (lawRoot parsed)))
    (provisions (lawOf parsed lawId)).
Proof.
  unfold lawOf. cbn [provisions].
  destruct (pushArticle_fold (articleListOf (lawRoot parsed)) []) as [ps [-> Hall]].
  exact Hall.
Qed.

(** *** The parser's rendering and the one of the specification *)

Lemma dropWhile_app_all {A} (p : A -> bool) (a b : list A) :
  forallb p a = true -> dropWhile p (a ++ b) = dropWhile p b.
Proof.
  induction a as [|x a IH]; cbn [app forallb dropWhile]; [reflexivity|].
  intros Hall. apply andb_true_iff in Hall as [-> Hall]. auto.
Qed.

Lemma dropWhile_app_some {A} (p : A -> bool) (a b : list A) :
  forallb p a = false -> dropWhile p (a ++ b) = dropWhile p a ++ b.
Proof.
  induction a as [|x a IH]; cbn [app forallb dropWhile]; [discriminate|].
  destruct (p x); cbn [andb]; [exact IH|reflexivity].
Qed.

Lemma forallb_rev {A} (p : A -> bool) (l : list A) :
  forallb p l = true -> forallb p (rev l) = true.
Proof.
  rewrite !forallb_forall. intros Hall x Hx. apply Hall, in_rev, Hx.
Qed.

(** Whitespace at the end of a string does not survive [trim]. *)
Lemma trim_app_ws (z w : jsstring) :
  forallb is_ws w = true -> trim (z ++ w) = trim z.
Proof.
  intros Hw. unfold trim, trimStart.
  assert (Hend : forall d, trimEnd (d ++ w) = trimEnd d).
  { intros d. unfold trimEnd. rewrite rev_app_distr, dropWhile_app_all;
      [reflexivity|apply forallb_rev, Hw]. }
  destruct (forallb is_ws z) eqn:Hz.
  - rewrite !dropWhile_all; [reflexivity|exact Hz|].
    rewrite forallb_app, Hz, Hw. reflexivity.
  - rewrite dropWhile_app_some by exact Hz. apply Hend.
Qed.

Lemma sameButTail_trim (x y : jsstring) :
  Lines.sameButTail x y -> trim x = trim y.
Proof.
  intros [z [wx [wy [-> [-> [Hx Hy]]]]]]. rewrite !trim_app_ws by assumption.
  reflexivity.
Qed.

Lemma sameButTail_prefix (a x y : jsstring) :
  Lines.sameButTail x y -> Lines.sameButTail (a ++ x) (a ++ y).
Proof.
  intros [z [wx [wy [-> [-> [Hx Hy]]]]]]. exists (a ++ z), wx, wy.
  rewrite !app_assoc. auto.
Qed.

Lemma collapse_from_app (q : bool) (x y : jsstring) :
  collapse_from q (x ++ y)
  = collapse_from q x ++ collapse_from (Lines.endState q x) y.
Proof.
  revert q. induction x as [|c x IH]; intros q; cbn [app collapse_from Lines.endState];
    [reflexivity|].
  destruct (is_ws c).
  - destruct q; rewrite IH; reflexivity.
  - rewrite IH. reflexivity.
Qed.

(** A run of whitespace is replaced by one space, unless it continues a
    run. *)
Lemma collapse_from_run (q : bool) (w : jsstring) :
  forallb is_ws w = true -> w <> [] ->
  collapse_from q w = (if q then [] else [space])
  /\ Lines.endState q w = true.
Proof.
  revert q. induction w as [|c w IH]; intros q Hall Hne; [contradiction|].
  cbn [forallb] in Hall. apply andb_true_iff in Hall as [Hc Hall].
  cbn [collapse_from Lines.endState]. rewrite Hc.
  destruct w as [|c' w'].
  - cbn. destruct q; auto.
  - destruct (IH true Hall) as [Hrun Hend]; [discriminate|].
    rewrite Hrun, Hend. destruct q; auto.
Qed.

Lemma lead_ws (indented : bool) :
  forallb is_ws (Lines.lead indented) = true /\ Lines.lead indented <> [].
Proof. destruct indented; split; try reflexivity; discriminate. Qed.

(** What the parser has appended is empty or starts on a new line. *)
Lemma kept_lines_start (chunks : list (bool * jsstring)) :
  concat (List.map Lines.kept chunks) = []
  \/ exists c rest,
       concat (List.map Lines.kept chunks) = c :: rest /\ is_ws c = true.
Proof.
  induction chunks as [|[indented text] chunks IH]; [left; reflexivity|].
  cbn [List.map concat].
  change (Lines.kept (indented, text))
    with (if nonempty (trim text) then Lines.lead indented ++ text else []).
  destruct (nonempty (trim text)); [|exact IH].
  right. destruct indented; eexists _, _; split; reflexivity.
Qed.

(** Appending every line, or only those that are not blank, gives the same
    text once whitespace is collapsed, up to whitespace at the end. *)
Lemma kept_lines_collapse (chunks : list (bool * jsstring)) :
  forall q,
    Lines.sameButTail
      (collapse_from q (concat (List.map Lines.full chunks)))
      (collapse_from q (concat (List.map Lines.kept chunks))).
Proof.
  induction chunks as [|[indented text] chunks IH]; intros q.
  - exists [], [], []. auto.
  - cbn [List.map concat].
    change (Lines.kept (indented, text))
      with (if nonempty (trim text) then Lines.lead indented ++ text else []).
    change (Lines.full (indented, text)) with (Lines.lead indented ++ text).
    destruct (nonempty (trim text)) eqn:Hblank.
    + rewrite !collapse_from_app. apply sameButTail_prefix, IH.
    + apply trim_empty_iff in Hblank.
      destruct (lead_ws indented) as [Hlead Hne].
      assert (Hrun : forallb is_ws (Lines.lead indented ++ text) = true)
        by (rewrite forallb_app, Hlead, Hblank; reflexivity).
      assert (Hne' : Lines.lead indented ++ text <> []).
      { destruct (Lines.lead indented); [contradiction|discriminate]. }
      destruct (collapse_from_run q _ Hrun Hne') as [Hout Hend].
      rewrite collapse_from_app, Hout, Hend. cbn [app].
      destruct (kept_lines_start chunks) as [Hnil|[c [rest [Hcons Hc]]]].
      * rewrite Hnil. cbn [collapse_from].
        destruct (IH true) as [z [wx [wy [Hx [Hy [Hwx Hwy]]]]]].
        rewrite Hnil in Hy. cbn [collapse_from] in Hy.
        symmetry in Hy. apply app_eq_nil in Hy as [-> ->].
        cbn [app] in Hx. rewrite Hx.
        exists [], ((if q then [] else [space]) ++ wx), [].
        split; [reflexivity|]. split; [reflexivity|]. split; [|reflexivity].
        rewrite forallb_app, Hwx. destruct q; reflexivity.
      * assert (Hsame : collapse_from q (concat (List.map Lines.kept chunks))
                        = (if q then [] else [space])
                          ++ collapse_from true (concat (List.map Lines.kept chunks))).
        { rewrite Hcons. cbn [collapse_from]. rewrite Hc. destruct q; reflexivity. }
        rewrite Hsame. apply sameButTail_prefix, IH.
Qed.

Lemma hasContent_object (node : JsVal) (ko en : string) :
  Flattened.hasContent node ko en = true ->
  truthy node = true
  /\ (node.[ko] ?? node.[en] ?? node)%js = (node.[ko] ?? node.[en])%js.
Proof.
  unfold Flattened.hasContent. intros Hhas. apply negb_true_iff in Hhas.
  split.
  - destruct node; try reflexivity; discriminate.
  - unfold coalesce in *. destruct (nullish (node.[ko])%js); [|reflexivity].
    rewrite Hhas. reflexivity.
Qed.

Lemma renderItem_kept (item : JsVal) :
  Flattened.structuredItem item = true ->
  renderItem item = Lines.kept (true, Flattened.itemContent item).
Proof.
  intros Hitem. destruct (hasContent_object _ _ _ Hitem) as [Htruthy Hown].
  unfold renderItem, itemText, line, Lines.kept, Flattened.itemContent.
  rewrite Htruthy, Hown. reflexivity.
Qed.

Lemma renderParagraph_kept (para : JsVal) :
  Flattened.structuredParagraph para = true ->
  renderParagraph para = concat (List.map Lines.kept (Lines.chunksOf para)).
Proof.
  intros Hpara. apply andb_true_iff in Hpara as [Hown Hitems].
  destruct (hasContent_object _ _ _ Hown) as [Htruthy Heq].
  unfold renderParagraph, paragraphText, line, Lines.chunksOf.
  rewrite Htruthy, Heq. cbn [List.map concat].
  unfold Lines.kept at 1. cbn [fst snd]. fold (Flattened.paragraphContent para).
  fold (Flattened.itemsOf para). f_equal.
  rewrite List.map_map.
  induction (Flattened.itemsOf para) as [|item items IH]; [reflexivity|].
  cbn [forallb] in Hitems. apply andb_true_iff in Hitems as [Hitem Hitems].
  cbn [List.map concat]. rewrite (renderItem_kept item Hitem), (IH Hitems).
  reflexivity.
Qed.

Lemma concat_flat_map {A B} (f : B -> jsstring) (g : A -> list B) (l : list A) :
  concat (List.map f (flat_map g l))
  = concat (List.map (fun x => concat (List.map f (g x))) l).
Proof.
  induction l as [|x l IH]; [reflexivity|].
  cbn [flat_map List.map concat]. rewrite List.map_app, concat_app, IH. reflexivity.
Qed.

Lemma renderArticle_kept (article : JsVal) :
  Flattened.structured article = true ->
  renderArticle article
  = Flattened.articleContent article
    ++ concat (List.map Lines.kept
                 (flat_map Lines.chunksOf (Flattened.paragraphsOf article))).
Proof.
  intros Hall. unfold renderArticle, articleText.
  fold (Flattened.articleContent article). fold (Flattened.paragraphsOf article).
  f_equal. rewrite concat_flat_map. unfold Flattened.structured in Hall.
  induction (Flattened.paragraphsOf article) as [|para paras IH]; [reflexivity|].
  cbn [forallb] in Hall. apply andb_true_iff in Hall as [Hpara Hall].
  cbn [List.map concat]. rewrite (renderParagraph_kept para Hpara), (IH Hall).
  reflexivity.
Qed.

Lemma multiline_full (article : JsVal) :
  Flattened.multiline article
  = Flattened.articleContent article
    ++ concat (List.map Lines.full
                 (flat_map Lines.chunksOf (Flattened.paragraphsOf article))).
Proof.
  unfold Flattened.multiline. f_equal. rewrite concat_flat_map.
  apply f_equal, List.map_ext. intros para.
  unfold Flattened.paragraphLines, Lines.chunksOf. cbn [List.map concat].
  unfold Lines.full at 1. cbn [fst snd Lines.lead].
  rewrite <- app_assoc. do 2 f_equal. rewrite List.map_map. reflexivity.
Qed.

(** On an article whose paragraphs and items carry their content, what
    the parser stores is the collapsed, trimmed form of the lines of the
    specification. *)
Lemma renderArticle_multiline (article : JsVal) :
  Flattened.structured article = true ->
  trim (collapse_ws (renderArticle article))
  = trim (collapse_ws (Flattened.multiline article)).
Proof.
  intros Hall. rewrite (renderArticle_kept article Hall), multiline_full.
  unfold collapse_ws. rewrite !collapse_from_app.
  symmetry. apply sameButTail_trim, sameButTail_prefix, kept_lines_collapse.
Qed.

Example sample_content :
  List.map content (provisions (lawOf Samples.lawDoc (js "1001"))) = [js "A B C"].
Proof. vm_compute. reflexivity. Qed.

(** Outside the articles the amended statement covers: for a paragraph
    without a content element the parser falls back on the paragraph
    itself, whose first text is that of its first item, which is then
    appended a second time as an item. *)
Example paragraph_without_content :
  Flattened.structured Samples.itemsOnlyArticle = false
  /\ trim (collapse_ws (articleFullContent Samples.itemsOnlyArticle)) = js "A X X Y"
  /\ trim (collapse_ws (Flattened.multiline Samples.itemsOnlyArticle)) = js "A X Y".
Proof. vm_compute. repeat split; reflexivity. Qed.

(** C3, as stated, fails: the lines of the sample article are [A], [B]
    and [  C], a string of three lines, whereas the stored content is the
    single line [A B C]. *)
Lemma stored_content_not_multiline :
  let law := lawOf Samples.lawDoc (js "1001") in
  Flattened.structured Samples.article1 = true
  /\ Flattened.multiline Samples.article1
     = js "A" ++ [newline] ++ js "B" ++ [newline; space; space] ++ js "C"
  /\ List.map content (provisions law) = [js "A B C"]
  /\ List.map content (provisions law) <> [Flattened.multiline Samples.article1].
Proof. vm_compute. repeat split; discriminate. Qed.

(** C3 (amended): the provisions of a parsed law correspond, in order, to
    the articles that are kept.  For an article whose paragraphs and items
    each carry their content element, the content of the provision is the
    whitespace-collapsed and trimmed form of the text "article content,
    then each paragraph's content on a new line, then each of its items on
    an indented line"; and the stored string of every provision is a
    single line: it holds no newline. *)
Theorem provision_content_flattened `{XMLParser}
    (xml lawId : jsstring) (law : ParsedLaw) :
  parseLawXml xml lawId = Ok law ->
  exists parsed,
    xml_parse xml = Ok parsed
    /\ Forall2 (fun a p =>
                  (Flattened.structured a = true ->
                   content p = trim (collapse_ws (Flattened.multiline a)))
                  /\ ~ In newline (content p))
         (List.filter keepsArticle (articleListOf (lawRoot parsed)))
         (provisions law).
Proof.
  intros Hparse. destruct (parseLawXml_inv _ _ _ Hparse) as [parsed [Hp ->]].
  exists parsed. split; [exact Hp|].
  eapply Forall2_impl; [apply lawOf_provisions_rendered|].
  intros a p Hcontent. cbv beta in Hcontent. split.
  - intros Hall. rewrite Hcontent. apply renderArticle_multiline, Hall.
  - rewrite Hcontent.
    destruct (normalised_shape (renderArticle a)) as [Hsp _].
    intros Hnl. specialize (Hsp newline Hnl eq_refl). discriminate.
Qed.

Lemma provision_content_flattened_witness :
  exists parsed,
    @xml_parse (Samples.fixedParser Samples.lawDoc) [] = Ok parsed
    /\ Forall2 (fun a p =>
                  (Flattened.structured a = true ->
                   content p = trim (collapse_ws (Flattened.multiline a)))
                  /\ ~ In newline (content p))
         (List.filter keepsArticle (articleListOf (lawRoot parsed)))
         (provisions (lawOf Samples.lawDoc (js "1001"))).
Proof.
  apply (@provision_content_flattened (Samples.fixedParser Samples.lawDoc)
           [] (js "1001")).
  reflexivity.
Defined.

(** C10: every provision returned by [parseLawXml] has a content that is
    not empty, holds no newline, holds no two consecutive whitespace
    characters and neither starts nor ends with whitespace; and an article
    whose assembled content is blank adds no provision. *)
Theorem provisions_content_normalised `{XMLParser}
    (xml lawId : jsstring) (law : ParsedLaw) :
  parseLawXml xml lawId = Ok law ->
  (forall p, In p (provisions law) ->
     nonempty (content p) = true
     /\ ~ In newline (content p)
     /\ no_ws_pair (content p)
     /\ no_ws_at_ends (content p))
  /\ (forall acc article,
       nonempty (trim (articleFullContent article)) = false ->
       pushArticle acc article = acc).
Proof.
  intros Hparse. split.
  - destruct (parseLawXml_inv _ _ _ Hparse) as [parsed [_ ->]].
    pose proof (lawOf_provisions_rendered parsed lawId) as Hall.
    intros p Hin.
    destruct (Forall2_in_right _ _ _ Hall p Hin) as [a [Ha Hp]].
    apply filter_In in Ha as [_ Hk].
    unfold keepsArticle in Hk. apply andb_true_iff in Hk as [_ Hk].
    rewrite Hp.
    destruct (normalised_shape (renderArticle a)) as [Hsp [Hpair Hends]].
    repeat split; try assumption; try apply Hends.
    + apply normalised_nonempty, Hk.
    + intros Hnl. specialize (Hsp newline Hnl eq_refl). discriminate.
  - intros acc article Hblank.
    destruct (pushArticle_cases acc article) as [[_ Heq]|[Hk _]]; [exact Heq|].
    unfold keepsArticle in Hk. apply andb_true_iff in Hk as [_ Hk].
    rewrite <- articleFullContent_render in Hk. congruence.
Qed.

Lemma provisions_content_normalised_witness :
  let law := lawOf Samples.lawDoc (js "1001") in
  (forall p, In p (provisions law) ->
     nonempty (content p) = true
     /\ ~ In newline (content p)
     /\ no_ws_pair (content p)
     /\ no_ws_at_ends (content p))
  /\ pushArticle [] Samples.blankArticle = [].
Proof.
  intros law.
  destruct (@provisions_content_normalised (Samples.fixedParser Samples.lawDoc)
              [] (js "1001") law eq_refl) as [Hshape Hblank].
  split; [exact Hshape|].
  apply Hblank. reflexivity.
Defined.

End Flattening.

(** ** Steps of the state-and-exception monad *)

Section MonadFacts.
Import Sys.

Lemma bind_gets {A B} (f : World -> A) (k : A -> M B) (w : World) :
  bind (gets f) k w = k (f w) w.
Proof. reflexivity. Qed.

Lemma bind_ret {A B} (a : A) (k : A -> M B) (w : World) :
  bind (ret a) k w = k a w.
Proof. reflexivity. Qed.

Lemma bind_throw {A B} (e : Exn) (k : A -> M B) (w : World) :
  bind (throw e) k w = (Throw e, w).
Proof. reflexivity. Qed.

Lemma bind_modify {B} (f : World -> World) (k : unit -> M B) (w : World) :
  bind (modify f) k w = k tt (f w).
Proof. reflexivity. Qed.

Lemma bind_run {A B} (c : M A) (k : A -> M B) (w : World) :
  bind c k w = match c w with
               | (Ok a, w') => k a w'
               | (Throw e, w') => (Throw e, w')
               end.
Proof. reflexivity. Qed.


End MonadFacts.

(** ** Retries of the fetch client *)

Section FetcherFacts.
Import Sys Fetcher.
Local Open Scope Z_scope.

Lemma rateLimit_effect (w : World) :
  exists w' pause,
    rateLimit w = (Ok tt, w')
    /\ upstream w' = upstream w /\ sent w' = sent w
    /\ trace w' = trace w ++ pause
    /\ (pause = [] \/ exists ms, pause = [Slept ms]).
Proof.
  unfold rateLimit, bind, gets, modify, sleep, ret. cbn.
  destruct (now w - lastRequestTime w <? MIN_DELAY_MS); cbn.
  - eexists _, _. repeat split; eauto.
  - eexists _, []. repeat split; [rewrite app_nil_r; reflexivity|auto].
Qed.

(** With an upstream that only answers 429 or 5xx, the loop started at
    [attempt] with [k] retries left sends [k + 1] requests, backs off
    between them and then returns the last answer. *)
Lemma attemptLoop_all_failing (req : Request) (maxRetries : Z) (k : nat) :
  forall (attempt : Z) (w : World),
    alwaysFailing w req ->
    attempt + Z.of_nat k = maxRetries ->
    exists r w',
      attemptLoop (S k) req maxRetries attempt w = (Ok (resultOf r), w')
      /\ (resp_status r = 429 \/ 500 <= resp_status r)
      /\ sent w' = (sent w + S k)%nat
      /\ trace w' = trace w ++ retryTrace req k attempt.
Proof.
  induction k as [|k IH]; intros attempt w Hfail Hk.
  - destruct (Hfail (sent w)) as [r [Hr Hst]].
    exists r, (count_request req w).
    cbn [attemptLoop]. unfold bind, fetch. rewrite Hr.
    assert (Hretry : ((resp_status r =? 429) || (500 <=? resp_status r)) = true).
    { apply orb_true_iff. destruct Hst; [left; lia|right; lia]. }
    rewrite Hretry.
    assert (Hlast : (attempt <? maxRetries) = false) by lia.
    rewrite Hlast. unfold ret. cbn. repeat split; auto. lia.
  - destruct (Hfail (sent w)) as [r [Hr Hst]].
    cbn [attemptLoop]. unfold bind at 1. unfold fetch. rewrite Hr.
    assert (Hretry : ((resp_status r =? 429) || (500 <=? resp_status r)) = true).
    { apply orb_true_iff. destruct Hst; [left; lia|right; lia]. }
    rewrite Hretry.
    assert (Hmore : (attempt <? maxRetries) = true) by lia.
    rewrite Hmore. unfold bind at 1. unfold sleep, modify.
    set (w1 := set_clock _ _ _).
    destruct (IH (attempt + 1) w1) as [r' [w' [Hrun [Hst' [Hsent Htrace]]]]].
    + intros n. apply Hfail.
    + lia.
    + exists r', w'. split; [exact Hrun|]. split; [exact Hst'|]. split.
      * rewrite Hsent. subst w1. cbn. lia.
      * rewrite Htrace. subst w1. cbn [trace set_clock count_request retryTrace].
        rewrite <- !app_assoc. reflexivity.
Qed.

(** Whatever the upstream answers, the loop entered with
    [attempt <= maxRetries] raises only what [fetch] itself raised: the
    [throw] placed after the loop is never reached. *)
Lemma attemptLoop_throws_only_rejections (req : Request) (maxRetries : Z) (k : nat) :
  forall (attempt : Z) (w w' : World) (e : Exn),
    attempt + Z.of_nat k = maxRetries ->
    attemptLoop (S k) req maxRetries attempt w = (Throw e, w') ->
    exists n, upstream w n req = NetFail e.
Proof.
  induction k as [|k IH]; intros attempt w w' e Hk; cbn [attemptLoop];
    rewrite bind_run; unfold fetch;
    destruct (upstream w (sent w) req) as [e0|response] eqn:Hup.
  - intros [= <- _]. eauto.
  - destruct ((resp_status response =? 429) || (500 <=? resp_status response)).
    + assert (Hlast : (attempt <? maxRetries) = false) by lia.
      rewrite Hlast. discriminate.
    + discriminate.
  - intros [= <- _]. eauto.
  - destruct ((resp_status response =? 429) || (500 <=? resp_status response));
      [|discriminate].
    assert (Hmore : (attempt <? maxRetries) = true) by lia.
    rewrite Hmore, bind_run. unfold sleep, modify.
    intros Hrun. apply IH in Hrun; [|lia]. exact Hrun.
Qed.

Lemma retryTrace_requests (req : Request) (n : nat) (attempt : Z) :
  requestsOf (retryTrace req n attempt) = repeat req (S n).
Proof.
  revert attempt. induction n as [|n IH]; intros attempt; [reflexivity|].
  cbn [retryTrace]. unfold requestsOf in *. cbn [flat_map app].
  rewrite IH. reflexivity.
Qed.

Lemma retryTrace_delays (req : Request) (n : nat) (attempt : Z) :
  delaysOf (retryTrace req n attempt)
  = List.map (fun i => 2 ^ (attempt + Z.of_nat i + 1) * 1000) (seq 0 n).
Proof.
  revert attempt. induction n as [|n IH]; intros attempt; [reflexivity|].
  cbn [retryTrace]. unfold delaysOf in *. cbn [flat_map app seq List.map].
  rewrite IH, <- seq_shift, List.map_map. f_equal.
  - do 2 f_equal. lia.
  - apply List.map_ext. intros i. do 2 f_equal. lia.
Qed.

(** The delays are consecutive powers of two, in seconds: each is twice
    the one before. *)
Lemma retryTrace_delays_increasing (req : Request) (n : nat) (attempt : Z) :
  0 <= attempt ->
  forall i d d',
    delaysOf (retryTrace req n attempt) !! i = Some d ->
    delaysOf (retryTrace req n attempt) !! S i = Some d' ->
    d' = 2 * d /\ d < d'.
Proof.
  intros Hpos i d d'. rewrite retryTrace_delays.
  rewrite !list_lookup_fmap.
  intros Hd Hd'.
  destruct (seq 0 n !! i) as [a|] eqn:Ha; [|discriminate].
  destruct (seq 0 n !! S i) as [b|] eqn:Hb; [|discriminate].
  apply lookup_seq in Ha as [-> _]. apply lookup_seq in Hb as [-> _].
  cbn [fmap option_fmap option_map Nat.add] in Hd, Hd'.
  injection Hd as <-. injection Hd' as <-.
  replace (attempt + Z.of_nat (S i) + 1) with (Z.succ (attempt + Z.of_nat i + 1)) by lia.
  rewrite Z.pow_succ_r by lia.
  assert (0 < 2 ^ (attempt + Z.of_nat i + 1)) by (apply Z.pow_pos_nonneg; lia).
  lia.
Qed.

Example retry_sample :
  let w := Samples.world (fun _ _ => Reply (Samples.statusOnly 500)) in
  let '(r, w') := fetchWithRateLimit Samples.someRequest 3 w in
  (status <$> match r with Ok x => Some x | Throw _ => None end) = Some 500
  /\ sent w' = 4%nat
  /\ delaysOf (trace w') = [2000; 4000; 8000].
Proof. vm_compute. repeat split; reflexivity. Qed.

(** C1: what the client does when every answer is 429 or 5xx.  It sends
    exactly [maxRetries + 1] requests, waits [2^(attempt+1)] seconds after
    the request of each turn but the last, and then returns the last
    failing response as a normal result instead of raising. *)
Theorem fetchWithRateLimit_exhausted_returns
    (req : Request) (maxRetries : Z) (w : World) :
  0 <= maxRetries ->
  alwaysFailing w req ->
  exists r w' pause,
    fetchWithRateLimit req maxRetries w = (Ok (resultOf r), w')
    /\ (resp_status r = 429 \/ 500 <= resp_status r)
    /\ sent w' = (sent w + Z.to_nat (maxRetries + 1))%nat
    /\ trace w' = trace w ++ pause ++ retryTrace req (Z.to_nat maxRetries) 0
    /\ (pause = [] \/ exists ms, pause = [Slept ms])
    /\ delaysOf (retryTrace req (Z.to_nat maxRetries) 0)
       = List.map (fun i => 2 ^ (Z.of_nat i + 1) * 1000) (seq 0 (Z.to_nat maxRetries)).
Proof.
  intros Hpos Hfail.
  destruct (rateLimit_effect w) as [w1 [pause [Hrl [Hup [Hsent [Htrace Hpause]]]]]].
  assert (Hfail1 : alwaysFailing w1 req).
  { intros n. unfold alwaysFailing in Hfail. rewrite Hup. apply Hfail. }
  destruct (attemptLoop_all_failing req maxRetries (Z.to_nat maxRetries) 0 w1 Hfail1)
    as [r [w' [Hrun [Hst [Hsent' Htrace']]]]]; [lia|].
  exists r, w', pause.
  unfold fetchWithRateLimit, bind. rewrite Hrl.
  replace (Z.to_nat (maxRetries + 1)) with (S (Z.to_nat maxRetries)) by lia.
  repeat split; try assumption.
  - rewrite Hsent', Hsent. reflexivity.
  - rewrite Htrace', Htrace, <- app_assoc. reflexivity.
  - rewrite retryTrace_delays. apply List.map_ext. intros i. reflexivity.
Qed.

Lemma fetchWithRateLimit_exhausted_returns_witness :
  let w := Samples.world (fun _ _ => Reply (Samples.statusOnly 500)) in
  exists r w' pause,
    fetchWithRateLimit Samples.someRequest 3 w = (Ok (resultOf r), w')
    /\ (resp_status r = 429 \/ 500 <= resp_status r)
    /\ sent w' = (sent w + Z.to_nat (3 + 1))%nat
    /\ trace w' = trace w ++ pause ++ retryTrace Samples.someRequest (Z.to_nat 3) 0
    /\ (pause = [] \/ exists ms, pause = [Slept ms])
    /\ delaysOf (retryTrace Samples.someRequest (Z.to_nat 3) 0)
       = List.map (fun i => 2 ^ (Z.of_nat i + 1) * 1000) (seq 0 (Z.to_nat 3)).
Proof.
  intros w.
  apply (fetchWithRateLimit_exhausted_returns Samples.someRequest 3 w).
  - lia.
  - intros n. exists (Samples.statusOnly 500). split; [reflexivity|right; cbn; lia].
Defined.

End FetcherFacts.

(** ** The content phase of ingestion *)

Section ContentPhase.
Import Sys Parser.
Local Open Scope Z_scope.

Lemma attemptLoop_frame (req : Request) (maxRetries : Z) (turns : nat) :
  forall attempt w r w',
    Fetcher.attemptLoop turns req maxRetries attempt w = (r, w') -> sameFiles w w'.
Proof.
  induction turns as [|turns IH]; intros attempt w r w'; cbn [Fetcher.attemptLoop].
  - unfold throw. intros [= _ <-]. repeat split.
  - unfold bind at 1. unfold fetch.
    destruct (upstream w (sent w) req) as [e|response].
    + intros [= _ <-]. repeat split.
    + destruct ((resp_status response =? 429) || (500 <=? resp_status response));
        [destruct (attempt <? maxRetries)|].
      * unfold bind at 1. unfold sleep, modify. intros Hrun.
        apply IH in Hrun. exact Hrun.
      * unfold ret. intros [= _ <-]. repeat split.
      * unfold ret. intros [= _ <-]. repeat split.
Qed.

Lemma fetchLawDetail_frame (lawId : jsstring) (w : World) r w' :
  Fetcher.fetchLawDetail lawId w = (r, w') -> sameFiles w w'.
Proof.
  unfold Fetcher.fetchLawDetail, Fetcher.fetchWithRateLimit.
  unfold bind at 1. unfold gets at 1. unfold bind at 1.
  destruct (rateLimit_effect w) as [w1 [pause [Hrl _]]]. rewrite Hrl.
  intros Hrun. apply attemptLoop_frame in Hrun.
  assert (Hw1 : sameFiles w w1).
  { revert Hrl. unfold Fetcher.rateLimit, bind, gets, modify, sleep, ret. cbn.
    destruct (now w - lastRequestTime w <? Fetcher.MIN_DELAY_MS);
      intros [= <-]; repeat split. }
  destruct Hrun as [H1 [H2 H3]]. destruct Hw1 as [H4 [H5 H6]].
  repeat split; congruence.
Qed.

(** C6: the turn of the content phase for a law that has no seed yet.
    It always counts the law as processed.  A 404 writes the stub (no
    provisions, [in_force]) and counts a failure; any other status but
    200, an exception while fetching and an exception while parsing write
    nothing and count a failure; a parsed 200 writes the full seed. *)
Theorem processLaw_outcomes `{XMLParser}
    (law : LawIndexEntry) (c : Ingest.Counters) (w w1 : World)
    (dir : gmap jsstring Store.SeedFile) (r : Result Fetcher.FetchResult) :
  seedDir w = Some dir ->
  dir !! Ingest.seedFile law = None ->
  Fetcher.fetchLawDetail (lawId law) w = (r, w1) ->
  exists c' w',
    Ingest.processLaw law c w = (Ok c', w')
    /\ Ingest.processed c' = Ingest.processed c + 1
    /\ Ingest.skipped c' = Ingest.skipped c
    /\ match r with
       | Throw _ => seedDir w' = Some dir /\ Ingest.failed c' = Ingest.failed c + 1
       | Ok result =>
           if Fetcher.status result =? 404 then
             seedDir w' =
               Some (<[ Ingest.seedFile law :=
                          Store.SeedJson (Store.lawToSeed (Ingest.minimalSeed law)) ]> dir)
             /\ Store.provisions (Store.lawToSeed (Ingest.minimalSeed law)) = Some []
             /\ Store.status (Store.lawToSeed (Ingest.minimalSeed law)) = in_force
             /\ Ingest.failed c' = Ingest.failed c + 1
           else if Fetcher.status result =? 200 then
             match parseLawXml (Fetcher.body result) (lawId law) with
             | Throw _ =>
                 seedDir w' = Some dir /\ Ingest.failed c' = Ingest.failed c + 1
             | Ok parsed =>
                 seedDir w' =
                   Some (<[ Ingest.seedFile law :=
                              Store.SeedJson (Store.lawToSeed parsed) ]> dir)
                 /\ Ingest.failed c' = Ingest.failed c
             end
           else seedDir w' = Some dir /\ Ingest.failed c' = Ingest.failed c + 1
       end.
Proof.
  intros Hdir Hnone Hfetch.
  destruct (fetchLawDetail_frame _ _ _ _ Hfetch) as [Hdir1 _].
  rewrite Hdir in Hdir1.
  unfold Ingest.processLaw.
  unfold bind at 1. unfold Ingest.existsSync, gets at 1. rewrite Hdir.
  rewrite bool_decide_eq_false_2 by (rewrite Hnone; intros [x Hx]; discriminate).
  unfold bind at 1. unfold try_catch. unfold bind at 1. rewrite Hfetch.
  destruct r as [result|e].
  - destruct (Fetcher.status result =? 404) eqn:H404.
    + assert (H200 : (Fetcher.status result =? 200) = false) by lia.
      rewrite H200. cbn [negb].
      unfold Ingest.writeSeed, bind, gets, modify, ret. rewrite Hdir1. cbn.
      eexists _, _. repeat split.
    + destruct (Fetcher.status result =? 200) eqn:H200; cbn [negb].
      * unfold bind at 1. unfold lift.
        destruct (parseLawXml (Fetcher.body result) (lawId law)) as [parsed|e].
        -- unfold Ingest.writeSeed, bind, gets, modify, ret. rewrite Hdir1. cbn.
           eexists _, _. repeat split.
        -- unfold ret. eexists _, _. repeat split; cbn; auto.
      * unfold ret. eexists _, _. repeat split; cbn; auto.
  - unfold ret. eexists _, _. repeat split; cbn; auto.
Qed.

Lemma processLaw_outcomes_witness :
  let P := Samples.fixedParser Samples.lawDoc in
  let law := Samples.entry "개인정보 보호법" "1001" "10465" in
  let w := Samples.emptySeedDir
             (Samples.world (fun _ _ => Reply (Samples.statusOnly 404))) in
  exists c' w',
    @Ingest.processLaw P law Ingest.noCounts w = (Ok c', w')
    /\ Ingest.processed c' = 1 /\ Ingest.failed c' = 1
    /\ seedDir w' =
         Some {[ Ingest.seedFile law :=
                   Store.SeedJson (Store.lawToSeed (Ingest.minimalSeed law)) ]}.
Proof.
  intros P law w.
  destruct (@processLaw_outcomes P law Ingest.noCounts w
              (snd (Fetcher.fetchLawDetail (lawId law) w)) ∅
              (fst (Fetcher.fetchLawDetail (lawId law) w)))
    as [c' [w' [Hrun [Hproc [_ Hcase]]]]].
  - reflexivity.
  - apply lookup_empty.
  - apply surjective_pairing.
  - exists c', w'. split; [exact Hrun|]. split; [exact Hproc|].
    assert (Hfst : fst (Fetcher.fetchLawDetail (lawId law) w)
                   = Ok (Fetcher.resultOf (Samples.statusOnly 404)))
      by (vm_compute; reflexivity).
    rewrite Hfst in Hcase. cbn in Hcase.
    destruct Hcase as [Hseed [_ [_ Hfailed]]]. split; [exact Hfailed|].
    rewrite Hseed. rewrite insert_empty. reflexivity.
Defined.

End ContentPhase.

(** ** Deduplication of provisions *)

Section Dedup.
Import Store BuildDb.
Local Open Scope Z_scope.

(** Two provisions with the same trimmed ref: the later one replaces the
    earlier one iff its normalised content is strictly longer, and then
    takes the earlier title when it has none; otherwise the earlier one is
    kept as it is. *)
Lemma dedupeProvisions_pair (p1 p2 : ProvisionSeed) :
  trim (provision_ref p1) = trim (provision_ref p2) ->
  dedupeProvisions [p1; p2] =
    [ if strlen (normalizeWhitespace (content p1))
           <? strlen (normalizeWhitespace (content p2))
      then withRef (trim (provision_ref p2))
             (match title p2 with Some t => Some t | None => title p1 end) p2
      else withRef (trim (provision_ref p1)) (title p1) p1 ].
Proof.
  intros Href. unfold dedupeProvisions. cbn [fold_left].
  unfold dedupeStep at 2. cbn [assoc mapSet].
  unfold dedupeStep. rewrite <- Href. cbn [assoc].
  rewrite str_eqb_refl. cbn [withRef content title].
  destruct (_ <? _); cbn [mapSet]; [rewrite str_eqb_refl|]; reflexivity.
Qed.

Example dedupe_longer_wins :
  dedupeProvisions
    [ Samples.provision "art-1" (Some "T"%string) "A";
      Samples.provision " art-1" None "ABCDE" ]
  = [ Samples.provision "art-1" (Some "T"%string) "ABCDE" ].
Proof. vm_compute. reflexivity. Qed.

Example dedupe_tie_keeps_first :
  dedupeProvisions
    [ Samples.provision "art-1" (Some "T"%string) "ABC";
      Samples.provision "art-1" (Some "U"%string) "XYZ" ]
  = [ Samples.provision "art-1" (Some "T"%string) "ABC" ].
Proof. vm_compute. reflexivity. Qed.

(** C5: the run on which the code departs from the rule.  The first
    provision has the longer content and no title, the second one has a
    title; the first is kept, and its title stays absent. *)
Theorem dedupe_kept_first_gets_no_title :
  let first := Samples.provision "art-1" None "ABCDE" in
  let second := Samples.provision "art-1" (Some "T"%string) "A" in
  dedupeProvisions [first; second] = [first]
  /\ List.map title (dedupeProvisions [first; second]) = [None]
  /\ title second = Some (js "T").
Proof. vm_compute. repeat split; reflexivity. Qed.

End Dedup.

(** ** The update checker *)

Section UpdateChecker.
Import Sys Parser CheckUpdates.
Local Open Scope Z_scope.

Lemma checkEntry_fold (localDocs : gset jsstring) (recent : list LawIndexEntry) :
  forall acc,
    fold_left (checkEntry localDocs) recent acc
    = acc ++ List.map hitOf
               (List.filter (fun e => negb (bool_decide (documentIdOf e ∈ localDocs)))
                  recent).
Proof.
  induction recent as [|e recent IH]; intros acc; cbn [fold_left List.filter].
  - rewrite app_nil_r. reflexivity.
  - rewrite IH. unfold checkEntry. fold (documentIdOf e).
    destruct (bool_decide (documentIdOf e ∈ localDocs)); cbn [negb List.map];
      [reflexivity|].
    rewrite <- app_assoc. reflexivity.
Qed.

Lemma filter_nil_iff {A} (p : A -> bool) (l : list A) :
  List.filter p l = [] <-> forall x, In x l -> p x = false.
Proof.
  induction l as [|y l IH]; cbn [List.filter]; [split; [intros _ x []|reflexivity]|].
  destruct (p y) eqn:Hy.
  - split; [discriminate|]. intros Hall. specialize (Hall y (or_introl eq_refl)).
    congruence.
  - rewrite IH. split.
    + intros Hall x [<-|Hin]; auto.
    + intros Hall x Hin. apply Hall. right. exact Hin.
Qed.

Lemma reportFor_spec (db : Store.Db) (recent : list LawIndexEntry) :
  let report := reportFor (list_to_set (storedIds db)) recent in
  newLaws report =
    List.map hitOf
      (List.filter (fun e => negb (bool_decide (documentIdOf e ∈ storedIds db))) recent)
  /\ (exitCode report = 1 <->
        exists e, In e recent /\ documentIdOf e ∉ storedIds db)
  /\ (exitCode report = 0 <->
        forall e, In e recent -> documentIdOf e ∈ storedIds db).
Proof.
  intros report. subst report. unfold reportFor.
  rewrite checkEntry_fold. cbn [app].
  assert (Hfilter :
    List.filter (fun e => negb (bool_decide (documentIdOf e ∈
                     (list_to_set (storedIds db) : gset jsstring)))) recent
    = List.filter (fun e => negb (bool_decide (documentIdOf e ∈ storedIds db))) recent).
  { apply List.filter_ext. intros e. f_equal. apply bool_decide_ext.
    rewrite elem_of_list_to_set. reflexivity. }
  rewrite Hfilter.
  set (missing := List.filter _ recent).
  assert (Hmissing : missing = [] <->
            forall e, In e recent -> documentIdOf e ∈ storedIds db).
  { subst missing. rewrite filter_nil_iff. split; intros Hall e Hin.
    - specialize (Hall e Hin). apply negb_false_iff in Hall.
      apply bool_decide_eq_true_1 in Hall. exact Hall.
    - apply negb_false_iff, bool_decide_eq_true_2. auto. }
  destruct missing as [|m rest] eqn:Hm.
  - cbn. split; [reflexivity|]. split.
    + split; [discriminate|]. intros [e [Hin Hno]].
      exfalso. apply Hno. apply (proj1 Hmissing eq_refl). exact Hin.
    + split; [intros _; apply Hmissing; reflexivity|reflexivity].
  - assert (Hpos : (0 <? arrlen (List.map hitOf (m :: rest))) = true).
    { reflexivity. }
    rewrite Hpos. cbn [orb arrlen length Z.of_nat Z.ltb Z.compare newLaws exitCode].
    split; [reflexivity|]. split.
    + split; [|reflexivity]. intros _.
      assert (Hin : In m (List.filter
                (fun e => negb (bool_decide (documentIdOf e ∈ storedIds db)))
                recent)) by (fold missing; rewrite Hm; left; reflexivity).
      apply filter_In in Hin as [Hin Hno]. exists m. split; [exact Hin|].
      apply negb_true_iff, bool_decide_eq_false_1 in Hno. exact Hno.
    + split; [discriminate|]. intros Hall.
      apply Hmissing in Hall. discriminate.
Qed.

(** The exit status of the update checker by cases.  It is 2 when the
    store is missing or when reading the cached index, fetching or parsing
    throws; otherwise it is 1 iff some discovered entry has a derived id
    that is not among the stored document ids, and 0 iff none has.  The
    entries reported as new are exactly those, and only the ids of the
    stored documents are consulted. *)
Lemma check_updates_exit_code `{XMLParser} (w : World) :
  let report := fst (run w) in
  match database w with
  | None => exitCode report = 2
  | Some db =>
      match indexFile w with
      | Some (Store.MalformedIndex _) => exitCode report = 2
      | _ =>
          match fetchRecentEntries w with
          | (Throw _, _) => exitCode report = 2
          | (Ok recent, _) =>
              newLaws report =
                List.map hitOf
                  (List.filter
                     (fun e => negb (bool_decide (documentIdOf e ∈ storedIds db)))
                     recent)
              /\ (exitCode report = 1 <->
                    exists e, In e recent /\ documentIdOf e ∉ storedIds db)
              /\ (exitCode report = 0 <->
                    forall e, In e recent -> documentIdOf e ∈ storedIds db)
          end
      end
  end.
Proof.
  intros report. subst report. unfold run, main.
  rewrite bind_gets.
  destruct (database w) as [db|]; [|reflexivity].
  rewrite bind_gets.
  destruct (indexFile w) as [[laws|raw]|];
    [rewrite bind_ret|rewrite bind_throw; reflexivity|rewrite bind_ret];
    cbv zeta; rewrite bind_run;
    (destruct (fetchRecentEntries w) as [[recent|e] w1]; [|reflexivity]);
    unfold ret; cbn [fst]; apply reportFor_spec.
Qed.

(** A rejected request makes the discovery pass throw, hence status 2. *)
Lemma fetchRecentEntries_network_failure `{XMLParser} (w : World) (e : Exn) :
  (forall req, upstream w (sent w) req = NetFail e) ->
  exists w', fetchRecentEntries w = (Throw e, w').
Proof.
  intros Hnet. destruct (rateLimit_effect w) as [w1 [pause [Hrl [Hup [Hsent _]]]]].
  exists (count_request
            {| base := js "https://www.law.go.kr/DRF/lawSearch.do";
               params := [ (js "OC", default [] (apiKey w)); (js "target", js "law");
                           (js "type", js "XML"); (js "display", js "100");
                           (js "page", num_to_string 1);
                           (js "query", js "개인정보") ] |} w1).
  unfold fetchRecentEntries, KEY_QUERIES. cbn [Ingest.forEachM].
  rewrite bind_run. rewrite (bind_run (Fetcher.fetchLawList _ _) _ w).
  unfold Fetcher.fetchLawList. rewrite bind_gets. cbv zeta.
  unfold Fetcher.fetchWithRateLimit. rewrite (bind_run Fetcher.rateLimit _ w), Hrl.
  unfold Fetcher.defaultRetries. change (Z.to_nat (3 + 1)) with 4%nat.
  cbn [Fetcher.attemptLoop].
  rewrite (bind_run (fetch _) _ w1). unfold fetch. rewrite Hup, Hsent, Hnet.
  reflexivity.
Qed.

Lemma check_updates_network_failure `{XMLParser} (w : World) (db : Store.Db) (e : Exn) :
  database w = Some db ->
  indexFile w = None ->
  (forall req, upstream w (sent w) req = NetFail e) ->
  exitCode (fst (run w)) = 2.
Proof.
  intros Hdb Hidx Hnet. unfold run, main.
  rewrite bind_gets, Hdb, bind_gets, Hidx, bind_ret. cbv zeta. rewrite bind_run.
  destruct (fetchRecentEntries_network_failure w e Hnet) as [w' ->]. reflexivity.
Qed.

(** The scenario of the specification: the store holds two documents, the
    discovery pass returns one of them and one unknown law; exactly that
    law is reported and the status is 1. *)
Example check_updates_scenario :
  let P := Samples.fixedParser Samples.listingXZ in
  let w := set_database (Some Samples.storeXY) (Samples.world Samples.firstThen404) in
  let report := fst (@run P w) in
  List.map document_id (newLaws report) = [js "act-3003"]
  /\ exitCode report = 1.
Proof. vm_compute. split; reflexivity. Qed.

End UpdateChecker.

(** ** Rebuilding the store from the seed directory *)

Section Rebuild.
Import Sys Parser.
Local Open Scope Z_scope.

Import Store BuildDb.

Lemma runAll_provisions_documents (seed : DocumentSeed) (provs : list ProvisionSeed) :
  forall db db',
    runAll (fun prov => insertProvision (provisionRow seed prov)) provs db = Ok db' ->
    legal_documents db' = legal_documents db.
Proof.
  induction provs as [|prov provs IH]; intros db db'; cbn [runAll].
  - intros [= <-]. reflexivity.
  - destruct (insertProvision (provisionRow seed prov) db) as [db1|e] eqn:Hins;
      [|discriminate].
    intros Hrest. apply IH in Hrest. rewrite Hrest.
    unfold insertProvision in Hins.
    destruct (existsb _ _); [discriminate|].
    destruct (negb _); [discriminate|].
    injection Hins as <-. reflexivity.
Qed.

Lemma insertEuReference_documents (row : EuReferenceRow) (db db' : Db) :
  insertEuReference row db = Ok db' -> legal_documents db' = legal_documents db.
Proof.
  unfold insertEuReference.
  destruct (match r_eu_article row with Some _ => _ | None => _ end).
  - intros [= <-]. reflexivity.
  - destruct (_ || _); [discriminate|]. intros [= <-]. reflexivity.
Qed.

(** Loading one seed adds exactly its document row, and only when the id
    is not there yet. *)
Lemma loadSeedFile_ok (now : Z) (seed : DocumentSeed) (st st' : Stats) (db db' : Db) :
  loadSeedFile now (SeedJson seed) (st, db) = Ok (st', db') ->
  hasDocument (id seed) db = false
  /\ legal_documents db' = legal_documents db ++ [documentRow seed].
Proof.
  unfold loadSeedFile, bindDoc, insertDoc. cbn [d_id documentRow].
  destruct (bindable seed); [|discriminate].
  destruct (hasDocument (id seed) db); [discriminate|].
  intros Hload. split; [reflexivity|].
  destruct (provisions seed) as [[|prov provs]|].
  - injection Hload as _ <-. reflexivity.
  - destruct (runAll _ _ _) as [db1|e] eqn:Hprovs; [|discriminate].
    apply runAll_provisions_documents in Hprovs. cbn [legal_documents set_documents] in Hprovs.
    destruct (mentionsPipa seed).
    + destruct (insertEuReference _ db1) as [db2|e] eqn:Href.
      * apply insertEuReference_documents in Href.
        injection Hload as _ <-. congruence.
      * injection Hload as _ <-. exact Hprovs.
    + injection Hload as _ <-. exact Hprovs.
  - injection Hload as _ <-. reflexivity.
Qed.

Lemma hasDocument_app (i : jsstring) (db db' : Db) (rows : list DocumentRow) :
  legal_documents db' = legal_documents db ++ rows ->
  hasDocument i db = true -> hasDocument i db' = true.
Proof.
  unfold hasDocument. intros ->. rewrite existsb_app. intros ->. reflexivity.
Qed.

Lemma loadSeedFiles_keeps (now : Z) (files : list SeedFile) (i : jsstring) :
  forall st db st' db',
    loadSeedFiles now files (st, db) = Ok (st', db') ->
    hasDocument i db = true -> hasDocument i db' = true.
Proof.
  induction files as [|file files IH]; intros st db st' db'; cbn [loadSeedFiles].
  - intros [= _ <-]. auto.
  - destruct (loadSeedFile now file (st, db)) as [[st1 db1]|e] eqn:Hone; [|discriminate].
    intros Hrest Hhas. eapply IH; [exact Hrest|].
    destruct file as [seed|raw]; [|discriminate].
    apply loadSeedFile_ok in Hone as [_ Hdocs].
    eapply hasDocument_app; eauto.
Qed.

Lemma loadSeedFiles_app (now : Z) (l l' : list SeedFile) (st : Stats * Db) :
  loadSeedFiles now (l ++ l') st =
    match loadSeedFiles now l st with
    | Ok st' => loadSeedFiles now l' st'
    | Throw e => Throw e
    end.
Proof.
  revert st. induction l as [|file l IH]; intros st; cbn [loadSeedFiles app];
    [reflexivity|].
  destruct (loadSeedFile now file st); [apply IH|reflexivity].
Qed.

(** Whatever the order in which the directory lists them, two seeds with
    the same id make the load throw, and the transaction gives back the
    database it started from. *)
Lemma loadAll_shared_id_throws (now : Z) (l1 l2 l3 : list SeedFile)
    (s1 s2 : DocumentSeed) (db : Db) :
  id s1 = id s2 ->
  exists e,
    transaction (loadAll now (l1 ++ SeedJson s1 :: l2 ++ SeedJson s2 :: l3)) db
    = (Throw e, db).
Proof.
  intros Hid. unfold transaction.
  destruct (loadAll now _ db) as [[st' db']|e] eqn:Hload; [exfalso|eauto].
  unfold loadAll in Hload. rewrite loadSeedFiles_app in Hload.
  destruct (loadSeedFiles now l1 _) as [[st1 db1]|e]; [|discriminate].
  cbn [loadSeedFiles] in Hload.
  destruct (loadSeedFile now (SeedJson s1) (st1, db1)) as [[st2 db2]|e] eqn:H1;
    [|discriminate].
  apply loadSeedFile_ok in H1 as [_ Hdocs].
  assert (Hhas : hasDocument (id s1) db2 = true).
  { unfold hasDocument. rewrite Hdocs, existsb_app. cbn [existsb documentRow d_id].
    rewrite str_eqb_refl. apply orb_true_iff. right. reflexivity. }
  rewrite loadSeedFiles_app in Hload.
  destruct (loadSeedFiles now l2 (st2, db2)) as [[st3 db3]|e] eqn:H2; [|discriminate].
  eapply loadSeedFiles_keeps in H2; [|exact Hhas].
  cbn [loadSeedFiles] in Hload.
  destruct (loadSeedFile now (SeedJson s2) (st3, db3)) as [[st4 db4]|e] eqn:H3;
    [|discriminate].
  apply loadSeedFile_ok in H3 as [Hfresh _]. congruence.
Qed.


End Rebuild.

(** ** Document identifiers *)

Section Identifiers.
Import Parser.

Example stub_id_sample :
  id (Ingest.minimalSeed
        {| title := js "전자정부법"; lawId := js "2001"; lawNumber := js "17980";
           promulgationDate := []; enforcementDate := []; lawType := [];
           url := [] |}) = js "act-17980".
Proof. reflexivity. Qed.

(** C2: when the parser extracts the law number that the discovery entry
    carries and is given the entry's [lawId], the id of the full record is
    the id the orchestrator writes into the stub, and both are
    ["act-" + (lawNumber || lawId)]. *)
Theorem stub_and_parser_ids_agree `{XMLParser}
    (entry : LawIndexEntry) (xml : jsstring) (full : ParsedLaw) :
  parseLawXml xml (lawId entry) = Ok full ->
  law_number full = lawNumber entry ->
  id (Ingest.minimalSeed entry) = id full
  /\ id full = js "act-" ++ (if nonempty (lawNumber entry)
                             then lawNumber entry else lawId entry).
Proof.
  intros Hparse Hnum.
  destruct (parseLawXml_inv _ _ _ Hparse) as [parsed [_ ->]].
  unfold lawOf in *. cbn [id law_number] in *. rewrite Hnum.
  unfold Ingest.minimalSeed. cbn [id]. split; reflexivity.
Qed.

Lemma stub_and_parser_ids_agree_witness :
  let entry := {| title := js "개인정보 보호법"; lawId := js "1001";
                  lawNumber := js "10465"; promulgationDate := [];
                  enforcementDate := []; lawType := []; url := [] |} in
  id (Ingest.minimalSeed entry) = id (lawOf Samples.lawDoc (js "1001"))
  /\ id (lawOf Samples.lawDoc (js "1001")) = js "act-10465".
Proof.
  intros entry.
  apply (@stub_and_parser_ids_agree (Samples.fixedParser Samples.lawDoc)
           entry [] (lawOf Samples.lawDoc (js "1001"))); reflexivity.
Defined.

End Identifiers.

(** ** Pagination *)

Section PaginationFacts.
Import Parser.
Local Open Scope Z_scope.

Lemma parseLawList_inv `{XMLParser} (xml : jsstring) (r : LawListResult) :
  parseLawList xml = Ok r ->
  exists parsed, xml_parse xml = Ok parsed /\ r = lawListOf parsed.
Proof.
  unfold parseLawList. destruct (xml_parse xml) as [parsed|e]; [|discriminate].
  destruct (nullish parsed); [discriminate|].
  destruct (listRaises parsed); [discriminate|].
  intros [= <-]. exists parsed. auto.
Qed.

Example second_page_sample :
  let r := lawListOf (Samples.listingPage 100 200) in
  arrlen (Pagination.returnedEntries (Samples.listingPage 100 200)) = 100
  /\ arrlen (entries r) = 100 /\ totalCount r = Some 200 /\ hasNextPage r = true.
Proof. vm_compute. repeat split; reflexivity. Qed.

(** C4, as stated, fails: on a second full page of a 200-entry listing,
    100 entries were seen before and 100 come with the page, so the
    cumulative count is not below [totalCount]; the flag is true all the
    same. *)
Lemma hasNextPage_ignores_earlier_pages :
  ~ Pagination.cumulativeRule 100 (Samples.listingPage 100 200)
      (lawListOf (Samples.listingPage 100 200)).
Proof.
  unfold Pagination.cumulativeRule. intros [Hto _].
  assert (Hflag : hasNextPage (lawListOf (Samples.listingPage 100 200)) = true)
    by (vm_compute; reflexivity).
  destruct (Hto Hflag) as [_ [total [Htotal Hlt]]].
  assert (Hlen : arrlen (Pagination.returnedEntries (Samples.listingPage 100 200)) = 100)
    by (vm_compute; reflexivity).
  assert (Ht : totalCount (lawListOf (Samples.listingPage 100 200)) = Some 200)
    by (vm_compute; reflexivity).
  rewrite Hlen in Hlt. rewrite Ht in Htotal. injection Htotal as <-. lia.
Qed.

(** Outside the pages the amended statement covers: an entry without a
    title is dropped before the test, so that a full page of 100 returned
    entries counts as 99 and has no next page. *)
Example untitled_entry_on_full_page :
  let r := lawListOf Samples.untitledPage in
  arrlen (Pagination.returnedEntries Samples.untitledPage) = 100
  /\ arrlen (entries r) = 99 /\ totalCount r = Some 250 /\ hasNextPage r = false.
Proof. vm_compute. repeat split; reflexivity. Qed.

(** Every titled entry of the page is kept. *)
Lemma pushEntry_titled (l : list JsVal) :
  forallb Pagination.titled l = true ->
  forall acc, length (fold_left pushEntry l acc) = (length acc + length l)%nat.
Proof.
  induction l as [|entry l IH]; intros Hall acc; cbn [fold_left length];
    [lia|].
  cbn [forallb] in Hall. apply andb_true_iff in Hall as [Hentry Hall].
  rewrite (IH Hall). apply andb_true_iff in Hentry as [Htruthy Htitle].
  unfold pushEntry. rewrite Htruthy. cbn [negb]. cbv zeta.
  rewrite Htitle. cbn [negb]. rewrite length_app. cbn [length]. lia.
Qed.

(** C4 (amended): on a page whose returned entries all carry a title, the
    flag returned by [parseLawList] is true iff the page returned at
    least 100 entries and the number of entries of this page alone is
    below [totalCount] (that is, the rule of the specification with
    nothing counted from earlier pages); it is computed from these two
    numbers, and it is false when [totalCount] is not a number. *)
Theorem hasNextPage_counts_this_page `{XMLParser}
    (xml : jsstring) (parsed : JsVal) (r : LawListResult) :
  xml_parse xml = Ok parsed ->
  parseLawList xml = Ok r ->
  forallb Pagination.titled (Pagination.returnedEntries parsed) = true ->
  Pagination.cumulativeRule 0 parsed r
  /\ (totalCount r = None -> hasNextPage r = false).
Proof.
  intros Hp Hparse Htitled.
  destruct (parseLawList_inv _ _ Hparse) as [parsed' [Hp' ->]].
  rewrite Hp in Hp'. injection Hp' as <-.
  assert (Hlen : arrlen (entries (lawListOf parsed))
                 = arrlen (Pagination.returnedEntries parsed)).
  { unfold arrlen, lawListOf. cbn [entries].
    fold (Pagination.returnedEntries parsed).
    rewrite (pushEntry_titled _ Htitled []). reflexivity. }
  assert (Hmain :
    hasNextPage (lawListOf parsed) = true <->
    (100 <= arrlen (entries (lawListOf parsed))
     /\ exists total, totalCount (lawListOf parsed) = Some total
                      /\ arrlen (entries (lawListOf parsed)) < total)).
  { unfold lawListOf. cbn [hasNextPage entries totalCount]. unfold pageSize.
    rewrite andb_true_iff, Z.leb_le.
    destruct (parseInt10 _) as [total|].
    - rewrite Z.ltb_lt. split.
      + intros [H1 H2]. split; [exact H1|]. exists total. auto.
      + intros [H1 [t [[= <-] H2]]]. auto.
    - split; [intros [_ ?]; discriminate|].
      intros [_ [t [? _]]]; discriminate. }
  rewrite Hlen in Hmain. split.
  - unfold Pagination.cumulativeRule, pageSize. rewrite Hmain.
    split; intros [H1 [t [Ht H2]]]; (split; [exact H1|]); exists t;
      (split; [exact Ht|lia]).
  - intros Hnone. apply not_true_is_false. intros Hflag.
    apply Hmain in Hflag as [_ [t [Ht _]]]. congruence.
Qed.

Lemma hasNextPage_counts_this_page_witness :
  let page := Samples.listingPage 100 200 in
  Pagination.cumulativeRule 0 page (lawListOf page)
  /\ hasNextPage (lawListOf page) = true.
Proof.
  intros page.
  assert (Hparse : @parseLawList (Samples.fixedParser page) [] = Ok (lawListOf page))
    by (vm_compute; reflexivity).
  assert (Htitled : forallb Pagination.titled (Pagination.returnedEntries page) = true)
    by (vm_compute; reflexivity).
  split.
  - exact (proj1 (@hasNextPage_counts_this_page (Samples.fixedParser page)
                    [] page (lawListOf page) eq_refl Hparse Htitled)).
  - vm_compute. reflexivity.
Defined.

End PaginationFacts.

(** ** Date normalisation *)

Example formatDate_plain : Parser.formatDate (js "20240115") = js "2024-01-15".
Proof. reflexivity. Qed.

(** C8, as stated, fails: a ten-character dotted date is not an 8-digit
    numeric string, yet it is rewritten. *)
Lemma formatDate_rewrites_other_shape :
  let s := js "2024.01.15" in
  forallb is_digit s = false /\ length s <> 8%nat /\
  Parser.formatDate s = js "2024-01-15" /\ Parser.formatDate s <> s.
Proof. vm_compute. repeat split; discriminate. Qed.

(** C8 (amended): with [clean] the decimal digits of the input in order,
    an input holding exactly eight digits is rewritten to
    [YYYY-MM-DD] built from those digits, every other input is returned
    unchanged, and an 8-digit numeric string is its own [clean]. *)
Theorem formatDate_spec (s : jsstring) :
  let clean := List.filter is_digit s in
  (length clean = 8%nat ->
   Parser.formatDate s =
     take 4 clean ++ js "-" ++ take 2 (drop 4 clean) ++ js "-" ++ drop 6 clean)
  /\ (length clean <> 8%nat -> Parser.formatDate s = s)
  /\ (length s = 8%nat -> forallb is_digit s = true -> clean = s).
Proof.
  intros clean. unfold Parser.formatDate. rewrite remove_non_digits.
  fold clean. unfold strlen.
  pose proof (filter_length_le is_digit s) as Hle. fold clean in Hle.
  repeat split.
  - intros H8.
    assert (Hs : (8 <= length s)%nat) by lia.
    destruct s as [|c s']; [simpl in Hs; lia|].
    cbn [nonempty negb orb].
    destruct (Z.ltb_spec (Z.of_nat (length (c :: s'))) 8); [lia|].
    rewrite H8. cbn [Z.of_nat Z.eqb Pos.of_succ_nat Pos.succ Pos.eqb].
    unfold slice. cbn [Nat.sub drop].
    f_equal. f_equal. f_equal. f_equal.
    rewrite firstn_all2; [reflexivity|].
    rewrite length_drop. lia.
  - intros Hne.
    destruct (negb (nonempty s) || (Z.of_nat (length s) <? 8)%Z); [reflexivity|].
    destruct (Z.eqb_spec (Z.of_nat (length clean)) 8); [lia|reflexivity].
  - intros _ Hall. apply filter_all, Hall.
Qed.

Lemma formatDate_spec_witness :
  Parser.formatDate (js "2024.01.15") = js "2024-01-15"
  /\ Parser.formatDate (js "2024년 1월") = js "2024년 1월"
  /\ List.filter is_digit (js "20240115") = js "20240115".
Proof.
  split; [|split].
  - apply (proj1 (formatDate_spec (js "2024.01.15"))). reflexivity.
  - apply (proj1 (proj2 (formatDate_spec (js "2024년 1월")))). vm_compute. discriminate.
  - apply (proj2 (proj2 (formatDate_spec (js "20240115")))); reflexivity.
Defined.

(** * Further properties of the scripts *)

(** ** Normalised text *)

Section NormalisedText.
Import Parser.

Lemma no_ws_pair_sparse (s : jsstring) : no_ws_pair s -> sparse s.
Proof.
  induction s as [|c1 [|c2 t] IH]; intros Hpair; cbn [sparse]; try exact I.
  split.
  - intros H1 H2. exact (Hpair [] c1 c2 t eq_refl H1 H2).
  - apply IH. intros pre a b post Heq. apply (Hpair (c1 :: pre) a b post).
    rewrite Heq. reflexivity.
Qed.

Lemma collapse_from_fixed (s : jsstring) :
  forall b,
    ws_only_spaces s -> sparse s ->
    (b = true -> forall c, head s = Some c -> is_ws c = false) ->
    collapse_from b s = s.
Proof.
  induction s as [|c s IH]; intros b Hsp Hsparse Hhead; [reflexivity|].
  cbn [collapse_from].
  assert (Hsp' : ws_only_spaces s).
  { intros d Hd. apply Hsp. right. exact Hd. }
  assert (Hsparse' : sparse s).
  { destruct s as [|d t]; [exact I|]. apply Hsparse. }
  destruct (is_ws c) eqn:Hc.
  - destruct b.
    + specialize (Hhead eq_refl c eq_refl). congruence.
    + rewrite (Hsp c (or_introl eq_refl) Hc). f_equal.
      apply IH; try assumption.
      intros _ d Hd. destruct s as [|d' t]; [discriminate|].
      injection Hd as ->. destruct Hsparse as [Hno _].
      destruct (is_ws d) eqn:Hd; [exfalso; auto|reflexivity].
  - f_equal. apply IH; try assumption. discriminate.
Qed.

Lemma dropWhile_head_kept {A} (p : A -> bool) (l : list A) :
  (forall x, head l = Some x -> p x = false) -> dropWhile p l = l.
Proof.
  destruct l as [|x l]; [reflexivity|]. intros H. cbn [dropWhile].
  rewrite (H x eq_refl). reflexivity.
Qed.

Lemma trim_fixed (s : jsstring) : no_ws_at_ends s -> trim s = s.
Proof.
  intros [Hhead Hlast]. unfold trim, trimStart, trimEnd.
  rewrite (dropWhile_head_kept is_ws s Hhead).
  rewrite dropWhile_head_kept; [apply rev_involutive|].
  intros c Hc. apply Hlast. rewrite last_rev_head. exact Hc.
Qed.

(** Normalising twice is normalising once. *)
Lemma normalizeWhitespace_idempotent (s : jsstring) :
  BuildDb.normalizeWhitespace (BuildDb.normalizeWhitespace s)
  = BuildDb.normalizeWhitespace s.
Proof.
  unfold BuildDb.normalizeWhitespace.
  destruct (normalised_shape s) as [Hsp [Hpair Hends]].
  unfold collapse_ws at 1. rewrite collapse_from_fixed; try assumption.
  - apply trim_fixed, Hends.
  - apply no_ws_pair_sparse, Hpair.
  - discriminate.
Qed.

(** X1: the content of every provision returned by [parseLawXml] is left
    unchanged by the [normalizeWhitespace] of the index builder, so the
    deduplication compares the lengths of the stored contents
    themselves. *)
Theorem parsed_content_is_normal `{XMLParser}
    (xml lawId : jsstring) (law : ParsedLaw) :
  parseLawXml xml lawId = Ok law ->
  forall p, In p (provisions law) ->
    BuildDb.normalizeWhitespace (content p) = content p
    /\ BuildDb.normalizeWhitespace (Store.content (Store.provisionToSeed p))
       = content p.
Proof.
  intros Hparse p Hin.
  destruct (parseLawXml_inv _ _ _ Hparse) as [parsed [_ ->]].
  destruct (Forall2_in_right _ _ _ (lawOf_provisions_rendered parsed lawId) p Hin)
    as [a [_ Hp]].
  cbn [Store.provisionToSeed Store.content]. rewrite Hp.
  split; apply normalizeWhitespace_idempotent.
Qed.

Lemma parsed_content_is_normal_witness :
  Forall (fun p =>
            BuildDb.normalizeWhitespace (content p) = content p
            /\ BuildDb.normalizeWhitespace (Store.content (Store.provisionToSeed p))
               = content p)
         (provisions (lawOf Samples.lawDoc (js "1001"))).
Proof.
  apply List.Forall_forall.
  apply (@parsed_content_is_normal (Samples.fixedParser Samples.lawDoc)
           [] (js "1001")).
  vm_compute. reflexivity.
Defined.

End NormalisedText.

(** ** Dates, short names and provision references *)

Section ParserShapes.
Import Parser.

Lemma formatDate_cases (s : jsstring) :
  let clean := List.filter is_digit s in
  (length clean = 8%nat /\
   formatDate s =
     take 4 clean ++ js "-" ++ take 2 (drop 4 clean) ++ js "-" ++ drop 6 clean)
  \/ (length clean <> 8%nat /\ formatDate s = s).
Proof.
  intros clean. unfold formatDate. rewrite remove_non_digits. fold clean.
  unfold strlen.
  pose proof (filter_length_le is_digit s) as Hle. fold clean in Hle.
  destruct (Nat.eq_dec (length clean) 8%nat) as [H8|Hne]; [left|right]; split; auto.
  - destruct s as [|c s']; [subst clean; cbn in H8; discriminate|].
    cbn [nonempty negb orb].
    destruct (Z.ltb_spec (Z.of_nat (length (c :: s'))) 8); [lia|].
    rewrite H8. cbn [Z.of_nat Z.eqb Pos.of_succ_nat Pos.succ Pos.eqb].
    unfold slice. cbn [Nat.sub drop].
    do 4 f_equal. rewrite firstn_all2; [reflexivity|].
    rewrite length_drop. lia.
  - destruct (negb (nonempty s) || (Z.of_nat (length s) <? 8)%Z); [reflexivity|].
    destruct (Z.eqb_spec (Z.of_nat (length clean)) 8); [lia|reflexivity].
Qed.

Lemma filter_forallb {A} (p : A -> bool) (l : list A) :
  forallb p (List.filter p l) = true.
Proof.
  induction l as [|x l IH]; [reflexivity|]. cbn [List.filter].
  destruct (p x) eqn:Hx; [cbn [forallb]; rewrite Hx, IH; reflexivity|exact IH].
Qed.

Lemma hyphenated_digits (c : jsstring) :
  length c = 8%nat -> forallb is_digit c = true ->
  List.filter is_digit
    (take 4 c ++ js "-" ++ take 2 (drop 4 c) ++ js "-" ++ drop 6 c) = c.
Proof.
  intros Hlen Hall.
  destruct c as [|c0 [|c1 [|c2 [|c3 [|c4 [|c5 [|c6 [|c7 [|c8 t]]]]]]]]];
    try discriminate.
  cbn [forallb] in Hall.
  repeat (apply andb_true_iff in Hall as [? Hall]).
  change (js "-") with [45].
  cbn [take drop app List.filter].
  change (is_digit 45) with false.
  repeat match goal with H : is_digit _ = true |- _ => rewrite H; clear H end.
  reflexivity.
Qed.

(** X2: normalising a date twice gives what normalising it once gives, and
    normalising never changes the decimal digits of the input or their
    order. *)
Theorem formatDate_idempotent (s : jsstring) :
  formatDate (formatDate s) = formatDate s
  /\ List.filter is_digit (formatDate s) = List.filter is_digit s.
Proof.
  destruct (formatDate_cases s) as [[H8 Hout]|[Hne Hout]].
  - assert (Hdigits : List.filter is_digit (formatDate s) = List.filter is_digit s).
    { rewrite Hout. apply hyphenated_digits; [exact H8|apply filter_forallb]. }
    split; [|exact Hdigits].
    destruct (formatDate_cases (formatDate s)) as [[_ Hout2]|[Hne2 _]].
    + rewrite Hout2, Hdigits, <- Hout. reflexivity.
    + rewrite Hdigits in Hne2. contradiction.
  - rewrite Hout. split; [exact Hout|reflexivity].
Qed.

(** X3: what [buildShortName] returns for a title.  For a title that
    names one of the eleven functions inherited from [Object.prototype] it
    is that function, and for [__proto__] it is the prototype object:
    neither is a string.  For every other title it is a string: the
    abbreviation the table gives for exactly that title, or else a piece
    of at most 30 code units with no whitespace at either end. *)
Theorem buildShortName_bounded (title : jsstring) :
  match buildShortName title with
  | ShortText s =>
      ~ In title (js "__proto__" :: inheritedFunctions)
      /\ (In (title, s) abbrevs
          \/ ((length s <= 30)%nat /\ no_ws_at_ends s))
  | InheritedFunction name => name = title /\ In title inheritedFunctions
  | PrototypeObject => title = js "__proto__"
  end.
Proof.
  unfold buildShortName.
  destruct (List.find _ abbrevs) as [[k v]|] eqn:Hfind.
  - apply find_some in Hfind as [Hin Heq]. cbn [fst snd] in *.
    apply str_eqb_eq in Heq. subst k. split; [|left; exact Hin].
    intros Hmember.
    assert (Hkeys : forallb (fun kv =>
              negb (existsb (str_eqb (fst kv)) (js "__proto__" :: inheritedFunctions)))
              abbrevs = true) by (vm_compute; reflexivity).
    rewrite forallb_forall in Hkeys. specialize (Hkeys _ Hin). cbn [fst] in Hkeys.
    apply negb_true_iff in Hkeys.
    assert (Htrue : existsb (str_eqb title) (js "__proto__" :: inheritedFunctions) = true).
    { apply existsb_exists. exists title. split; [exact Hmember|apply str_eqb_refl]. }
    congruence.
  - destruct (existsb (str_eqb title) inheritedFunctions) eqn:Hfun.
    + split; [reflexivity|].
      apply existsb_exists in Hfun as [name [Hin Heq]].
      apply str_eqb_eq in Heq. subst name. exact Hin.
    + destruct (str_eqb title (js "__proto__")) eqn:Hproto.
      * apply str_eqb_eq in Hproto. exact Hproto.
      * split.
        -- intros [Heq|Hin].
           ++ subst title. rewrite str_eqb_refl in Hproto. discriminate.
           ++ assert (Htrue : existsb (str_eqb title) inheritedFunctions = true).
              { apply existsb_exists. exists title.
                split; [exact Hin|apply str_eqb_refl]. }
              congruence.
        -- right. split; [|apply trim_no_ws_at_ends].
           destruct (trim_split (slice 0 30 title)) as [pre [post [Heq _]]].
           assert (Hlen : (length (slice 0 30 title) <= 30)%nat).
           { unfold slice. rewrite length_take. lia. }
           rewrite Heq in Hlen. rewrite !length_app in Hlen. lia.
Qed.

Lemma pushArticle_ref (acc : list ParsedProvision) (article : JsVal) :
  pushArticle acc article = acc
  \/ exists p, pushArticle acc article = acc ++ [p] /\ Shapes.refShape p.
Proof.
  unfold pushArticle.
  destruct (negb (truthy article)); [left; reflexivity|].
  destruct (negb (nonempty _) && negb (nonempty _)); [left; reflexivity|].
  destruct (nonempty (trim (articleFullContent article))); [|left; reflexivity].
  right. eexists. split; [reflexivity|].
  set (raw := textOr [] _).
  exists (trim (remove_chars is_article_marker raw)). cbn [provision_ref section].
  split; [reflexivity|]. split; [reflexivity|]. split; [|apply trim_no_ws_at_ends].
  intros c Hc.
  destruct (trim_split (remove_chars is_article_marker raw)) as [pre [post [Heq _]]].
  assert (Hin : In c (remove_chars is_article_marker raw)).
  { rewrite Heq. apply in_or_app. right. apply in_or_app. left. exact Hc. }
  unfold remove_chars in Hin. apply filter_In in Hin as [_ Hno].
  apply negb_true_iff in Hno. exact Hno.
Qed.

Lemma pushArticle_fold_ref (l : list JsVal) :
  forall acc,
    Forall Shapes.refShape acc ->
    Forall Shapes.refShape (fold_left pushArticle l acc)
    /\ (length (fold_left pushArticle l acc) <= length acc + length l)%nat.
Proof.
  induction l as [|a l IH]; intros acc Hacc; cbn [fold_left length].
  - split; [exact Hacc|lia].
  - destruct (pushArticle_ref acc a) as [->|[p [-> Hp]]].
    + destruct (IH acc Hacc) as [H1 H2]. split; [exact H1|lia].
    + destruct (IH (acc ++ [p])) as [H1 H2].
      * apply Forall_app. split; [exact Hacc|]. constructor; [exact Hp|constructor].
      * split; [exact H1|]. rewrite length_app in H2. cbn [length] in H2. lia.
Qed.

(** X4: in a parsed law, every provision has the reference [art-N] and
    the label built from the same [N], where [N] is the article number
    stripped of the two marker characters and of surrounding whitespace;
    and there are never more provisions than article nodes (none when the
    document has no article list). *)
Theorem provision_refs_derived `{XMLParser}
    (xml lawId : jsstring) (law : ParsedLaw) :
  parseLawXml xml lawId = Ok law ->
  exists parsed,
    xml_parse xml = Ok parsed
    /\ Forall Shapes.refShape (provisions law)
    /\ (length (provisions law) <= length (articleListOf (lawRoot parsed)))%nat.
Proof.
  intros Hparse. destruct (parseLawXml_inv _ _ _ Hparse) as [parsed [Hp ->]].
  exists parsed. split; [exact Hp|]. unfold lawOf. cbn [provisions].
  destruct (pushArticle_fold_ref (articleListOf (lawRoot parsed)) [])
    as [H1 H2]; [constructor|].
  split; [exact H1|exact H2].
Qed.

Lemma provision_refs_derived_witness :
  exists parsed,
    @xml_parse (Samples.fixedParser Samples.lawDoc) [] = Ok parsed
    /\ Forall Shapes.refShape (provisions (lawOf Samples.lawDoc (js "1001")))
    /\ (length (provisions (lawOf Samples.lawDoc (js "1001")))
        <= length (articleListOf (lawRoot parsed)))%nat.
Proof.
  apply (@provision_refs_derived (Samples.fixedParser Samples.lawDoc)
           [] (js "1001")).
  vm_compute. reflexivity.
Defined.

End ParserShapes.

(** ** The listing parser *)

Section ListingShapes.
Import Parser.
Local Open Scope Z_scope.

Lemma coalesce_nullish (a b : JsVal) :
  nullish (a ?? b) = true -> nullish a = true /\ nullish b = true.
Proof.
  unfold coalesce. destruct (nullish a) eqn:Ha; [auto|]. congruence.
Qed.

Lemma pushEntry_shape (acc : list LawIndexEntry) (entry : JsVal) :
  pushEntry acc entry = acc
  \/ exists e, pushEntry acc entry = acc ++ [e] /\ Shapes.entryShape e.
Proof.
  unfold pushEntry.
  destruct (negb (truthy entry)); [left; reflexivity|].
  destruct (negb (nonempty _)); [left; reflexivity|].
  right. eexists. split; [reflexivity|].
  unfold Shapes.entryShape. cbn [url lawId title].
  split; [reflexivity|]. apply normalised_shape.
Qed.

Lemma pushEntry_fold_shape (l : list JsVal) :
  forall acc,
    Forall Shapes.entryShape acc ->
    Forall Shapes.entryShape (fold_left pushEntry l acc)
    /\ (length (fold_left pushEntry l acc) <= length acc + length l)%nat.
Proof.
  induction l as [|a l IH]; intros acc Hacc; cbn [fold_left length].
  - split; [exact Hacc|lia].
  - destruct (pushEntry_shape acc a) as [->|[e [-> He]]].
    + destruct (IH acc Hacc) as [H1 H2]. split; [exact H1|lia].
    + destruct (IH (acc ++ [e])) as [H1 H2].
      * apply Forall_app. split; [exact Hacc|]. constructor; [exact He|constructor].
      * split; [exact H1|]. rewrite length_app in H2. cbn [length] in H2. lia.
Qed.

Lemma lawListOf_entries (parsed : JsVal) :
  entries (lawListOf parsed)
  = fold_left pushEntry (asList (Shapes.rawEntries parsed)) [].
Proof. reflexivity. Qed.

(** X5: every entry of a parsed listing has a whitespace-normalised title
    and the address synthesised from its own serial number, and the
    listing never holds more entries than the response carried. *)
Theorem listing_entries_shaped `{XMLParser} (xml : jsstring) (r : LawListResult) :
  parseLawList xml = Ok r ->
  exists parsed,
    xml_parse xml = Ok parsed
    /\ Forall Shapes.entryShape (entries r)
    /\ (length (entries r) <= length (asList (Shapes.rawEntries parsed)))%nat.
Proof.
  intros Hparse. destruct (parseLawList_inv _ _ Hparse) as [parsed [Hp ->]].
  exists parsed. split; [exact Hp|]. rewrite lawListOf_entries.
  destruct (pushEntry_fold_shape (asList (Shapes.rawEntries parsed)) [])
    as [H1 H2]; [constructor|].
  split; [exact H1|exact H2].
Qed.

Lemma listing_entries_shaped_witness :
  exists parsed,
    @xml_parse (Samples.fixedParser Samples.listingXZ) [] = Ok parsed
    /\ Forall Shapes.entryShape (entries (lawListOf Samples.listingXZ))
    /\ (length (entries (lawListOf Samples.listingXZ))
        <= length (asList (Shapes.rawEntries parsed)))%nat.
Proof.
  apply (@listing_entries_shaped (Samples.fixedParser Samples.listingXZ) []).
  vm_compute. reflexivity.
Defined.

Lemma convertible_default (v : JsVal) (dflt : jsstring) :
  convertible (v ?? JStr dflt) = convertible v.
Proof. unfold coalesce. destruct v; reflexivity. Qed.

(** X6: a response without a list of laws.  When its count can be
    converted by [String] (in particular when it is missing, a string or
    a number), [parseLawList] returns an empty listing with no next page,
    and a missing count reads as 0; when the count is an object that
    [String] cannot convert, [parseLawList] raises that TypeError. *)
Theorem listing_missing_fields `{XMLParser} (xml : jsstring) (parsed : JsVal) :
  xml_parse xml = Ok parsed ->
  nullish parsed = false ->
  nullish ((Shapes.listingRoot parsed).["law"]
           ?? (Shapes.listingRoot parsed).["법령"]) = true ->
  match parseLawList xml with
  | Ok r =>
      convertible (Shapes.rawTotal parsed) = true
      /\ entries r = [] /\ hasNextPage r = false
      /\ (nullish (Shapes.rawTotal parsed) = true -> totalCount r = Some 0)
  | Throw e =>
      convertible (Shapes.rawTotal parsed) = false /\ e = cannotConvert
  end.
Proof.
  intros Hp Hnn Hnone. unfold parseLawList. rewrite Hp, Hnn.
  assert (Hlist : asList (Shapes.rawEntries parsed) = []).
  { unfold Shapes.rawEntries. apply coalesce_nullish in Hnone as [Ha Hb].
    unfold coalesce. rewrite Ha, Hb. reflexivity. }
  assert (Hraises : listRaises parsed = negb (convertible (Shapes.rawTotal parsed))).
  { unfold listRaises. fold (Shapes.listingRoot parsed).
    change (asList _) with (asList (Shapes.rawEntries parsed)). rewrite Hlist.
    cbn [existsb]. rewrite orb_false_r. f_equal.
    unfold Shapes.rawTotal.
    set (a := (Shapes.listingRoot parsed).["totalCnt"]).
    set (b := (Shapes.listingRoot parsed).["전체건수"]).
    rewrite <- (convertible_default (a ?? b) (js "0")).
    unfold coalesce. destruct (nullish a) eqn:Ha; rewrite ?Ha; reflexivity. }
  rewrite Hraises.
  destruct (convertible (Shapes.rawTotal parsed)) eqn:Hconv; cbn [negb];
    [|split; reflexivity].
  split; [reflexivity|].
  assert (Hentries : entries (lawListOf parsed) = []).
  { rewrite lawListOf_entries, Hlist. reflexivity. }
  split; [exact Hentries|]. split.
  - unfold lawListOf in *. cbn [hasNextPage entries] in *.
    fold (Shapes.listingRoot parsed) in *. rewrite Hentries. reflexivity.
  - intros Hmissing. unfold lawListOf. cbn [totalCount].
    fold (Shapes.listingRoot parsed). unfold Shapes.rawTotal in Hmissing.
    apply coalesce_nullish in Hmissing as [Ha Hb].
    unfold coalesce. rewrite Ha, Hb. vm_compute. reflexivity.
Qed.

Lemma listing_missing_fields_witness :
  exists r,
    @parseLawList (Samples.fixedParser (JObj [])) [] = Ok r
    /\ entries r = [] /\ hasNextPage r = false /\ totalCount r = Some 0.
Proof.
  pose proof (@listing_missing_fields (Samples.fixedParser (JObj [])) [] (JObj [])
                eq_refl eq_refl eq_refl) as Hcases.
  destruct (@parseLawList (Samples.fixedParser (JObj [])) []) as [r|e].
  - destruct Hcases as [_ [Hentries [Hflag Htotal]]].
    exists r. split; [reflexivity|]. split; [exact Hentries|].
    split; [exact Hflag|]. apply Htotal. reflexivity.
  - destruct Hcases as [Hconv _]. discriminate Hconv.
Defined.

(** A count that is an element with a child named [toString]. *)
Example count_with_toString_member :
  @parseLawList
    (Samples.fixedParser
       (Samples.obj [ ("LawSearch"%string,
                       Samples.obj [ ("totalCnt"%string,
                                      Samples.obj [ ("toString"%string, JNum 1) ]) ]) ]))
    [] = Throw cannotConvert.
Proof. vm_compute. reflexivity. Qed.

Lemma assoc_text_without_attributes (fields : list (jsstring * JsVal)) :
  assoc (js "#text")
    (List.filter (fun kv => negb (startsWith (js "@_") (fst kv))) fields)
  = assoc (js "#text") fields.
Proof.
  induction fields as [|[k v] rest IH]; [reflexivity|].
  cbn [List.filter fst assoc].
  destruct (str_eqb (js "#text") k) eqn:Heq.
  - apply str_eqb_eq in Heq. subst k.
    change (startsWith (js "@_") (js "#text")) with false. cbn [negb assoc].
    rewrite str_eqb_refl. reflexivity.
  - destruct (startsWith (js "@_") k); cbn [negb assoc]; [exact IH|].
    rewrite Heq. exact IH.
Qed.

(** X7: the attributes of a node (the keys that start with [@_]) never
    take part in the text extracted from it: removing them from the node
    leaves the result unchanged. *)
Theorem extractText_ignores_attributes (fields : list (jsstring * JsVal)) :
  extractText (JObj fields)
  = extractText
      (JObj (List.filter (fun kv => negb (startsWith (js "@_") (fst kv))) fields)).
Proof.
  cbn [extractText]. rewrite assoc_text_without_attributes.
  destruct (assoc (js "#text") fields); [reflexivity|].
  induction fields as [|[k v] rest IH]; [reflexivity|].
  cbn [List.filter fst].
  destruct (startsWith (js "@_") k) eqn:Hk; cbn [negb]; [exact IH|].
  rewrite Hk. destruct (extractText v) as [val|]; [|exact IH].
  destruct (nonempty val); [reflexivity|exact IH].
Qed.

End ListingShapes.

(** ** The fetch client beyond exhausted retries *)

Section FetchClient.
Import Sys Fetcher.
Local Open Scope Z_scope.

Lemma rateLimit_clock (w : World) :
  exists w1,
    rateLimit w = (Ok tt, w1)
    /\ upstream w1 = upstream w /\ sent w1 = sent w
    /\ requestsOf (trace w1) = requestsOf (trace w)
    /\ lastRequestTime w1 = now w1
    /\ now w1 = Z.max (now w) (lastRequestTime w + MIN_DELAY_MS).
Proof.
  unfold rateLimit. rewrite !bind_gets. cbv zeta. unfold MIN_DELAY_MS.
  destruct (Z.ltb_spec (now w - lastRequestTime w) 500).
  - unfold sleep. rewrite bind_modify, bind_gets. unfold modify.
    eexists. split; [reflexivity|].
    cbn [upstream sent trace lastRequestTime now set_clock set_lastRequestTime].
    repeat split.
    + unfold requestsOf. rewrite flat_map_app. apply app_nil_r.
    + lia.
  - rewrite bind_ret, bind_gets. unfold modify.
    eexists. split; [reflexivity|].
    cbn [upstream sent trace lastRequestTime now set_clock set_lastRequestTime].
    repeat split. lia.
Qed.

Lemma attemptLoop_bounds (req : Request) (maxRetries : Z) (turns : nat) :
  forall attempt w r w',
    attemptLoop turns req maxRetries attempt w = (r, w') ->
    (sent w <= sent w' <= sent w + turns)%nat
    /\ upstream w' = upstream w
    /\ lastRequestTime w' = lastRequestTime w
    /\ now w <= now w'.
Proof.
  induction turns as [|turns IH]; intros attempt w r w'; cbn [attemptLoop].
  - unfold throw. intros [= _ <-]. repeat split; lia.
  - rewrite bind_run. unfold fetch.
    destruct (upstream w (sent w) req) as [e|response].
    + intros [= _ <-]. cbn. repeat split; lia.
    + destruct ((resp_status response =? 429) || (500 <=? resp_status response));
        [destruct (attempt <? maxRetries)|].
      * rewrite bind_run. unfold sleep, modify. intros Hrun.
        apply IH in Hrun. cbn in Hrun. destruct Hrun as [H1 [H2 [H3 H4]]].
        repeat split; try assumption; lia.
      * unfold ret. intros [= _ <-]. cbn. repeat split; lia.
      * unfold ret. intros [= _ <-]. cbn. repeat split; lia.
Qed.

Lemma fetchWithRateLimit_effect (req : Request) (maxRetries : Z) (w : World) r w' :
  fetchWithRateLimit req maxRetries w = (r, w') ->
  (sent w <= sent w' <= sent w + Z.to_nat (maxRetries + 1))%nat
  /\ upstream w' = upstream w
  /\ lastRequestTime w' = Z.max (now w) (lastRequestTime w + MIN_DELAY_MS)
  /\ lastRequestTime w' <= now w'.
Proof.
  unfold fetchWithRateLimit. rewrite bind_run.
  destruct (rateLimit_clock w) as [w1 [-> [Hup [Hsent [_ [Hlast Hnow]]]]]].
  intros Hrun. apply attemptLoop_bounds in Hrun as [H1 [H2 [H3 H4]]].
  rewrite Hsent in H1. repeat split; try lia. congruence.
Qed.

(** X8: whatever the upstream answers, one call of the client sends at
    most [maxRetries + 1] requests (none when [maxRetries] is negative);
    the shared time of the last request is set once, before the first
    attempt, to a time at least 500 ms after its previous value, and is
    not touched by the retries. *)
Theorem fetchWithRateLimit_bounds (req : Request) (maxRetries : Z) (w : World) :
  let w' := snd (fetchWithRateLimit req maxRetries w) in
  (sent w <= sent w' <= sent w + Z.to_nat (maxRetries + 1))%nat
  /\ lastRequestTime w' = Z.max (now w) (lastRequestTime w + MIN_DELAY_MS)
  /\ lastRequestTime w + MIN_DELAY_MS <= lastRequestTime w'
  /\ lastRequestTime w' <= now w'.
Proof.
  intros w'. subst w'.
  destruct (fetchWithRateLimit req maxRetries w) as [r w'] eqn:Hrun.
  apply fetchWithRateLimit_effect in Hrun as [H1 [_ [H3 H4]]]. cbn [snd].
  repeat split; try lia.
Qed.

Lemma fetchWithRateLimit_frame (req : Request) (maxRetries : Z) (w : World) r w' :
  fetchWithRateLimit req maxRetries w = (r, w') ->
  sameFiles w w' /\ apiKey w' = apiKey w.
Proof.
  unfold fetchWithRateLimit. rewrite bind_run.
  assert (Hrl : exists w1, rateLimit w = (Ok tt, w1)
                           /\ sameFiles w w1 /\ apiKey w1 = apiKey w).
  { unfold rateLimit, bind, gets, modify, sleep, ret. cbn.
    destruct (now w - lastRequestTime w <? MIN_DELAY_MS);
      eexists; repeat split. }
  destruct Hrl as [w1 [-> [[H1 [H2 H3]] H4]]].
  assert (Hloop : forall turns attempt w r w',
            attemptLoop turns req maxRetries attempt w = (r, w') ->
            apiKey w' = apiKey w).
  { clear. induction turns as [|turns IH]; intros attempt w r w';
      cbn [attemptLoop].
    - intros [= _ <-]. reflexivity.
    - rewrite bind_run. unfold fetch.
      destruct (upstream w (sent w) req) as [e|response]; [intros [= _ <-]; reflexivity|].
      destruct (_ || _); [destruct (_ <? _)|]; try (intros [= _ <-]; reflexivity).
      rewrite bind_run. unfold sleep, modify. intros Hrun. apply IH in Hrun.
      exact Hrun. }
  intros Hrun. pose proof (Hloop _ _ _ _ _ Hrun) as Hkey.
  apply attemptLoop_frame in Hrun as [H5 [H6 H7]].
  repeat split; congruence.
Qed.

(** The loop after [k] answers that call for a retry and one that does
    not. *)
Lemma attemptLoop_recovers (req : Request) (maxRetries : Z) (k : nat) :
  forall (extra : nat) (attempt : Z) (w : World) (r : Response),
    attempt + Z.of_nat k <= maxRetries ->
    (forall i, (i < k)%nat -> Klri.transient (upstream w (sent w + i)%nat req)) ->
    upstream w (sent w + k)%nat req = Reply r ->
    Klri.settled r ->
    exists w',
      attemptLoop (S (k + extra)) req maxRetries attempt w = (Ok (resultOf r), w')
      /\ sent w' = (sent w + S k)%nat
      /\ trace w' = trace w ++ retryTrace req k attempt.
Proof.
  induction k as [|k IH]; intros extra attempt w r Hk Hfail Hlast [Hne Hlt].
  - rewrite Nat.add_0_r in Hlast. cbn [Nat.add attemptLoop].
    rewrite bind_run. unfold fetch. rewrite Hlast.
    assert (Hno : ((resp_status r =? 429) || (500 <=? resp_status r)) = false).
    { apply orb_false_iff. split; lia. }
    rewrite Hno. unfold ret. eexists. split; [reflexivity|]. cbn. split; [lia|reflexivity].
  - destruct (Hfail 0%nat ltac:(lia)) as [r0 [Hr0 Hst]].
    rewrite Nat.add_0_r in Hr0.
    cbn [Nat.add attemptLoop]. rewrite bind_run. unfold fetch. rewrite Hr0.
    assert (Hretry : ((resp_status r0 =? 429) || (500 <=? resp_status r0)) = true).
    { apply orb_true_iff. destruct Hst; [left|right]; lia. }
    rewrite Hretry.
    assert (Hmore : (attempt <? maxRetries) = true) by lia.
    rewrite Hmore, bind_run. unfold sleep, modify.
    set (w1 := set_clock _ _ _).
    destruct (IH extra (attempt + 1) w1 r) as [w' [Hrun [Hsent Htrace]]].
    + lia.
    + intros i Hi. subst w1. cbn [upstream sent set_clock count_request].
      replace (S (sent w) + i)%nat with (sent w + S i)%nat by lia.
      apply Hfail. lia.
    + subst w1. cbn [upstream sent set_clock count_request].
      replace (S (sent w) + k)%nat with (sent w + S k)%nat by lia. exact Hlast.
    + split; assumption.
    + exists w'. split; [exact Hrun|]. split.
      * rewrite Hsent. subst w1. cbn. lia.
      * rewrite Htrace. subst w1. cbn [trace set_clock count_request retryTrace].
        rewrite <- !app_assoc. reflexivity.
Qed.

(** X9: when the upstream answers [k <= maxRetries] times with 429 or 5xx
    and then with any other status, the client returns that answer after
    exactly [k + 1] requests, having waited [2^(i+1)] seconds after the
    [i]-th failure; with [k = 0] the answer (a 404 as well as a 200) is
    returned at once. *)
Theorem fetchWithRateLimit_recovers
    (req : Request) (maxRetries : Z) (k : nat) (w : World) (r : Response) :
  Z.of_nat k <= maxRetries ->
  (forall i, (i < k)%nat -> Klri.transient (upstream w (sent w + i)%nat req)) ->
  upstream w (sent w + k)%nat req = Reply r ->
  Klri.settled r ->
  exists w',
    fetchWithRateLimit req maxRetries w = (Ok (resultOf r), w')
    /\ sent w' = (sent w + S k)%nat
    /\ delaysOf (retryTrace req k 0)
       = List.map (fun i => 2 ^ (Z.of_nat i + 1) * 1000) (seq 0 k)
    /\ exists pause,
         trace w' = trace w ++ pause ++ retryTrace req k 0
         /\ requestsOf pause = [].
Proof.
  intros Hk Hfail Hlast Hsettled.
  destruct (rateLimit_effect w) as [w1 [pause [Hrl [Hup [Hsent [Htrace Hpause]]]]]].
  unfold fetchWithRateLimit. rewrite bind_run, Hrl.
  replace (Z.to_nat (maxRetries + 1))
    with (S (k + (Z.to_nat maxRetries - k)))%nat by lia.
  destruct (attemptLoop_recovers req maxRetries k (Z.to_nat maxRetries - k) 0 w1 r)
    as [w' [Hrun [Hsent' Htrace']]].
  - lia.
  - intros i Hi. rewrite Hup, Hsent. apply Hfail, Hi.
  - rewrite Hup, Hsent. exact Hlast.
  - exact Hsettled.
  - exists w'. split; [exact Hrun|]. split; [congruence|]. split.
    + rewrite retryTrace_delays. apply List.map_ext. intros i. reflexivity.
    + exists pause. split.
      * rewrite Htrace', Htrace, <- app_assoc. reflexivity.
      * destruct Hpause as [->|[ms ->]]; reflexivity.
Qed.

Lemma fetchWithRateLimit_recovers_witness :
  let w := Samples.world
             (fun n _ => Reply (Samples.statusOnly (if (n <? 2)%nat then 503 else 404))) in
  exists w',
    fetchWithRateLimit Samples.someRequest 3 w
      = (Ok (resultOf (Samples.statusOnly 404)), w')
    /\ sent w' = 3%nat.
Proof.
  intros w.
  destruct (fetchWithRateLimit_recovers Samples.someRequest 3 2 w
              (Samples.statusOnly 404)) as [w' [Hrun [Hsent _]]].
  - lia.
  - intros i Hi. exists (Samples.statusOnly 503). split.
    + cbn. destruct i as [|[|i]]; [reflexivity|reflexivity|lia].
    + right. cbn. lia.
  - reflexivity.
  - split; cbn; lia.
  - exists w'. split; [exact Hrun|exact Hsent].
Defined.

(** The loop after [k] answers that call for a retry and a request that
    is rejected. *)
Lemma attemptLoop_rejected (req : Request) (maxRetries : Z) (k : nat) :
  forall (extra : nat) (attempt : Z) (w : World) (e : Exn),
    attempt + Z.of_nat k <= maxRetries ->
    (forall i, (i < k)%nat -> Klri.transient (upstream w (sent w + i)%nat req)) ->
    upstream w (sent w + k)%nat req = NetFail e ->
    exists w',
      attemptLoop (S (k + extra)) req maxRetries attempt w = (Throw e, w')
      /\ sent w' = (sent w + S k)%nat.
Proof.
  induction k as [|k IH]; intros extra attempt w e Hk Hfail Hlast.
  - rewrite Nat.add_0_r in Hlast. cbn [Nat.add attemptLoop].
    rewrite bind_run. unfold fetch. rewrite Hlast.
    eexists. split; [reflexivity|]. cbn. lia.
  - destruct (Hfail 0%nat ltac:(lia)) as [r0 [Hr0 Hst]].
    rewrite Nat.add_0_r in Hr0.
    cbn [Nat.add attemptLoop]. rewrite bind_run. unfold fetch. rewrite Hr0.
    assert (Hretry : ((resp_status r0 =? 429) || (500 <=? resp_status r0)) = true).
    { apply orb_true_iff. destruct Hst; [left|right]; lia. }
    rewrite Hretry.
    assert (Hmore : (attempt <? maxRetries) = true) by lia.
    rewrite Hmore, bind_run. unfold sleep, modify.
    set (w1 := set_clock _ _ _).
    destruct (IH extra (attempt + 1) w1 e) as [w' [Hrun Hsent]].
    + lia.
    + intros i Hi. subst w1. cbn [upstream sent set_clock count_request].
      replace (S (sent w) + i)%nat with (sent w + S i)%nat by lia.
      apply Hfail. lia.
    + subst w1. cbn [upstream sent set_clock count_request].
      replace (S (sent w) + k)%nat with (sent w + S k)%nat by lia. exact Hlast.
    + exists w'. split; [exact Hrun|]. rewrite Hsent. subst w1. cbn. lia.
Qed.

(** X10: a request that [fetch] rejects is never retried: after
    [k <= maxRetries] answers with 429 or 5xx, a rejection makes the call
    raise that very exception, [k + 1] requests having been sent. *)
Theorem fetchWithRateLimit_rejection_raises
    (req : Request) (maxRetries : Z) (k : nat) (w : World) (e : Exn) :
  Z.of_nat k <= maxRetries ->
  (forall i, (i < k)%nat -> Klri.transient (upstream w (sent w + i)%nat req)) ->
  upstream w (sent w + k)%nat req = NetFail e ->
  exists w',
    fetchWithRateLimit req maxRetries w = (Throw e, w')
    /\ sent w' = (sent w + S k)%nat.
Proof.
  intros Hk Hfail Hlast.
  destruct (rateLimit_effect w) as [w1 [pause [Hrl [Hup [Hsent _]]]]].
  unfold fetchWithRateLimit. rewrite bind_run, Hrl.
  replace (Z.to_nat (maxRetries + 1))
    with (S (k + (Z.to_nat maxRetries - k)))%nat by lia.
  destruct (attemptLoop_rejected req maxRetries k (Z.to_nat maxRetries - k) 0 w1 e)
    as [w' [Hrun Hsent']].
  - lia.
  - intros i Hi. rewrite Hup, Hsent. apply Hfail, Hi.
  - rewrite Hup, Hsent. exact Hlast.
  - exists w'. split; [exact Hrun|congruence].
Qed.

Lemma fetchWithRateLimit_rejection_raises_witness :
  let e := Error (js "fetch failed") in
  let w := Samples.world (fun _ _ => NetFail e) in
  exists w',
    fetchWithRateLimit Samples.someRequest 3 w = (Throw e, w')
    /\ sent w' = 1%nat.
Proof.
  intros e w.
  apply (fetchWithRateLimit_rejection_raises Samples.someRequest 3 0 w e).
  - lia.
  - intros i Hi. lia.
  - reflexivity.
Defined.



(** X12: each of the four fetch functions of the module sends at most
    four requests per call and leaves the files alone. *)
Theorem fetch_functions_bounded (w : World) (page : Z) (query : option jsstring)
    (ident : jsstring) :
  let bounded (c : M FetchResult) :=
    (sent (snd (c w)) <= sent w + 4)%nat /\ sameFiles w (snd (c w)) in
  bounded (fetchLawList page query)
  /\ bounded (fetchLawDetail ident)
  /\ bounded (Klri.fetchKlriTranslation ident)
  /\ bounded (Klri.fetchKlriLawDetail ident).
Proof.
  assert (Hone : forall req,
            (sent (snd (fetchWithRateLimit req defaultRetries w)) <= sent w + 4)%nat
            /\ sameFiles w (snd (fetchWithRateLimit req defaultRetries w))).
  { intros req.
    destruct (fetchWithRateLimit req defaultRetries w) as [r w'] eqn:Hrun.
    cbn [snd]. split.
    - apply fetchWithRateLimit_effect in Hrun as [[_ H] _]. exact H.
    - apply fetchWithRateLimit_frame in Hrun as [H _]. exact H. }
  cbv zeta. unfold fetchLawList, fetchLawDetail, Klri.fetchKlriTranslation,
    Klri.fetchKlriLawDetail.
  rewrite !bind_gets. repeat split; apply Hone.
Qed.

End FetchClient.

(** ** Discovery and the content phase of scripts/ingest.ts *)

Section IngestRun.
Import Sys Parser Ingest.
Local Open Scope Z_scope.

(** The deduplication loop of [discoverLaws], from any state in which
    [seen] holds exactly the ids of [deduped]. *)
Lemma dedupStep_fold (l : list LawIndexEntry) :
  forall (seen : gset jsstring) (acc : list LawIndexEntry),
    (forall i, i ∈ seen <-> In i (List.map lawId acc)) ->
    NoDup (List.map lawId acc) ->
    Forall (fun e => nonempty (lawId e) = true) acc ->
    exists seen' suffix,
      fold_left dedupStep l (seen, acc) = (seen', acc ++ suffix)
      /\ NoDup (List.map lawId (acc ++ suffix))
      /\ Forall (fun e => nonempty (lawId e) = true) (acc ++ suffix)
      /\ (forall e, In e suffix ->
            List.find (fun x => str_eqb (lawId x) (lawId e)) l = Some e)
      /\ (forall e, In e l -> nonempty (lawId e) = true ->
            In (lawId e) (List.map lawId (acc ++ suffix))).
Proof.
  induction l as [|x l IH]; intros seen acc Hseen Hnd Hne.
  - exists seen, []. rewrite app_nil_r. cbn. repeat split; auto; tauto.
  - cbn [fold_left]. unfold dedupStep at 2.
    destruct (negb (bool_decide (lawId x ∈ seen)) && nonempty (lawId x)) eqn:Hkeep.
    + apply andb_true_iff in Hkeep as [Hfresh Hx].
      apply negb_true_iff, bool_decide_eq_false_1 in Hfresh.
      assert (Hnew : ~ In (lawId x) (List.map lawId acc)).
      { intros Hin. apply Hfresh, Hseen, Hin. }
      destruct (IH ({[lawId x]} ∪ seen) (acc ++ [x]))
        as [seen' [suffix [Hfold [Hnd' [Hne' [Hfirst Hcover]]]]]].
      * intros i. rewrite List.map_app, in_app_iff. cbn [List.map In].
        rewrite elem_of_union, elem_of_singleton, Hseen. intuition congruence.
      * rewrite List.map_app. cbn [List.map].
        apply NoDup_app. split; [exact Hnd|]. split.
        -- intros i Hi Hi'. apply list_elem_of_In in Hi, Hi'.
           cbn [In] in Hi'. destruct Hi' as [<-|[]]. contradiction.
        -- apply NoDup_singleton.
      * apply Forall_app. split; [exact Hne|]. constructor; [exact Hx|constructor].
      * exists seen', (x :: suffix). rewrite <- app_assoc in *. cbn [app] in *.
        split; [exact Hfold|]. split; [exact Hnd'|]. split; [exact Hne'|]. split.
        -- intros e [<-|He]; cbn [List.find].
           ++ rewrite str_eqb_refl. reflexivity.
           ++ destruct (str_eqb (lawId x) (lawId e)) eqn:Heq; [|apply Hfirst, He].
              exfalso. apply str_eqb_eq in Heq.
              rewrite List.map_app in Hnd'. cbn [List.map] in Hnd'.
              apply NoDup_app in Hnd' as [_ [_ Hnd']].
              apply NoDup_cons in Hnd' as [Hnotin _].
              apply Hnotin. rewrite Heq. apply list_elem_of_In, in_map, He.
        -- intros e [<-|He] Hnon.
           ++ rewrite List.map_app, in_app_iff. right. left. reflexivity.
           ++ apply Hcover; assumption.
    + destruct (IH seen acc Hseen Hnd Hne)
        as [seen' [suffix [Hfold [Hnd' [Hne' [Hfirst Hcover]]]]]].
      exists seen', suffix.
      split; [exact Hfold|]. split; [exact Hnd'|]. split; [exact Hne'|]. split.
      * intros e He. cbn [List.find].
        destruct (str_eqb (lawId x) (lawId e)) eqn:Heq; [|apply Hfirst, He].
        exfalso. apply str_eqb_eq in Heq.
        assert (Hnon : nonempty (lawId e) = true).
        { rewrite Forall_forall in Hne'. apply Hne'. apply list_elem_of_In.
          apply in_or_app. right. exact He. }
        rewrite <- Heq in Hnon. rewrite Hnon, andb_true_r in Hkeep.
        apply negb_false_iff, bool_decide_eq_true_1 in Hkeep.
        apply Hseen in Hkeep. rewrite Heq in Hkeep.
        rewrite List.map_app in Hnd'. apply NoDup_app in Hnd' as [_ [Hdisj _]].
        apply (Hdisj (lawId e)); apply list_elem_of_In; [exact Hkeep|].
        apply in_map, He.
      * intros e [<-|He] Hnon.
        -- rewrite Hnon, andb_true_r in Hkeep.
           apply negb_false_iff, bool_decide_eq_true_1 in Hkeep.
           apply Hseen in Hkeep. rewrite List.map_app, in_app_iff. left. exact Hkeep.
        -- apply Hcover; assumption.
Qed.

(** X13: the index kept by [discoverLaws] has pairwise distinct, non-empty
    [lawId]s; each of its entries is the first entry of the input with that
    id; and every non-empty id of the input is represented. *)
Theorem discovery_index_deduplicated (allEntries : list LawIndexEntry) :
  let deduped := snd (fold_left dedupStep allEntries (∅, [])) in
  NoDup (List.map lawId deduped)
  /\ (forall e, In e deduped ->
        nonempty (lawId e) = true
        /\ List.find (fun x => str_eqb (lawId x) (lawId e)) allEntries = Some e)
  /\ (forall e, In e allEntries -> nonempty (lawId e) = true ->
        In (lawId e) (List.map lawId deduped)).
Proof.
  intros deduped. subst deduped.
  destruct (dedupStep_fold allEntries ∅ [])
    as [seen' [suffix [Hfold [Hnd [Hne [Hfirst Hcover]]]]]].
  - intros i. cbn. rewrite elem_of_empty. tauto.
  - constructor.
  - constructor.
  - rewrite Hfold. cbn [snd app] in *. split; [exact Hnd|]. split; [|exact Hcover].
    intros e He. split; [|apply Hfirst, He].
    rewrite Forall_forall in Hne. apply Hne, list_elem_of_In, He.
Qed.

End IngestRun.

Section ContentRun.
Import Sys Parser Ingest.
Local Open Scope Z_scope.

Lemma fetchLawDetail_effect (ident : jsstring) (w : World) r w1 :
  Fetcher.fetchLawDetail ident w = (r, w1) ->
  sameFiles w w1 /\ (sent w <= sent w1 <= sent w + 4)%nat.
Proof.
  unfold Fetcher.fetchLawDetail. rewrite bind_gets. cbv zeta. intros Hrun.
  split.
  - apply fetchWithRateLimit_frame in Hrun as [H _]. exact H.
  - apply fetchWithRateLimit_effect in Hrun as [H _]. exact H.
Qed.

Lemma fetchLawList_effect (page : Z) (query : option jsstring) (w : World) r w1 :
  Fetcher.fetchLawList page query w = (r, w1) ->
  sameFiles w w1 /\ (sent w <= sent w1 <= sent w + 4)%nat.
Proof.
  unfold Fetcher.fetchLawList. rewrite bind_gets. cbv zeta. intros Hrun.
  split.
  - apply fetchWithRateLimit_frame in Hrun as [H _]. exact H.
  - apply fetchWithRateLimit_effect in Hrun as [H _]. exact H.
Qed.

Lemma writeSeed_effect (name : jsstring) (law : ParsedLaw) (w : World)
    (dir : gmap jsstring Store.SeedFile) :
  seedDir w = Some dir ->
  writeSeed name law w
  = (Ok tt, set_seedDir (Some (<[ name := Store.SeedJson (Store.lawToSeed law) ]> dir)) w).
Proof.
  intros Hdir. unfold writeSeed. rewrite bind_gets, Hdir. reflexivity.
Qed.

(** One turn of the content phase never raises, never removes or
    rewrites an existing seed, and sends at most four requests. *)
Lemma processLaw_total `{XMLParser} (law : LawIndexEntry) (c : Counters) (w : World)
    (dir : gmap jsstring Store.SeedFile) :
  seedDir w = Some dir ->
  exists c' w' dir',
    processLaw law c w = (Ok c', w')
    /\ seedDir w' = Some dir' /\ dir ⊆ dir'
    /\ indexFile w' = indexFile w /\ database w' = database w
    /\ Progress.counted 1 c c'
    /\ (sent w <= sent w' <= sent w + 4)%nat.
Proof.
  intros Hdir. unfold processLaw, Progress.counted.
  rewrite bind_run. unfold existsSync, gets. rewrite Hdir.
  destruct (dir !! seedFile law) as [f|] eqn:Hfile.
  - rewrite bool_decide_eq_true_2 by eauto. unfold ret.
    exists (countSkipped c), w, dir. cbn. repeat split; auto; lia.
  - rewrite bool_decide_eq_false_2 by (intros [x Hx]; discriminate).
    rewrite bind_run. unfold try_catch. rewrite bind_run.
    destruct (Fetcher.fetchLawDetail (lawId law) w) as [[result|e] w1] eqn:Hfetch;
      apply fetchLawDetail_effect in Hfetch as [[Hd1 [Hi1 Hb1]] Hsent];
      rewrite Hdir in Hd1.
    + destruct (Fetcher.status result =? 200) eqn:H200; cbn [negb].
      * rewrite bind_run. unfold lift.
        destruct (parseLawXml (Fetcher.body result) (lawId law)) as [parsed|e].
        -- rewrite bind_run, (writeSeed_effect _ _ _ _ Hd1). unfold ret.
           eexists _, _, _. split; [reflexivity|]. cbn.
           repeat split; auto; try lia.
           ++ apply insert_subseteq. exact Hfile.
           ++ unfold arrlen. lia.
        -- unfold ret. eexists _, w1, dir. split; [reflexivity|]. cbn.
           repeat split; auto; lia.
      * destruct (Fetcher.status result =? 404).
        -- rewrite bind_run, (writeSeed_effect _ _ _ _ Hd1). unfold ret.
           eexists _, _, _. split; [reflexivity|]. cbn.
           repeat split; auto; try lia.
           apply insert_subseteq. exact Hfile.
        -- unfold ret. eexists _, w1, dir. split; [reflexivity|]. cbn.
           repeat split; auto; lia.
    + unfold ret. eexists _, w1, dir. split; [reflexivity|]. cbn.
      repeat split; auto; lia.
Qed.

Lemma forEachM_processLaw `{XMLParser} (l : list LawIndexEntry) :
  forall (c : Counters) (w : World) (dir : gmap jsstring Store.SeedFile),
    seedDir w = Some dir ->
    exists c' w' dir',
      forEachM processLaw l c w = (Ok c', w')
      /\ seedDir w' = Some dir' /\ dir ⊆ dir'
      /\ indexFile w' = indexFile w /\ database w' = database w
      /\ Progress.counted (arrlen l) c c'
      /\ (sent w <= sent w' <= sent w + 4 * length l)%nat.
Proof.
  induction l as [|law l IH]; intros c w dir Hdir; cbn [forEachM].
  - exists c, w, dir. unfold ret, Progress.counted, arrlen. cbn.
    repeat split; auto; lia.
  - rewrite bind_run.
    destruct (processLaw_total law c w dir Hdir)
      as [c1 [w1 [dir1 [-> [Hd1 [Hsub1 [Hi1 [Hb1 [Hc1 Hs1]]]]]]]]].
    destruct (IH c1 w1 dir1 Hd1)
      as [c' [w' [dir' [-> [Hd' [Hsub' [Hi' [Hb' [Hc' Hs']]]]]]]]].
    exists c', w', dir'. split; [reflexivity|]. split; [exact Hd'|].
    split; [etransitivity; eassumption|].
    split; [congruence|]. split; [congruence|]. split.
    + unfold Progress.counted, arrlen in *. cbn [length]. lia.
    + cbn [length]. lia.
Qed.

Lemma fetchAndParseLaws_effect `{XMLParser}
    (laws : list LawIndexEntry) (limit : option Z) (w : World) :
  exists c w' dir',
    fetchAndParseLaws laws limit w = (Ok c, w')
    /\ processed c = arrlen (toProcess laws limit)
    /\ 0 <= skipped c /\ 0 <= failed c /\ 0 <= totalProvisions c
    /\ skipped c + failed c <= processed c
    /\ seedDir w' = Some dir'
    /\ (forall name f, seedAt w name = Some f -> dir' !! name = Some f)
    /\ indexFile w' = indexFile w /\ database w' = database w
    /\ (sent w' <= sent w + 4 * length (toProcess laws limit))%nat.
Proof.
  unfold fetchAndParseLaws. rewrite bind_run. unfold mkdirSeedDir, modify.
  set (w0 := set_seedDir _ w).
  destruct (forEachM_processLaw (toProcess laws limit) noCounts w0
              (default ∅ (seedDir w)) eq_refl)
    as [c [w' [dir' [Hrun [Hd [Hsub [Hi [Hb [[H1 [H2 [H3 [H4 H5]]]] Hs]]]]]]]]].
  exists c, w', dir'. cbn in *. repeat split; auto; try lia.
  intros name f Hseed. unfold seedAt in Hseed.
  destruct (seedDir w) as [dir|]; [|discriminate]. cbn in *.
  eapply lookup_weaken; eassumption.
Qed.

(** X14: the content phase never raises, whatever the upstream and the
    parser do.  It processes every selected law once, so that the counters
    satisfy [processed = number of laws] and [skipped + failed <= processed];
    every seed present before is still there unchanged; the index file and
    the database are not touched; and at most four requests per law are
    sent. *)
Theorem fetchAndParseLaws_total `{XMLParser}
    (laws : list LawIndexEntry) (limit : option Z) (w : World) :
  exists c w' dir',
    fetchAndParseLaws laws limit w = (Ok c, w')
    /\ processed c = arrlen (toProcess laws limit)
    /\ 0 <= skipped c /\ 0 <= failed c /\ 0 <= totalProvisions c
    /\ skipped c + failed c <= processed c
    /\ seedDir w' = Some dir'
    /\ (forall name f, seedAt w name = Some f -> dir' !! name = Some f)
    /\ indexFile w' = indexFile w /\ database w' = database w
    /\ (sent w' <= sent w + 4 * length (toProcess laws limit))%nat.
Proof. apply fetchAndParseLaws_effect. Qed.

Lemma set_seedDir_same (w : World) (d : option (gmap jsstring Store.SeedFile)) :
  seedDir w = d -> set_seedDir d w = w.
Proof. destruct w. cbn. intros <-. reflexivity. Qed.

Lemma forEachM_all_cached `{XMLParser} (l : list LawIndexEntry) (w : World)
    (dir : gmap jsstring Store.SeedFile) :
  seedDir w = Some dir ->
  (forall law, In law l -> is_Some (dir !! seedFile law)) ->
  forall c,
    forEachM processLaw l c w
    = (Ok {| processed := processed c + arrlen l;
             skipped := skipped c + arrlen l;
             failed := failed c;
             totalProvisions := totalProvisions c |}, w).
Proof.
  intros Hdir. induction l as [|law l IH]; intros Hall c; cbn [forEachM].
  - unfold ret, arrlen. cbn [length Z.of_nat]. rewrite !Z.add_0_r.
    destruct c; reflexivity.
  - rewrite bind_run. unfold processLaw at 1. rewrite bind_run.
    unfold existsSync, gets. rewrite Hdir.
    rewrite bool_decide_eq_true_2 by (apply Hall; left; reflexivity).
    unfold ret. rewrite IH by (intros law' Hin; apply Hall; right; exact Hin).
    unfold countSkipped, arrlen. cbn [length processed skipped failed totalProvisions].
    do 2 f_equal. f_equal; lia.
Qed.

(** X15: when every selected law already has its seed file, the content
    phase sends no request and changes nothing: it returns with
    [skipped = processed = number of laws], no failure and no provision
    counted. *)
Theorem rerun_skips_cached_laws `{XMLParser}
    (laws : list LawIndexEntry) (limit : option Z) (w : World)
    (dir : gmap jsstring Store.SeedFile) :
  seedDir w = Some dir ->
  (forall law, In law (toProcess laws limit) -> is_Some (dir !! seedFile law)) ->
  fetchAndParseLaws laws limit w
  = (Ok {| processed := arrlen (toProcess laws limit);
           skipped := arrlen (toProcess laws limit);
           failed := 0;
           totalProvisions := 0 |}, w).
Proof.
  intros Hdir Hall. unfold fetchAndParseLaws. rewrite bind_run.
  unfold mkdirSeedDir, modify. cbv beta. rewrite Hdir.
  change (default ∅ (Some dir)) with dir.
  rewrite (set_seedDir_same w (Some dir) Hdir).
  rewrite (forEachM_all_cached _ w dir Hdir Hall). reflexivity.
Qed.

Lemma rerun_skips_cached_laws_witness :
  let P := Samples.fixedParser Samples.lawDoc in
  let law := Samples.entry "개인정보 보호법" "1001" "10465" in
  let dir : gmap jsstring Store.SeedFile :=
    {[ seedFile law := Store.SeedJson (Store.lawToSeed (minimalSeed law)) ]} in
  let w := set_seedDir (Some dir)
             (Samples.world (fun _ _ => Reply (Samples.statusOnly 500))) in
  @fetchAndParseLaws P [law] None w
  = (Ok {| processed := 1; skipped := 1; failed := 0; totalProvisions := 0 |}, w).
Proof.
  intros P law dir w.
  apply (@rerun_skips_cached_laws P [law] None w dir eq_refl).
  intros law' [<-|[]]. exists (Store.SeedJson (Store.lawToSeed (minimalSeed law))).
  apply lookup_singleton_eq.
Defined.

(** X16: [main] run with [--skip-discovery] on a cached index exits with
    status 0 whatever the upstream answers, leaves the index file as it
    is and sends at most four requests per selected law; when the cached
    index is not valid JSON it exits with status 1 before any request or
    write. *)
Theorem main_with_cached_index `{XMLParser} (limit : option Z) (w : World) :
  match indexFile w with
  | Some (Store.IndexJson laws) =>
      fst (main limit true w) = 0
      /\ indexFile (snd (main limit true w)) = indexFile w
      /\ database (snd (main limit true w)) = database w
      /\ (sent (snd (main limit true w))
          <= sent w + 4 * length (toProcess laws limit))%nat
  | Some (Store.MalformedIndex _) => main limit true w = (1, w)
  | None => True
  end.
Proof.
  unfold main. rewrite bind_run, bind_gets.
  destruct (indexFile w) as [[laws|raw]|] eqn:Hidx; [| reflexivity | exact I].
  unfold ret.
  destruct (fetchAndParseLaws_effect laws limit w)
    as [c [w' [dir' [-> [_ [_ [_ [_ [_ [_ [_ [Hi [Hb Hs]]]]]]]]]]]]].
  cbn [fst snd]. rewrite <- Hidx. auto.
Qed.

End ContentRun.

(** ** Requests and writes of the discovery passes *)

Section DiscoveryRun.
Import Sys Parser Ingest.
Local Open Scope Z_scope.

Lemma sameFiles_trans (w1 w2 w3 : World) :
  sameFiles w1 w2 -> sameFiles w2 w3 -> sameFiles w1 w3.
Proof.
  intros [H1 [H2 H3]] [H4 [H5 H6]]. repeat split; congruence.
Qed.

Lemma forEachM_effect {A S} (body : A -> S -> M S) (n : nat) :
  (forall x st w r w',
     body x st w = (r, w') ->
     sameFiles w w' /\ (sent w <= sent w' <= sent w + n)%nat) ->
  forall l st w r w',
    forEachM body l st w = (r, w') ->
    sameFiles w w' /\ (sent w <= sent w' <= sent w + n * length l)%nat.
Proof.
  intros Hbody. induction l as [|x l IH]; intros st w r w'; cbn [forEachM].
  - unfold ret. intros [= _ <-]. split; [repeat split|cbn; lia].
  - rewrite bind_run. destruct (body x st w) as [[st1|e] w1] eqn:Hone;
      apply Hbody in Hone as [Hf1 Hs1].
    + intros Hrest. apply IH in Hrest as [Hf2 Hs2].
      split; [eapply sameFiles_trans; eassumption|cbn [length]; lia].
    + intros [= _ <-]. split; [exact Hf1|cbn [length]; lia].
Qed.

Lemma paginate_effect `{XMLParser} (query : jsstring) (turns : nat) :
  forall page all w r w',
    paginate turns query page all w = (r, w') ->
    sameFiles w w' /\ (sent w <= sent w' <= sent w + 4 * turns)%nat.
Proof.
  induction turns as [|turns IH]; intros page all w r w'; cbn [paginate].
  - unfold ret. intros [= _ <-]. split; [repeat split|lia].
  - rewrite bind_run.
    destruct (Fetcher.fetchLawList page (Some query) w) as [[result|e] w1] eqn:Hfetch;
      apply fetchLawList_effect in Hfetch as [Hf1 Hs1].
    + destruct (negb (Fetcher.status result =? 200)).
      * unfold ret. intros [= _ <-]. split; [exact Hf1|lia].
      * rewrite bind_run. unfold lift.
        destruct (parseLawList (Fetcher.body result)) as [listResult|e].
        -- destruct (10 <? page + 1); [|destruct (hasNextPage listResult)].
           ++ unfold ret. intros [= _ <-]. split; [exact Hf1|lia].
           ++ intros Hrest. apply IH in Hrest as [Hf2 Hs2].
              split; [eapply sameFiles_trans; eassumption|lia].
           ++ unfold ret. intros [= _ <-]. split; [exact Hf1|lia].
        -- intros [= _ <-]. split; [exact Hf1|lia].
    + intros [= _ <-]. split; [exact Hf1|lia].
Qed.

(** X17: the discovery phase sends at most 320 requests (eight queries,
    ten pages each, four attempts per page) and touches neither the seeds
    nor the database; when it returns, the index file holds exactly the
    list it returns, whose [lawId]s are non-empty and pairwise distinct;
    when it raises, the index file is as before. *)
Theorem discoverLaws_effect `{XMLParser} (w : World) :
  let r := fst (discoverLaws w) in
  let w' := snd (discoverLaws w) in
  (sent w <= sent w' <= sent w + 320)%nat
  /\ seedDir w' = seedDir w /\ database w' = database w
  /\ match r with
     | Ok deduped =>
         indexFile w' = Some (Store.IndexJson deduped)
         /\ NoDup (List.map lawId deduped)
         /\ Forall (fun e => nonempty (lawId e) = true) deduped
     | Throw _ => indexFile w' = indexFile w
     end.
Proof.
  cbv zeta. unfold discoverLaws. rewrite bind_run.
  destruct (forEachM (fun query all => paginate 10 query 1 all) KEY_LAW_QUERIES [] w)
    as [[allEntries|e] w1] eqn:Hrun;
    apply (forEachM_effect _ 40) in Hrun;
    try (intros x st w0 r0 w0' Hp; apply paginate_effect in Hp; exact Hp);
    destruct Hrun as [[Hd [Hi Hb]] Hs]; cbn [length KEY_LAW_QUERIES] in Hs.
  - rewrite bind_modify. unfold ret. cbn [fst snd]. cbn.
    split; [lia|]. split; [exact Hd|]. split; [exact Hb|]. split; [reflexivity|].
    destruct (dedupStep_fold allEntries ∅ [])
      as [seen' [suffix [Hfold [Hnd [Hne _]]]]].
    + intros i. cbn. rewrite elem_of_empty. tauto.
    + constructor.
    + constructor.
    + rewrite Hfold. cbn [snd app] in *. split; assumption.
  - cbn [fst snd]. split; [lia|]. auto.
Qed.

Lemma fetchRecentEntries_effect `{XMLParser} (w : World) r w' :
  CheckUpdates.fetchRecentEntries w = (r, w') ->
  sameFiles w w' /\ (sent w <= sent w' <= sent w + 20)%nat.
Proof.
  unfold CheckUpdates.fetchRecentEntries. intros Hrun.
  apply (forEachM_effect _ 4) in Hrun; [exact Hrun|].
  clear. intros query entries w r w'. rewrite bind_run.
  destruct (Fetcher.fetchLawList 1 (Some query) w) as [[result|e] w1] eqn:Hfetch;
    apply fetchLawList_effect in Hfetch.
  - destruct (Fetcher.status result =? 200).
    + rewrite bind_run. unfold lift.
      destruct (parseLawList (Fetcher.body result)); intros [= _ <-]; exact Hfetch.
    + intros [= _ <-]. exact Hfetch.
  - intros [= _ <-]. exact Hfetch.
Qed.

(** X18: the update checker only reads: whatever it finds, the seed
    directory, the index file and the database are as before; it sends at
    most 20 requests, and none at all when the database file is missing
    or the cached index is not valid JSON. *)
Theorem check_updates_read_only `{XMLParser} (w : World) :
  let w' := snd (CheckUpdates.run w) in
  sameFiles w w'
  /\ (sent w <= sent w' <= sent w + 20)%nat
  /\ (database w = None -> w' = w)
  /\ (forall raw, indexFile w = Some (Store.MalformedIndex raw) -> w' = w).
Proof.
  cbv zeta. unfold CheckUpdates.run, CheckUpdates.main.
  rewrite bind_gets.
  destruct (database w) as [db|] eqn:Hdb.
  - rewrite bind_gets.
    destruct (indexFile w) as [[laws|raw]|] eqn:Hidx.
    + rewrite bind_ret. cbv zeta. rewrite bind_run.
      destruct (CheckUpdates.fetchRecentEntries w) as [[recent|e] w1] eqn:Hrun;
        apply fetchRecentEntries_effect in Hrun as [Hf Hs]; cbn [snd ret];
        (split; [exact Hf|]); (split; [exact Hs|]); split; discriminate.
    + rewrite bind_throw. cbn [snd].
      split; [repeat split|]. split; [lia|]. split; [discriminate|reflexivity].
    + rewrite bind_ret. cbv zeta. rewrite bind_run.
      destruct (CheckUpdates.fetchRecentEntries w) as [[recent|e] w1] eqn:Hrun;
        apply fetchRecentEntries_effect in Hrun as [Hf Hs]; cbn [snd ret];
        (split; [exact Hf|]); (split; [exact Hs|]); split; discriminate.
  - cbn [snd ret]. split; [repeat split|]. split; [lia|]. split; [reflexivity|].
    reflexivity.
Qed.

End DiscoveryRun.

(** ** The update checker during an upstream outage *)

Section UpdateCheckerOutage.
Import Sys Parser Fetcher CheckUpdates.
Local Open Scope Z_scope.

Lemma fetchLawList_all_failing (page : Z) (query : option jsstring) (w : World) :
  (forall req, alwaysFailing w req) ->
  exists result w',
    fetchLawList page query w = (Ok result, w')
    /\ (status result = 429 \/ 500 <= status result)
    /\ sent w' = (sent w + 4)%nat
    /\ upstream w' = upstream w.
Proof.
  intros Hfail. unfold fetchLawList. rewrite bind_gets. cbv zeta.
  set (req := {| base := _; params := _ |}).
  unfold fetchWithRateLimit. rewrite bind_run.
  destruct (rateLimit_effect w) as [w1 [pause [-> [Hup [Hsent _]]]]].
  assert (Hfail1 : alwaysFailing w1 req).
  { intros n. rewrite Hup. apply Hfail. }
  unfold defaultRetries. change (Z.to_nat (3 + 1)) with 4%nat.
  destruct (attemptLoop_all_failing req 3 3 0 w1 Hfail1 eq_refl)
    as [r [w' [Hrun [Hst [Hsent' _]]]]].
  exists (resultOf r), w'. split; [exact Hrun|]. split; [exact Hst|].
  split; [lia|].
  apply attemptLoop_bounds in Hrun as [_ [Hup' _]]. congruence.
Qed.

Lemma fetchRecentEntries_all_failing `{XMLParser} (queries : list jsstring) :
  forall (entries : list LawIndexEntry) (w : World),
    (forall req, alwaysFailing w req) ->
    exists w',
      Ingest.forEachM
        (fun query entries =>
           bind (fetchLawList 1 (Some query))
             (fun result =>
                if status result =? 200 then
                  bind (lift (parseLawList (body result)))
                    (fun parsed => ret (entries ++ Parser.entries parsed))
                else ret entries))
        queries entries w = (Ok entries, w')
      /\ sent w' = (sent w + 4 * length queries)%nat
      /\ upstream w' = upstream w.
Proof.
  induction queries as [|query queries IH]; intros entries w Hfail;
    cbn [Ingest.forEachM length].
  - exists w. unfold ret. repeat split. lia.
  - rewrite bind_run. rewrite (bind_run (fetchLawList _ _) _ w).
    destruct (fetchLawList_all_failing 1 (Some query) w Hfail)
      as [result [w1 [-> [Hst [Hsent Hup]]]]].
    assert (Hnot : (status result =? 200) = false) by lia.
    rewrite Hnot. unfold ret at 1.
    destruct (IH entries w1) as [w' [Hrun [Hsent' Hup']]].
    { intros req n. rewrite Hup. apply Hfail. }
    exists w'. split; [exact Hrun|]. split; [lia|congruence].
Qed.

(** C7: the update checker while the upstream answers every request with
    429 or a status of 500 and above.  The store is there and the cached
    index is readable; all 20 requests of the discovery pass fail, nothing
    has been compared, and the checker reports no new law and ends with
    status 0. *)
Theorem check_updates_outage_exits_zero `{XMLParser} (w : World) (db : Store.Db) :
  database w = Some db ->
  (forall raw, indexFile w <> Some (Store.MalformedIndex raw)) ->
  (forall req, alwaysFailing w req) ->
  fst (run w) = {| newLaws := []; exitCode := 0 |}
  /\ sent (snd (run w)) = (sent w + 20)%nat.
Proof.
  intros Hdb Hidx Hfail. unfold run, main.
  rewrite bind_gets, Hdb, bind_gets.
  destruct (fetchRecentEntries_all_failing KEY_QUERIES [] w Hfail)
    as [w' [Hrun [Hsent _]]].
  fold fetchRecentEntries in Hrun. change (fetchRecentEntries w = (Ok [], w')) in Hrun.
  destruct (indexFile w) as [[laws|raw]|] eqn:Hcache.
  - rewrite bind_ret. cbv zeta. rewrite bind_run, Hrun. unfold ret. cbn [fst snd].
    split; [reflexivity|exact Hsent].
  - exfalso. apply (Hidx raw). reflexivity.
  - rewrite bind_ret. cbv zeta. rewrite bind_run, Hrun. unfold ret. cbn [fst snd].
    split; [reflexivity|exact Hsent].
Qed.

Lemma check_updates_outage_exits_zero_witness :
  let P := Samples.fixedParser Samples.listingXZ in
  let w := set_database (Some Samples.storeXY)
             (Samples.world (fun _ _ => Reply (Samples.statusOnly 500))) in
  fst (@run P w) = {| newLaws := []; exitCode := 0 |}
  /\ sent (snd (@run P w)) = 20%nat.
Proof.
  intros P w.
  apply (@check_updates_outage_exits_zero P w Samples.storeXY).
  - reflexivity.
  - intros raw. discriminate.
  - intros req n. exists (Samples.statusOnly 500).
    split; [reflexivity|right; cbn; lia].
Defined.

End UpdateCheckerOutage.

(** ** Deduplication of provisions, in general *)

Section DedupGeneral.
Import Store BuildDb.
Local Open Scope Z_scope.

Lemma assoc_In {V} (k : jsstring) (v : V) (m : list (jsstring * V)) :
  assoc k m = Some v -> In (k, v) m.
Proof.
  induction m as [|[k' x] m IH]; cbn [assoc]; [discriminate|].
  destruct (str_eqb k k') eqn:Heq.
  - apply str_eqb_eq in Heq. subst k'. intros [= ->]. left. reflexivity.
  - intros H. right. apply IH, H.
Qed.

Lemma assoc_None_keys {V} (k : jsstring) (m : list (jsstring * V)) :
  assoc k m = None -> ~ In k (List.map fst m).
Proof.
  induction m as [|[k' x] m IH]; cbn [assoc List.map fst]; [intros _ []|].
  destruct (str_eqb k k') eqn:Heq; [discriminate|].
  intros Hnone [->|Hin]; [rewrite str_eqb_refl in Heq; discriminate|].
  apply IH; assumption.
Qed.

Lemma In_assoc {V} (k : jsstring) (v : V) (m : list (jsstring * V)) :
  NoDup (List.map fst m) -> In (k, v) m -> assoc k m = Some v.
Proof.
  induction m as [|[k' x] m IH]; cbn [assoc List.map fst]; [intros _ []|].
  intros Hnd [[= -> ->]|Hin].
  - rewrite str_eqb_refl. reflexivity.
  - apply NoDup_cons in Hnd as [Hnotin Hnd].
    destruct (str_eqb k k') eqn:Heq; [|apply IH; assumption].
    apply str_eqb_eq in Heq. subst k'. exfalso. apply Hnotin.
    apply list_elem_of_In. change k with (fst (k, v)). apply in_map, Hin.
Qed.

Lemma assoc_mapSet_eq {V} (k : jsstring) (v : V) (m : list (jsstring * V)) :
  assoc k (mapSet k v m) = Some v.
Proof.
  induction m as [|[k' x] m IH]; cbn [mapSet assoc].
  - rewrite str_eqb_refl. reflexivity.
  - destruct (str_eqb k k') eqn:Heq; cbn [assoc]; rewrite Heq; [reflexivity|exact IH].
Qed.

Lemma assoc_mapSet_ne {V} (k k0 : jsstring) (v : V) (m : list (jsstring * V)) :
  k0 <> k -> assoc k0 (mapSet k v m) = assoc k0 m.
Proof.
  intros Hne. induction m as [|[k' x] m IH]; cbn [mapSet assoc].
  - destruct (str_eqb k0 k) eqn:Heq; [apply str_eqb_eq in Heq; contradiction|].
    reflexivity.
  - destruct (str_eqb k k') eqn:Heq; cbn [assoc].
    + apply str_eqb_eq in Heq. subst k'.
      destruct (str_eqb k0 k) eqn:Heq0; [apply str_eqb_eq in Heq0; contradiction|].
      reflexivity.
    + rewrite IH. reflexivity.
Qed.

Lemma mapSet_keys {V} (k : jsstring) (v : V) (m : list (jsstring * V)) :
  List.map fst (mapSet k v m)
  = match assoc k m with
    | Some _ => List.map fst m
    | None => List.map fst m ++ [k]
    end.
Proof.
  induction m as [|[k' x] m IH]; cbn [mapSet assoc List.map fst app]; [reflexivity|].
  destruct (str_eqb k k') eqn:Heq; cbn [List.map fst]; [reflexivity|].
  rewrite IH. destruct (assoc k m); reflexivity.
Qed.

Lemma trim_idempotent (s : jsstring) : trim (trim s) = trim s.
Proof. apply trim_fixed, trim_no_ws_at_ends. Qed.

(** The size that decides between two provisions. *)
Lemma dedupeStep_keys (byRef : list (jsstring * ProvisionSeed)) (p : ProvisionSeed) :
  NoDup (List.map fst byRef) ->
  NoDup (List.map fst (dedupeStep byRef p))
  /\ (length (dedupeStep byRef p) <= S (length byRef))%nat.
Proof.
  intros Hnd. unfold dedupeStep.
  destruct (assoc (trim (provision_ref p)) byRef) as [existing|] eqn:Hget.
  - destruct (_ <? _); [|split; [exact Hnd|lia]].
    split.
    + rewrite mapSet_keys, Hget. exact Hnd.
    + rewrite <- (length_map fst), mapSet_keys, Hget, length_map. lia.
  - split.
    + rewrite mapSet_keys, Hget. apply NoDup_app. split; [exact Hnd|]. split.
      * intros i Hi Hi'. apply list_elem_of_In in Hi, Hi'.
        destruct Hi' as [<-|[]]. apply assoc_None_keys in Hget. contradiction.
      * apply NoDup_singleton.
    + rewrite <- (length_map fst), mapSet_keys, Hget, length_app, length_map.
      cbn [length]. lia.
Qed.

Lemma dedupeStep_self (byRef : list (jsstring * ProvisionSeed)) (p : ProvisionSeed) :
  DedupShape.covered (dedupeStep byRef p) p.
Proof.
  unfold DedupShape.covered, dedupeStep.
  destruct (assoc (trim (provision_ref p)) byRef) as [existing|] eqn:Hget.
  - fold (DedupShape.size existing). fold (DedupShape.size p).
    destruct (Z.ltb_spec (DedupShape.size existing) (DedupShape.size p)).
    + eexists. split; [apply assoc_mapSet_eq|]. unfold DedupShape.size. cbn [content withRef]. lia.
    + exists existing. split; [exact Hget|lia].
  - eexists. split; [apply assoc_mapSet_eq|]. unfold DedupShape.size. cbn [content withRef]. lia.
Qed.

Lemma dedupeStep_mono (byRef : list (jsstring * ProvisionSeed)) (p q : ProvisionSeed)
    (k : jsstring) :
  assoc k byRef = Some q ->
  exists q', assoc k (dedupeStep byRef p) = Some q'
             /\ DedupShape.size q <= DedupShape.size q'.
Proof.
  intros Hk. unfold dedupeStep.
  destruct (assoc (trim (provision_ref p)) byRef) as [existing|] eqn:Hget.
  - fold (DedupShape.size existing). fold (DedupShape.size p).
    destruct (Z.ltb_spec (DedupShape.size existing) (DedupShape.size p)).
    + destruct (list_eq_dec k (trim (provision_ref p))) as [->|Hne].
      * rewrite Hk in Hget. injection Hget as ->.
        eexists. split; [apply assoc_mapSet_eq|]. unfold DedupShape.size in *. cbn [content withRef]. lia.
      * rewrite assoc_mapSet_ne by exact Hne. exists q. split; [exact Hk|lia].
    + exists q. split; [exact Hk|lia].
  - destruct (list_eq_dec k (trim (provision_ref p))) as [->|Hne]; [congruence|].
    rewrite assoc_mapSet_ne by exact Hne. exists q. split; [exact Hk|lia].
Qed.

Lemma dedupeStep_keyed (byRef : list (jsstring * ProvisionSeed))
    (seen : list ProvisionSeed) (p : ProvisionSeed) :
  DedupShape.keyed byRef seen ->
  DedupShape.keyed (dedupeStep byRef p) (seen ++ [p]).
Proof.
  intros Hkeyed k q.
  assert (Hold : forall q0, assoc k byRef = Some q0 ->
            provision_ref q0 = k
            /\ exists p0, In p0 (seen ++ [p]) /\ trim (provision_ref p0) = k
                          /\ content q0 = content p0 /\ section q0 = section p0).
  { intros q0 H0. destruct (Hkeyed k q0 H0) as [H1 [p0 [Hin Hrest]]].
    split; [exact H1|]. exists p0. split; [apply in_or_app; left; exact Hin|exact Hrest]. }
  assert (Hnew : forall t,
            provision_ref (withRef (trim (provision_ref p)) t p) = trim (provision_ref p)
            /\ exists p0, In p0 (seen ++ [p])
                 /\ trim (provision_ref p0) = trim (provision_ref p)
                 /\ content (withRef (trim (provision_ref p)) t p) = content p0
                 /\ section (withRef (trim (provision_ref p)) t p) = section p0).
  { intros t. split; [reflexivity|]. exists p.
    split; [apply in_or_app; right; left; reflexivity|]. auto. }
  unfold dedupeStep.
  destruct (assoc (trim (provision_ref p)) byRef) as [existing|] eqn:Hget.
  - destruct (_ <? _); [|apply Hold].
    destruct (list_eq_dec k (trim (provision_ref p))) as [->|Hne].
    + rewrite assoc_mapSet_eq. intros [= <-]. apply Hnew.
    + rewrite assoc_mapSet_ne by exact Hne. apply Hold.
  - destruct (list_eq_dec k (trim (provision_ref p))) as [->|Hne].
    + rewrite assoc_mapSet_eq. intros [= <-]. apply Hnew.
    + rewrite assoc_mapSet_ne by exact Hne. apply Hold.
Qed.

Lemma dedupe_fold (l : list ProvisionSeed) :
  forall (byRef : list (jsstring * ProvisionSeed)) (seen : list ProvisionSeed),
    NoDup (List.map fst byRef) ->
    DedupShape.keyed byRef seen ->
    (forall p, In p seen -> DedupShape.covered byRef p) ->
    let final := fold_left dedupeStep l byRef in
    NoDup (List.map fst final)
    /\ DedupShape.keyed final (seen ++ l)
    /\ (forall p, In p (seen ++ l) -> DedupShape.covered final p)
    /\ (length final <= length byRef + length l)%nat.
Proof.
  induction l as [|p l IH]; intros byRef seen Hnd Hkeyed Hcov; cbn [fold_left].
  - rewrite app_nil_r. cbv zeta. split; [exact Hnd|]. split; [exact Hkeyed|].
    split; [exact Hcov|]. cbn [length]. lia.
  - destruct (dedupeStep_keys byRef p Hnd) as [Hnd1 Hlen1].
    specialize (IH (dedupeStep byRef p) (seen ++ [p]) Hnd1
                  (dedupeStep_keyed byRef seen p Hkeyed)).
    rewrite <- app_assoc in IH. cbn [app] in IH.
    destruct IH as [H1 [H2 [H3 H4]]].
    + intros p0 Hin. apply in_app_or in Hin as [Hin|[<-|[]]].
      * destruct (Hcov p0 Hin) as [q [Hq Hle]].
        destruct (dedupeStep_mono byRef p q _ Hq) as [q' [Hq' Hle']].
        exists q'. split; [exact Hq'|lia].
      * apply dedupeStep_self.
    + cbv zeta. split; [exact H1|]. split; [exact H2|]. split; [exact H3|].
      cbn [length]. lia.
Qed.

Lemma dedupe_facts (provisions : list ProvisionSeed) :
  let final := fold_left dedupeStep provisions [] in
  NoDup (List.map fst final)
  /\ DedupShape.keyed final provisions
  /\ (forall p, In p provisions -> DedupShape.covered final p)
  /\ (length final <= length provisions)%nat.
Proof.
  destruct (dedupe_fold provisions [] []) as [H1 [H2 [H3 H4]]].
  - constructor.
  - intros k q Hk. discriminate.
  - intros p [].
  - cbn [app length Nat.add] in *. cbv zeta. auto.
Qed.

Lemma dedupe_refs (provisions : list ProvisionSeed) :
  List.map provision_ref (dedupeProvisions provisions)
  = List.map fst (fold_left dedupeStep provisions []).
Proof.
  destruct (dedupe_facts provisions) as [Hnd [Hkeyed _]].
  unfold dedupeProvisions. rewrite List.map_map.
  apply List.map_ext_in. intros [k q] Hin. cbn [fst snd].
  apply In_assoc in Hin; [|exact Hnd]. apply Hkeyed in Hin as [Href _]. exact Href.
Qed.

(** X19: after deduplication no two provisions share a ref; every ref is
    trimmed; every survivor carries the content and the label of an input
    provision with that ref; and no provision is invented: the output is
    never longer than the input. *)
Theorem dedupeProvisions_unique (provisions : list ProvisionSeed) :
  let out := dedupeProvisions provisions in
  NoDup (List.map provision_ref out)
  /\ (forall q, In q out ->
        no_ws_at_ends (provision_ref q)
        /\ exists p, In p provisions
                     /\ provision_ref q = trim (provision_ref p)
                     /\ content q = content p /\ section q = section p)
  /\ (length out <= length provisions)%nat.
Proof.
  cbv zeta. destruct (dedupe_facts provisions) as [Hnd [Hkeyed [_ Hlen]]].
  split; [rewrite dedupe_refs; exact Hnd|]. split.
  - intros q Hq. unfold dedupeProvisions in Hq. apply in_map_iff in Hq as [[k q'] [<- Hin]].
    cbn [snd]. apply In_assoc in Hin; [|exact Hnd].
    destruct (Hkeyed k q' Hin) as [Href [p [Hp [Htrim [Hc Hs]]]]].
    split.
    + rewrite Href, <- Htrim. apply trim_no_ws_at_ends.
    + exists p. repeat split; auto. congruence.
  - unfold dedupeProvisions. rewrite length_map. exact Hlen.
Qed.

(** X20: deduplication never loses the longest text: for every input
    provision there is a survivor with the same trimmed ref whose
    whitespace-normalised content is at least as long. *)
Theorem dedupeProvisions_keeps_longest (provisions : list ProvisionSeed) :
  forall p, In p provisions ->
    exists q,
      In q (dedupeProvisions provisions)
      /\ provision_ref q = trim (provision_ref p)
      /\ strlen (normalizeWhitespace (content p))
         <= strlen (normalizeWhitespace (content q)).
Proof.
  intros p Hp. destruct (dedupe_facts provisions) as [Hnd [Hkeyed [Hcov _]]].
  destruct (Hcov p Hp) as [q [Hq Hle]]. exists q. split; [|split].
  - unfold dedupeProvisions. apply in_map_iff. exists (trim (provision_ref p), q).
    split; [reflexivity|apply assoc_In, Hq].
  - apply Hkeyed in Hq as [Href _]. exact Href.
  - exact Hle.
Qed.

Lemma dedupeProvisions_keeps_longest_witness :
  exists q,
    In q (dedupeProvisions [ Samples.provision "art-1" None "A";
                             Samples.provision " art-1" None "ABCDE" ])
    /\ provision_ref q = trim (js " art-1")
    /\ strlen (normalizeWhitespace (js "ABCDE"))
       <= strlen (normalizeWhitespace (content q)).
Proof.
  apply (dedupeProvisions_keeps_longest
           [ Samples.provision "art-1" None "A";
             Samples.provision " art-1" None "ABCDE" ]
           (Samples.provision " art-1" None "ABCDE")).
  right. left. reflexivity.
Defined.

End DedupGeneral.

(** ** Loading seeds into the store *)

Section LoadSeeds.
Import Sys Store BuildDb StoreShape.
Local Open Scope Z_scope.

Lemma hasDocument_In (i : jsstring) (db : Db) :
  hasDocument i db = true <-> In i (List.map d_id (legal_documents db)).
Proof.
  unfold hasDocument. rewrite existsb_exists. split.
  - intros [row [Hin Heq]]. apply str_eqb_eq in Heq. subst i.
    apply in_map, Hin.
  - intros Hin. apply in_map_iff in Hin as [row [<- Hin]].
    exists row. split; [exact Hin|apply str_eqb_refl].
Qed.

Lemma insertProvisions_ok (seed : DocumentSeed) (ps : list ProvisionSeed) :
  forall db,
    NoDup (List.map provision_ref ps) ->
    hasDocument (id seed) db = true ->
    (forall row, In row (legal_provisions db) ->
       p_document_id row = id seed ->
       ~ In (p_provision_ref row) (List.map provision_ref ps)) ->
    runAll (fun prov => insertProvision (provisionRow seed prov)) ps db
    = Ok (set_provisions (legal_provisions db ++ List.map (provisionRow seed) ps) db).
Proof.
  induction ps as [|p ps IH]; intros db Hnd Hdoc Hfree; cbn [runAll List.map].
  - rewrite app_nil_r. destruct db; reflexivity.
  - apply NoDup_cons in Hnd as [Hnotin Hnd].
    unfold insertProvision at 1. cbn [p_document_id p_provision_ref provisionRow].
    destruct (existsb _ (legal_provisions db)) eqn:Hex.
    + exfalso. apply existsb_exists in Hex as [row [Hin Hboth]].
      apply andb_true_iff in Hboth as [H1 H2].
      apply str_eqb_eq in H1, H2.
      apply (Hfree row Hin H1). rewrite H2. left. reflexivity.
    + rewrite Hdoc. cbn [negb].
      rewrite IH.
      * cbn [legal_provisions set_provisions]. rewrite <- app_assoc.
        destruct db; reflexivity.
      * exact Hnd.
      * unfold hasDocument in *. cbn [legal_documents set_provisions]. exact Hdoc.
      * cbn [legal_provisions set_provisions]. intros row Hin Hid Href.
        apply in_app_or in Hin as [Hin|[<-|[]]].
        -- apply (Hfree row Hin Hid). right. exact Href.
        -- cbn [p_provision_ref provisionRow] in Href. apply Hnotin.
           apply list_elem_of_In. exact Href.
Qed.

Lemma insertEuReference_tables (row : EuReferenceRow) (db db' : Db) :
  insertEuReference row db = Ok db' ->
  legal_documents db' = legal_documents db
  /\ legal_provisions db' = legal_provisions db
  /\ eu_documents db' = eu_documents db
  /\ db_metadata db' = db_metadata db.
Proof.
  unfold insertEuReference.
  destruct (match r_eu_article row with Some _ => _ | None => _ end).
  - intros [= <-]. auto.
  - destruct (_ || _); [discriminate|]. intros [= <-]. auto.
Qed.

Lemma dedupe_nil : dedupeProvisions [] = [].
Proof. reflexivity. Qed.

(** Loading a seed whose values can be bound and whose id is new always
    succeeds. *)
Lemma loadSeedFile_succeeds (now : Z) (seed : DocumentSeed) (st : Stats) (db : Db) :
  bindable seed = true ->
  hasDocument (id seed) db = false ->
  fkClosed db ->
  exists st' db',
    loadSeedFile now (SeedJson seed) (st, db) = Ok (st', db')
    /\ legal_documents db' = legal_documents db ++ [documentRow seed]
    /\ legal_provisions db' = legal_provisions db ++ rowsOf seed
    /\ eu_documents db' = eu_documents db
    /\ db_metadata db' = db_metadata db
    /\ totalDocs st' = totalDocs st + 1
    /\ totalProvisions st' = totalProvisions st + arrlen (rowsOf seed)
    /\ totalEuDocuments st' = totalEuDocuments st
    /\ fkClosed db'.
Proof.
  intros Hbind Hnew Hfk.
  assert (Hclosed : forall db',
            legal_documents db' = legal_documents db ++ [documentRow seed] ->
            legal_provisions db' = legal_provisions db ++ rowsOf seed ->
            fkClosed db').
  { intros db' Hd Hp row Hin. rewrite Hd, List.map_app, in_app_iff.
    rewrite Hp in Hin. apply in_app_or in Hin as [Hin|Hin].
    - left. apply Hfk, Hin.
    - right. unfold rowsOf in Hin. apply in_map_iff in Hin as [prov [<- _]].
      left. reflexivity. }
  unfold loadSeedFile, bindDoc, insertDoc. cbn [d_id documentRow].
  rewrite Hbind, Hnew.
  set (db1 := set_documents _ db).
  assert (Hrows : provisions seed = None \/ provisions seed = Some []
                  -> rowsOf seed = []).
  { unfold rowsOf, provisionsOf. intros [->| ->]; reflexivity. }
  destruct (provisions seed) as [[|prov provs]|] eqn:Hprovs.
  - eexists _, db1. split; [reflexivity|]. rewrite Hrows by auto.
    subst db1. cbn. rewrite app_nil_r.
    repeat split;
      first [ reflexivity | unfold arrlen; cbn; lia
            | apply Hclosed; cbn; rewrite ?Hrows, ?app_nil_r by auto; reflexivity ].
  - set (deduped := dedupeProvisions (prov :: provs)).
    assert (Hrowsof : rowsOf seed = List.map (provisionRow seed) deduped).
    { unfold rowsOf, provisionsOf. rewrite Hprovs. reflexivity. }
    rewrite (insertProvisions_ok seed deduped db1).
    + set (db2 := set_provisions _ db1).
      assert (Hd2 : legal_documents db2 = legal_documents db ++ [documentRow seed])
        by reflexivity.
      assert (Hp2 : legal_provisions db2 = legal_provisions db ++ rowsOf seed)
        by (rewrite Hrowsof; reflexivity).
      assert (Hlen : arrlen deduped = arrlen (rowsOf seed)).
      { rewrite Hrowsof. unfold arrlen. rewrite length_map. reflexivity. }
      assert (He2 : eu_documents db2 = eu_documents db) by reflexivity.
      assert (Hm2 : db_metadata db2 = db_metadata db) by reflexivity.
      clearbody deduped db2.
      destruct (mentionsPipa seed).
      * destruct (insertEuReference (gdprReference seed now) db2) as [db3|e] eqn:Href.
        -- apply insertEuReference_tables in Href as [H1 [H2 [H3 H4]]].
           eexists _, db3. split; [reflexivity|]. cbn.
           rewrite H1, H2, H3, H4, Hd2, Hp2.
           repeat split;
             first [ assumption | reflexivity | unfold arrlen in *; lia
                   | apply Hclosed; congruence ].
        -- eexists _, db2. split; [reflexivity|]. cbn.
           repeat split;
          first [ assumption | reflexivity | unfold arrlen in *; lia
                | apply Hclosed; assumption ].
      * eexists _, db2. split; [reflexivity|]. cbn.
        repeat split;
          first [ assumption | reflexivity | unfold arrlen in *; lia
                | apply Hclosed; assumption ].
    + subst deduped. rewrite dedupe_refs.
      apply (proj1 (dedupe_facts (prov :: provs))).
    + apply hasDocument_In. subst db1. cbn. rewrite List.map_app, in_app_iff.
      right. left. reflexivity.
    + subst db1. cbn [legal_provisions set_documents]. intros row Hin Hid _.
      apply Hfk in Hin. rewrite Hid in Hin. apply hasDocument_In in Hin. congruence.
  - eexists _, db1. split; [reflexivity|]. rewrite Hrows by auto.
    subst db1. cbn. rewrite app_nil_r.
    repeat split;
      first [ reflexivity | unfold arrlen; cbn; lia
            | apply Hclosed; cbn; rewrite ?Hrows, ?app_nil_r by auto; reflexivity ].
Qed.

End LoadSeeds.

Section RebuildOutcome.
Import Sys Store BuildDb StoreShape.
Local Open Scope Z_scope.

Lemma loadSeedFiles_distinct (now : Z) (seeds : list DocumentSeed) :
  forall st db,
    forallb bindable seeds = true ->
    NoDup (List.map id seeds) ->
    (forall seed, In seed seeds -> hasDocument (id seed) db = false) ->
    fkClosed db ->
    exists st' db',
      loadSeedFiles now (List.map SeedJson seeds) (st, db) = Ok (st', db')
      /\ legal_documents db' = legal_documents db ++ List.map documentRow seeds
      /\ legal_provisions db' = legal_provisions db ++ flat_map rowsOf seeds
      /\ eu_documents db' = eu_documents db
      /\ db_metadata db' = db_metadata db
      /\ totalDocs st' = totalDocs st + arrlen seeds
      /\ totalProvisions st' = totalProvisions st + arrlen (flat_map rowsOf seeds)
      /\ totalEuDocuments st' = totalEuDocuments st.
Proof.
  induction seeds as [|seed seeds IH]; intros st db Hbind Hnd Hnew Hfk;
    cbn [List.map loadSeedFiles flat_map].
  - exists st, db. rewrite !app_nil_r. unfold arrlen. cbn.
    repeat split; first [reflexivity | lia].
  - apply NoDup_cons in Hnd as [Hnotin Hnd].
    cbn [forallb] in Hbind. apply andb_true_iff in Hbind as [Hbind1 Hbind].
    destruct (loadSeedFile_succeeds now seed st db) as
      [st1 [db1 [Hone [Hd [Hp [He [Hm [Hc [Hq [Hu Hfk1]]]]]]]]]];
      [exact Hbind1|apply Hnew; left; reflexivity|exact Hfk|].
    rewrite Hone.
    destruct (IH st1 db1 Hbind Hnd) as [st2 [db2 [Hrest [Hd2 [Hp2 [He2 [Hm2 [Hc2 [Hq2 Hu2]]]]]]]]].
    + intros other Hin.
      destruct (hasDocument (id other) db1) eqn:Hhas; [|reflexivity].
      exfalso. apply hasDocument_In in Hhas. rewrite Hd, List.map_app, in_app_iff in Hhas.
      destruct Hhas as [Hold|[Heq|[]]].
      * apply hasDocument_In in Hold. rewrite Hnew in Hold by (right; exact Hin).
        discriminate.
      * cbn [d_id documentRow] in Heq. apply Hnotin. rewrite Heq.
        apply list_elem_of_In, in_map, Hin.
    + exact Hfk1.
    + exists st2, db2. split; [exact Hrest|].
      rewrite Hd2, Hp2, He2, Hm2, Hc2, Hq2, Hu2, Hd, Hp, He, Hm, Hc, Hq, Hu.
      rewrite <- !app_assoc. unfold arrlen. rewrite !length_app. cbn [length app].
      repeat split; first [reflexivity | lia].
Qed.

Lemma runAll_provisions_tables (seed : DocumentSeed) (provs : list ProvisionSeed) :
  forall db db',
    runAll (fun prov => insertProvision (provisionRow seed prov)) provs db = Ok db' ->
    eu_documents db' = eu_documents db /\ db_metadata db' = db_metadata db.
Proof.
  induction provs as [|prov provs IH]; intros db db'; cbn [runAll].
  - intros [= <-]. auto.
  - destruct (insertProvision (provisionRow seed prov) db) as [db1|e] eqn:Hins;
      [|discriminate].
    intros Hrest. apply IH in Hrest as [-> ->].
    unfold insertProvision in Hins.
    destruct (existsb _ _); [discriminate|].
    destruct (negb _); [discriminate|].
    injection Hins as <-. auto.
Qed.

(** Whatever a seed file holds, loading it touches neither [eu_documents]
    nor [db_metadata], and counts one document. *)
Lemma loadSeedFile_tables (now : Z) (file : SeedFile) (st st' : Stats) (db db' : Db) :
  loadSeedFile now file (st, db) = Ok (st', db') ->
  eu_documents db' = eu_documents db
  /\ db_metadata db' = db_metadata db
  /\ totalDocs st' = totalDocs st + 1
  /\ arrlen (legal_documents db') = arrlen (legal_documents db) + 1.
Proof.
  intros Hload.
  destruct file as [seed|raw]; [|discriminate].
  assert (Hlen : arrlen (legal_documents db') = arrlen (legal_documents db) + 1).
  { apply loadSeedFile_ok in Hload as [_ ->]. unfold arrlen.
    rewrite length_app. cbn [length]. lia. }
  revert Hload. unfold loadSeedFile, bindDoc, insertDoc. cbn [d_id documentRow].
  destruct (bindable seed); [|discriminate].
  destruct (hasDocument (id seed) db); [discriminate|].
  destruct (provisions seed) as [[|prov provs]|].
  - intros [= <- <-]. cbn. auto.
  - destruct (runAll _ _ _) as [db1|e] eqn:Hprovs; [|discriminate].
    apply runAll_provisions_tables in Hprovs as [He Hm].
    cbn [eu_documents db_metadata set_documents] in He, Hm.
    destruct (mentionsPipa seed).
    + destruct (insertEuReference _ db1) as [db2|e] eqn:Href.
      * apply insertEuReference_tables in Href as [_ [_ [He2 Hm2]]].
        intros [= <- <-]. cbn. repeat split; congruence.
      * intros [= <- <-]. cbn. auto.
    + intros [= <- <-]. cbn. auto.
  - intros [= <- <-]. cbn. auto.
Qed.

Lemma loadSeedFiles_tables (now : Z) (files : list SeedFile) :
  forall st db st' db',
    loadSeedFiles now files (st, db) = Ok (st', db') ->
    eu_documents db' = eu_documents db
    /\ db_metadata db' = db_metadata db
    /\ totalDocs st' = totalDocs st + arrlen files
    /\ arrlen (legal_documents db') = arrlen (legal_documents db) + arrlen files.
Proof.
  induction files as [|file files IH]; intros st db st' db'; cbn [loadSeedFiles].
  - intros [= <- <-]. unfold arrlen. cbn. repeat split; lia.
  - destruct (loadSeedFile now file (st, db)) as [[st1 db1]|e] eqn:Hone; [|discriminate].
    intros Hrest. apply IH in Hrest as [He [Hm [Hc Hl]]].
    apply loadSeedFile_tables in Hone as [He1 [Hm1 [Hc1 Hl1]]].
    rewrite He, Hm, Hc, Hl, He1, Hm1, Hc1, Hl1.
    unfold arrlen. cbn [length]. repeat split; lia.
Qed.

(** On a store without metadata the seven inserts of [writeMetadata] all
    go through. *)
Lemma writeMetadata_fresh (builtAt : Z) (db : Db) :
  db_metadata db = [] ->
  exists db',
    writeMetadata builtAt db = (Ok tt, db')
    /\ List.map fst (db_metadata db') = metadataKeys
    /\ legal_documents db' = legal_documents db
    /\ legal_provisions db' = legal_provisions db
    /\ eu_documents db' = eu_documents db.
Proof.
  destruct db as [docs provs eus refs meta journal isClosed].
  cbn [db_metadata]. intros ->.
  eexists. split; [vm_compute; reflexivity|].
  repeat split; vm_compute; reflexivity.
Qed.

Lemma loadAll_tables (now : Z) (files : list SeedFile) (st : Stats) (db : Db) :
  loadAll now files freshDb = Ok (st, db) ->
  List.map e_id (eu_documents db) = euDocumentIds
  /\ db_metadata db = []
  /\ totalDocs st = arrlen files
  /\ arrlen (legal_documents db) = arrlen files.
Proof.
  unfold loadAll. intros Hload.
  apply loadSeedFiles_tables in Hload as [-> [-> [-> ->]]].
  repeat split; reflexivity.
Qed.

(** [buildDatabase] is the load of the listed seed files into an empty
    store, followed by the metadata and the closing of the file. *)
Lemma buildDatabase_run (w : World) :
  let files := seedFilesOf (default ∅ (seedDir w)) in
  match loadAll (now w) files freshDb with
  | Throw e => buildDatabase w = (Throw e, set_database (Some freshDb) w)
  | Ok (stats, db) =>
      exists db',
        buildDatabase w
        = (Ok (match files with [] => noStats | _ => stats end),
           set_database (Some (finalizeDb db')) w)
        /\ List.map fst (db_metadata db') = metadataKeys
        /\ legal_documents db' = legal_documents db
        /\ legal_provisions db' = legal_provisions db
        /\ eu_documents db' = eu_documents db
  end.
Proof.
  cbv zeta. unfold buildDatabase.
  rewrite bind_modify, bind_gets, bind_gets.
  cbn [seedDir now set_database].
  assert (Hempty : exists db',
            writeMetadata (now w) (insertDefaultEuDocuments freshDb) = (Ok tt, db')
            /\ List.map fst (db_metadata db') = metadataKeys
            /\ legal_documents db' = legal_documents (insertDefaultEuDocuments freshDb)
            /\ legal_provisions db' = legal_provisions (insertDefaultEuDocuments freshDb)
            /\ eu_documents db' = eu_documents (insertDefaultEuDocuments freshDb))
    by (apply writeMetadata_fresh; reflexivity).
  assert (Hnone : seedFilesOf (∅ : gmap jsstring SeedFile) = []) by reflexivity.
  destruct (seedDir w) as [dir|].
  - change (default ∅ (Some dir)) with dir.
    destruct (seedFilesOf dir) as [|file files] eqn:Hfiles.
    + change (loadAll (now w) [] freshDb)
        with (Ok ({| totalDocs := 0; totalProvisions := 0; totalEuDocuments := 3;
                     totalEuReferences := 0; emptyDocs := 0 |},
                  insertDefaultEuDocuments freshDb)).
      cbv beta iota.
      destruct Hempty as [db' [Hwrite Hrest]]. exists db'.
      rewrite Hwrite. split; [reflexivity|exact Hrest].
    + unfold transaction.
      destruct (loadAll (now w) (file :: files) freshDb) as [[stats db]|e] eqn:Hload.
      * destruct (loadAll_tables _ _ _ _ Hload) as [_ [Hmeta _]].
        destruct (writeMetadata_fresh (now w) db Hmeta) as [db' [Hwrite Hrest]].
        exists db'. rewrite Hwrite. split; [reflexivity|exact Hrest].
      * reflexivity.
  - change (default ∅ (@None (gmap jsstring SeedFile)))
      with (∅ : gmap jsstring SeedFile).
    rewrite Hnone.
    change (loadAll (now w) [] freshDb)
      with (Ok ({| totalDocs := 0; totalProvisions := 0; totalEuDocuments := 3;
                   totalEuReferences := 0; emptyDocs := 0 |},
                insertDefaultEuDocuments freshDb)).
    cbv beta iota.
    destruct Hempty as [db' [Hwrite Hrest]]. exists db'.
    rewrite Hwrite. split; [reflexivity|exact Hrest].
Qed.

(** X21: when the seed directory holds well-formed seeds (every
    [short_name] a string or absent) with pairwise
    distinct ids (a missing directory counting as an empty one), the
    rebuild succeeds; the database then holds exactly one document row per
    seed, in the order the files are listed, and for each seed the rows of
    its deduplicated provisions; the counters it reports are the numbers of
    rows it wrote, and the file is closed. *)
Theorem buildDatabase_distinct_seeds (w : World) (seeds : list DocumentSeed) :
  seedFilesOf (default ∅ (seedDir w)) = List.map SeedJson seeds ->
  forallb bindable seeds = true ->
  NoDup (List.map id seeds) ->
  exists stats db,
    buildDatabase w = (Ok stats, set_database (Some db) w)
    /\ legal_documents db = List.map documentRow seeds
    /\ legal_provisions db = flat_map rowsOf seeds
    /\ totalDocs stats = arrlen (legal_documents db)
    /\ totalProvisions stats = arrlen (legal_provisions db)
    /\ closed db = true.
Proof.
  intros Hfiles Hbind Hnd.
  pose proof (buildDatabase_run w) as Hrun. cbv zeta in Hrun.
  rewrite Hfiles in Hrun. unfold loadAll in Hrun.
  destruct (loadSeedFiles_distinct (now w) seeds
              {| totalDocs := 0; totalProvisions := 0; totalEuDocuments := 3;
                 totalEuReferences := 0; emptyDocs := 0 |}
              (insertDefaultEuDocuments freshDb) Hbind Hnd)
    as [st [db [Hload [Hd [Hp [_ [_ [Hc [Hq _]]]]]]]]].
  - intros seed _. reflexivity.
  - intros row [].
  - rewrite Hload in Hrun. destruct Hrun as [db' [Hbuild [_ [Hd' [Hp' _]]]]].
    eexists _, (finalizeDb db'). split; [exact Hbuild|].
    cbn [finalizeDb set_journal legal_documents legal_provisions closed].
    rewrite Hd', Hp', Hd, Hp. cbn [legal_documents legal_provisions app
      insertDefaultEuDocuments].
    change (legal_documents (insertDefaultEuDocuments freshDb)) with (@nil DocumentRow).
    change (legal_provisions (insertDefaultEuDocuments freshDb)) with (@nil ProvisionRow).
    cbn [app].
    destruct seeds as [|seed seeds].
    + repeat split; reflexivity.
    + unfold arrlen in *. rewrite length_map.
      cbn [totalDocs totalProvisions] in Hc, Hq.
      cbn [List.map]. cbv iota. repeat split; lia.
Qed.

Lemma buildDatabase_distinct_seeds_witness :
  exists stats db,
    buildDatabase RebuildSamples.seedWorld
    = (Ok stats, set_database (Some db) RebuildSamples.seedWorld)
    /\ legal_documents db
       = List.map documentRow [RebuildSamples.seedA; RebuildSamples.seedB]
    /\ legal_provisions db
       = flat_map rowsOf [RebuildSamples.seedA; RebuildSamples.seedB]
    /\ totalDocs stats = arrlen (legal_documents db)
    /\ totalProvisions stats = arrlen (legal_provisions db)
    /\ closed db = true.
Proof.
  assert (Hfiles : seedFilesOf (default ∅ (seedDir RebuildSamples.seedWorld))
                   = List.map SeedJson [RebuildSamples.seedA; RebuildSamples.seedB])
    by (vm_compute; reflexivity).
  assert (Hnd : NoDup (List.map id [RebuildSamples.seedA; RebuildSamples.seedB])).
  { apply NoDup_cons. split; [|apply NoDup_singleton].
    intros Hin. apply list_elem_of_singleton in Hin. vm_compute in Hin. discriminate. }
  exact (buildDatabase_distinct_seeds RebuildSamples.seedWorld
           [RebuildSamples.seedA; RebuildSamples.seedB] Hfiles eq_refl Hnd).
Defined.

(** A seed that the content phase itself writes and that cannot be
    loaded: for a law titled [__proto__] the short name is the prototype
    object, which is written as an empty object and then taken for a set
    of named parameters; the rebuild raises and leaves the empty schema. *)
Example prototype_titled_law :
  let P := Samples.fixedParser RebuildSamples.protoDoc in
  let w := Samples.world (fun _ _ => Reply (Samples.statusOnly 200)) in
  let w1 := snd (@Ingest.fetchAndParseLaws P [RebuildSamples.protoEntry] None w) in
  (exists seed,
     seedAt w1 (Ingest.seedFile RebuildSamples.protoEntry) = Some (SeedJson seed)
     /\ short_name seed = Some NameObject)
  /\ fst (buildDatabase w1) = Throw tooFewValues
  /\ database (snd (buildDatabase w1)) = Some freshDb.
Proof.
  intros P w w1. split.
  - eexists. split; [vm_compute; reflexivity|reflexivity].
  - split; vm_compute; reflexivity.
Qed.

(** X22: whatever the seed directory holds, a rebuild starts from an empty
    store: its result does not depend on the database that was there
    before.  When it fails, the database left behind is the empty schema
    (the previous content is gone); when it succeeds, the database is
    closed in journal mode DELETE, carries exactly the seven metadata keys
    and the three default EU documents, and the reported number of
    documents is the number of document rows. *)
Theorem buildDatabase_outcome (w : World) :
  (forall previous, buildDatabase (set_database previous w) = buildDatabase w)
  /\ seedDir (snd (buildDatabase w)) = seedDir w
  /\ indexFile (snd (buildDatabase w)) = indexFile w
  /\ match fst (buildDatabase w) with
     | Throw _ => database (snd (buildDatabase w)) = Some freshDb
     | Ok stats =>
         exists db,
           database (snd (buildDatabase w)) = Some db
           /\ closed db = true
           /\ journal_mode db = DELETE
           /\ List.map fst (db_metadata db) = metadataKeys
           /\ List.map e_id (eu_documents db) = euDocumentIds
           /\ totalDocs stats = arrlen (legal_documents db)
     end.
Proof.
  split; [intros previous; reflexivity|].
  pose proof (buildDatabase_run w) as Hrun. cbv zeta in Hrun.
  destruct (loadAll (now w) (seedFilesOf (default ∅ (seedDir w))) freshDb)
    as [[stats db]|e] eqn:Hload.
  - destruct Hrun as [db' [-> [Hkeys [Hd [_ He]]]]].
    cbn [fst snd seedDir indexFile database set_database].
    split; [reflexivity|]. split; [reflexivity|].
    exists (finalizeDb db').
    cbn [finalizeDb set_journal closed journal_mode db_metadata eu_documents
         legal_documents].
    destruct (loadAll_tables _ _ _ _ Hload) as [Heu [_ [Hc Hl]]].
    rewrite Hd, He, Hl.
    repeat split; try assumption; try reflexivity.
    destruct (seedFilesOf (default ∅ (seedDir w))); [reflexivity|exact Hc].
  - rewrite Hrun. cbn [fst snd seedDir indexFile database set_database].
    repeat split; reflexivity.
Qed.

End RebuildOutcome.

(** ** The limit of the content phase *)

Section ContentLimit.
Import Sys Parser Ingest.
Local Open Scope Z_scope.

(** X23: with [--limit n], [n] positive, the content phase processes the
    first [n] laws of the index (all of them when the index is shorter) and
    sends at most [4 * n] requests; with a limit of zero it processes the
    whole index, as without a limit. *)
Theorem fetchAndParseLaws_limit `{XMLParser} (laws : list LawIndexEntry) (n : Z) (w : World) :
  0 <= n ->
  exists c w',
    fetchAndParseLaws laws (Some n) w = (Ok c, w')
    /\ toProcess laws (Some n) = (if n =? 0 then laws else take (Z.to_nat n) laws)
    /\ processed c = (if n =? 0 then arrlen laws else Z.min n (arrlen laws))
    /\ (0 < n -> (sent w' <= sent w + 4 * Z.to_nat n)%nat).
Proof.
  intros Hn.
  destruct (fetchAndParseLaws_effect laws (Some n) w)
    as [c [w' [dir' [Hrun [Hproc [_ [_ [_ [_ [_ [_ [_ [_ Hsent]]]]]]]]]]]]].
  exists c, w'. split; [exact Hrun|].
  assert (Hsel : toProcess laws (Some n)
                 = (if n =? 0 then laws else take (Z.to_nat n) laws)).
  { unfold toProcess. destruct (n =? 0) eqn:Hz; [reflexivity|].
    apply Z.eqb_neq in Hz. destruct (0 <? n) eqn:Hpos; [reflexivity|].
    apply Z.ltb_ge in Hpos. lia. }
  split; [exact Hsel|].
  rewrite Hsel in Hproc, Hsent. rewrite Hproc.
  destruct (n =? 0) eqn:Hz.
  - split; [reflexivity|]. apply Z.eqb_eq in Hz. lia.
  - unfold arrlen in *. rewrite length_take in *. split; lia.
Qed.

Lemma fetchAndParseLaws_limit_witness :
  exists c w',
    @fetchAndParseLaws (Samples.fixedParser Samples.lawDoc)
      [ Samples.entry "개인정보 보호법" "1001" "10465";
        Samples.entry "전자정부법" "1002" "17980" ] (Some 1)
      (Samples.world (fun _ _ => Reply (Samples.statusOnly 404))) = (Ok c, w')
    /\ toProcess [ Samples.entry "개인정보 보호법" "1001" "10465";
                   Samples.entry "전자정부법" "1002" "17980" ] (Some 1)
       = (if 1 =? 0
          then [ Samples.entry "개인정보 보호법" "1001" "10465";
                 Samples.entry "전자정부법" "1002" "17980" ]
          else take (Z.to_nat 1)
                 [ Samples.entry "개인정보 보호법" "1001" "10465";
                   Samples.entry "전자정부법" "1002" "17980" ])
    /\ processed c
       = (if 1 =? 0
          then arrlen [ Samples.entry "개인정보 보호법" "1001" "10465";
                        Samples.entry "전자정부법" "1002" "17980" ]
          else Z.min 1 (arrlen [ Samples.entry "개인정보 보호법" "1001" "10465";
                                 Samples.entry "전자정부법" "1002" "17980" ]))
    /\ (0 < 1 ->
        (sent w' <= sent (Samples.world (fun _ _ => Reply (Samples.statusOnly 404)))
                    + 4 * Z.to_nat 1)%nat).
Proof.
  apply (@fetchAndParseLaws_limit (Samples.fixedParser Samples.lawDoc)
           [ Samples.entry "개인정보 보호법" "1001" "10465";
             Samples.entry "전자정부법" "1002" "17980" ] 1
           (Samples.world (fun _ _ => Reply (Samples.statusOnly 404)))).
  lia.
Defined.

End ContentLimit.

(** ** Default EU documents and metadata *)

Section StoreWrites.
Import Sys Store BuildDb StoreShape.
Local Open Scope Z_scope.

Lemma insertEuDocument_present (row : EuDocumentRow) (db : Db) :
  existsb (fun r => str_eqb (e_id r) (e_id row))
          (eu_documents (insertEuDocument row db)) = true.
Proof.
  unfold insertEuDocument.
  destruct (existsb _ (eu_documents db)) eqn:Hex; [exact Hex|].
  cbn [eu_documents set_eu_documents]. rewrite existsb_app. cbn [existsb].
  rewrite str_eqb_refl, orb_true_r. reflexivity.
Qed.

Lemma insertEuDocument_keeps (row other : EuDocumentRow) (db : Db) :
  existsb (fun r => str_eqb (e_id r) (e_id other)) (eu_documents db) = true ->
  existsb (fun r => str_eqb (e_id r) (e_id other))
          (eu_documents (insertEuDocument row db)) = true.
Proof.
  intros Hin. unfold insertEuDocument.
  destruct (existsb (fun r => str_eqb (e_id r) (e_id row)) (eu_documents db));
    [exact Hin|].
  cbn [eu_documents set_eu_documents]. rewrite existsb_app, Hin. reflexivity.
Qed.

Lemma insertEuDocument_ignored (row : EuDocumentRow) (db : Db) :
  existsb (fun r => str_eqb (e_id r) (e_id row)) (eu_documents db) = true ->
  insertEuDocument row db = db.
Proof. intros Hin. unfold insertEuDocument. rewrite Hin. reflexivity. Qed.

Lemma insertEuDocument_appends (row : EuDocumentRow) (db : Db) :
  exists added,
    insertEuDocument row db = set_eu_documents (eu_documents db ++ added) db
    /\ (length added <= 1)%nat.
Proof.
  unfold insertEuDocument. destruct (existsb _ _).
  - exists []. rewrite app_nil_r. split; [destruct db; reflexivity|cbn; lia].
  - exists [row]. split; [reflexivity|cbn; lia].
Qed.

(** X24: the default EU documents are inserted with INSERT OR IGNORE:
    [insertDefaultEuDocuments] only appends to [eu_documents], at most
    three rows, leaves every other table as it is, and running it a second
    time changes nothing. *)
Theorem insertDefaultEuDocuments_idempotent (db : Db) :
  insertDefaultEuDocuments (insertDefaultEuDocuments db) = insertDefaultEuDocuments db
  /\ exists added,
       insertDefaultEuDocuments db = set_eu_documents (eu_documents db ++ added) db
       /\ (length added <= 3)%nat
       /\ forall i, In i euDocumentIds ->
            In i (List.map e_id (eu_documents (insertDefaultEuDocuments db))).
Proof.
  unfold insertDefaultEuDocuments.
  set (gdpr := euDocument "regulation:2016/679" _ _ _ _ _ _ _).
  set (nis2 := euDocument "directive:2022/2555" _ _ _ _ _ _ _).
  set (aiAct := euDocument "regulation:2024/1689" _ _ _ _ _ _ _).
  set (db1 := insertEuDocument gdpr db).
  set (db2 := insertEuDocument nis2 db1).
  set (db3 := insertEuDocument aiAct db2).
  assert (Hg : existsb (fun r => str_eqb (e_id r) (e_id gdpr)) (eu_documents db3) = true).
  { apply insertEuDocument_keeps, insertEuDocument_keeps, insertEuDocument_present. }
  assert (Hn : existsb (fun r => str_eqb (e_id r) (e_id nis2)) (eu_documents db3) = true).
  { apply insertEuDocument_keeps, insertEuDocument_present. }
  assert (Ha : existsb (fun r => str_eqb (e_id r) (e_id aiAct)) (eu_documents db3) = true).
  { apply insertEuDocument_present. }
  split.
  - rewrite (insertEuDocument_ignored gdpr db3 Hg).
    rewrite (insertEuDocument_ignored nis2 db3 Hn).
    apply (insertEuDocument_ignored aiAct db3 Ha).
  - destruct (insertEuDocument_appends gdpr db) as [a1 [H1 L1]].
    destruct (insertEuDocument_appends nis2 db1) as [a2 [H2 L2]].
    destruct (insertEuDocument_appends aiAct db2) as [a3 [H3 L3]].
    exists (a1 ++ a2 ++ a3). split; [|split].
    + subst db3. rewrite H3. subst db2. rewrite H2. subst db1. rewrite H1.
      cbn [eu_documents set_eu_documents]. rewrite <- !app_assoc.
      destruct db; reflexivity.
    + rewrite !length_app. lia.
    + assert (Hid : forall row,
                existsb (fun r => str_eqb (e_id r) (e_id row)) (eu_documents db3) = true ->
                In (e_id row) (List.map e_id (eu_documents db3))).
      { intros row Hex. apply existsb_exists in Hex as [r [Hin Heq]].
        apply str_eqb_eq in Heq. rewrite <- Heq. apply in_map, Hin. }
      intros i [<-|[<-|[<-|[]]]].
      * apply (Hid gdpr Hg).
      * apply (Hid nis2 Hn).
      * apply (Hid aiAct Ha).
Qed.

Lemma insertMetas (kvs : list (jsstring * MetaValue)) :
  forall db,
    NoDup (List.map fst kvs) ->
    match runAll (fun kv => insertMeta (fst kv) (snd kv)) kvs db with
    | Ok db' =>
        (forall k, In k (List.map fst kvs) -> ~ In k (List.map fst (db_metadata db)))
        /\ db' = set_metadata (db_metadata db ++ kvs) db
    | Throw _ =>
        exists k, In k (List.map fst kvs) /\ In k (List.map fst (db_metadata db))
    end.
Proof.
  induction kvs as [|[k v] kvs IH]; intros db Hnd; cbn [runAll List.map fst snd].
  - split; [intros k []|]. rewrite app_nil_r. destruct db; reflexivity.
  - apply NoDup_cons in Hnd as [Hnotin Hnd].
    unfold insertMeta at 1.
    destruct (existsb _ (db_metadata db)) eqn:Hex.
    + apply existsb_exists in Hex as [[k' v'] [Hin Heq]].
      apply str_eqb_eq in Heq. cbn [fst] in Heq. subst k'.
      exists k. split; [left; reflexivity|].
      apply in_map_iff. exists (k, v'). split; [reflexivity|exact Hin].
    + assert (Hfresh : ~ In k (List.map fst (db_metadata db))).
      { intros Hin. apply in_map_iff in Hin as [[k' v'] [Hk Hin]].
        cbn [fst] in Hk. subst k'.
        assert (Htrue : existsb (fun kv => str_eqb (fst kv) k) (db_metadata db) = true).
        { apply existsb_exists. exists (k, v'). split; [exact Hin|apply str_eqb_refl]. }
        congruence. }
      specialize (IH (set_metadata (db_metadata db ++ [(k, v)]) db) Hnd).
      destruct (runAll _ kvs _) as [db'|e].
      * destruct IH as [Hfree ->]. cbn [db_metadata set_metadata] in *. split.
        -- intros k' [<-|Hin]; [exact Hfresh|].
           intros Hold. apply (Hfree k' Hin).
           rewrite List.map_app, in_app_iff. left. exact Hold.
        -- rewrite <- app_assoc. destruct db; reflexivity.
      * destruct IH as [k' [Hin Hold]]. cbn [db_metadata set_metadata] in Hold.
        rewrite List.map_app, in_app_iff in Hold.
        destruct Hold as [Hold|[Heq|[]]].
        -- exists k'. split; [right; exact Hin|exact Hold].
        -- cbn [fst] in Heq. subst k'. exfalso. apply Hnotin.
           apply list_elem_of_In. exact Hin.
Qed.

(** X25: [writeMetadata] writes its seven rows in one transaction: it
    either appends all seven, which happens exactly when none of the seven
    keys is in [db_metadata] yet, or it raises and leaves the database as it
    was.  In particular it cannot be run twice on the same database. *)
Theorem writeMetadata_all_or_nothing (builtAt : Z) (db : Db) :
  match writeMetadata builtAt db with
  | (Ok _, db') =>
      (forall k, In k metadataKeys -> ~ In k (List.map fst (db_metadata db)))
      /\ (exists rows,
            db' = set_metadata (db_metadata db ++ rows) db
            /\ List.map fst rows = metadataKeys)
      /\ exists e, writeMetadata builtAt db' = (Throw e, db')
  | (Throw _, db') =>
      db' = db
      /\ exists k, In k metadataKeys /\ In k (List.map fst (db_metadata db))
  end.
Proof.
  unfold writeMetadata, transaction.
  set (kvs := [ (js "tier", MetaText (js "free")); _; _; _; _; _; _ ]).
  assert (Hkeys : List.map fst kvs = metadataKeys) by reflexivity.
  assert (Hnd : NoDup (List.map fst kvs)).
  { rewrite Hkeys. apply (bool_decide_unpack _). vm_compute. reflexivity. }
  pose proof (insertMetas kvs db Hnd) as Hrun.
  destruct (runAll _ kvs db) as [db'|e].
  - destruct Hrun as [Hfree ->]. rewrite Hkeys in Hfree.
    split; [exact Hfree|]. split; [exists kvs; split; [reflexivity|exact Hkeys]|].
    pose proof (insertMetas kvs (set_metadata (db_metadata db ++ kvs) db) Hnd) as Hagain.
    destruct (runAll _ kvs (set_metadata _ db)) as [db''|e'].
    + exfalso. destruct Hagain as [Hfree' _].
      apply (Hfree' (js "tier")); [left; reflexivity|].
      cbn [db_metadata set_metadata]. rewrite List.map_app, in_app_iff.
      right. left. reflexivity.
    + exists e'. reflexivity.
  - split; [reflexivity|]. rewrite <- Hkeys. exact Hrun.
Qed.

End StoreWrites.
